(** * A shallow embedding of the RAG chatbot core

    The development follows the TypeScript sources of the repository:

    - [lib/database.ts]  the document store and its SQL queries   ([Module Database])
    - [lib/rag.ts]       retrieval, answer composition, embeddings ([Module Rag])
    - [lib/crawler.ts]   the domain-scoped crawler                 ([Module Crawler])
    - [app/api/chat/route.ts]  the HTTP chat endpoint              ([Module ChatRoute])

    Conventions.  An [async] function is a function into [Js.outcome]: the
    promise either resolves ([Returns]) or rejects ([Throws]).  JavaScript
    numbers that hold similarity scores are exact rationals ([Qc]); numbers
    that count things (limits, page caps, depths, lengths) are [nat].
    Strings are Rocq strings, so [String.length] counts characters.  The
    collaborators that live outside the repository (the embedding and
    completion provider, the pgvector distance operator, the browser, the
    text splitter, the URL parser) are section variables: every theorem
    holds for all of them. *)

From Stdlib Require Import Ascii String QArith Qcanon.
From stdpp Require Import base option list strings numbers sorting pretty.

Set Default Proof Using "Type".

(** ** Promises: a small error monad *)

Module Js.

Inductive outcome (A : Type) : Type :=
| Returns (a : A)
| Throws (msg : string).
Arguments Returns {A} a.
Arguments Throws {A} msg.

#[global] Instance outcome_ret : MRet outcome := λ A a, Returns a.
#[global] Instance outcome_bind : MBind outcome := λ A B f m,
  match m with
  | Returns a => f a
  | Throws msg => Throws msg
  end.
#[global] Instance outcome_fmap : FMap outcome := λ A B f m,
  match m with
  | Returns a => Returns (f a)
  | Throws msg => Throws msg
  end.

(** [try { body } catch (error) { handler error }] *)
Definition try_catch {A} (body : outcome A) (handler : string → outcome A) : outcome A :=
  match body with
  | Returns a => Returns a
  | Throws msg => handler msg
  end.

(** Reading a property of [undefined] raises a [TypeError]. *)
Definition property {A} (field : string) (o : option A) : outcome A :=
  match o with
  | Some a => Returns a
  | None => Throws ("TypeError: Cannot read properties of undefined (reading '" +:+ field +:+ "')")
  end.

Definition rejects {A} (o : outcome A) : Prop := ∃ msg, o = Throws msg.
Definition resolves {A} (o : outcome A) : Prop := ∃ a, o = Returns a.

End Js.
Import Js.

(** Exact rationals written as a fraction, for the numeric literals of the
    sources ([0.7] is [7/10]). *)
Definition frac (n : Z) (d : positive) : Qc := Q2Qc (Qmake n d).

(** ** lib/database.ts *)

Module Database.

Inductive crawl_status_t := pending | crawling | completed | failed.

#[global] Instance crawl_status_eq_dec : EqDecision crawl_status_t.
Proof. solve_decision. Defined.

(** [interface Website]; the timestamps and the free-form settings are not
    read by the code modelled below and are left out. *)
Record Website := {
  id : string;
  domain : string;
  name : string;
  api_key : string;
  crawl_status : crawl_status_t;
  is_active : bool;
}.

Definition vector := list Qc.

(** Values stored in a document's [metadata] object. *)
Inductive meta_value :=
| MStr (s : string)
| MNum (n : nat).

(** [interface Document] ([Partial<Document>] before insertion: the row id
    and the timestamps are assigned by the database). *)
Record Document := {
  website_id : string;
  content : string;
  url : string;
  title : option string;
  embedding : option vector;
  metadata : list (string * meta_value);
}.

(** A row of the similarity query: [SELECT *, (1 - distance) as similarity]. *)
Record Row := {
  row_document : Document;
  similarity : Qc;
}.

(** The database as the queries see it: the two tables in scan order, and
    whether [pool.connect()] rejects. *)
Record Db := {
  websites : list Website;
  documents : list Document;
  connect_error : option string;
}.

(** [query]: acquire a client, run the statement, release. *)
Definition query {A} (db : Db) (statement : Db → A) : outcome A :=
  match connect_error db with
  | Some msg => Throws msg
  | None => Returns (statement db)
  end.

(** [queryOne]: [results[0] || null]. *)
Definition queryOne {A} (db : Db) (statement : Db → list A) : outcome (option A) :=
  rows ← query db statement; mret (head rows).

Section queries.

(** pgvector's cosine distance operator [<=>]. *)
Variable cosine_distance : vector → vector → Qc.

(** [db.websites.findByApiKey] *)
Definition findByApiKey (db : Db) (apiKey : string) : outcome (option Website) :=
  queryOne db (λ db,
    filter (λ w, api_key w = apiKey ∧ is_active w = true) (websites db)).

(** The [WHERE] clause and the select list for one document.  A document
    without an embedding has a NULL distance, so the comparison is not
    true and the row is dropped.  The pair carries the [ORDER BY] key. *)
Definition select_row (websiteId : string) (q : vector) (threshold : Qc)
    (d : Document) : option (Qc * Row) :=
  e ← embedding d;
  let distance := cosine_distance e q in
  if bool_decide (website_id d = websiteId)
     && bool_decide (threshold < 1 - distance)%Qc
  then Some (distance, {| row_document := d; similarity := 1 - distance |})
  else None.

Definition by_distance (r1 r2 : Qc * Row) : Prop := (r1.1 ≤ r2.1)%Qc.

#[global] Instance by_distance_dec : RelDecision by_distance.
Proof. intros r1 r2. unfold by_distance. apply _. Defined.

(** [db.documents.similaritySearch]:
    [SELECT *, (1 - (embedding <=> $2)) as similarity FROM documents
     WHERE website_id = $1 AND (1 - (embedding <=> $2)) > $3
     ORDER BY embedding <=> $2 LIMIT $4]
    The query is evaluated as it is written, over every row of the
    table.  The schema also declares an approximate index (ivfflat) on
    [documents.embedding]; a scan of that index may leave matching rows
    out, so no completeness of the result is claimed of this model. *)
Definition ranked (db : Db) (websiteId : string) (q : vector)
    (threshold : Qc) : list Row :=
  (merge_sort by_distance
     (omap (select_row websiteId q threshold) (documents db))).*2.

Definition similaritySearch (db : Db) (websiteId : string) (q : vector)
    (limit : nat) (threshold : Qc) : outcome (list Row) :=
  query db (λ db, take limit (ranked db websiteId q threshold)).

End queries.

End Database.

(** ** lib/rag.ts *)

Module Rag.

Import Database.

(** What the embedding model answers: [result.embedding.values]. *)
Record ContentEmbedding := {
  values : option vector;
}.

Record EmbedContentResponse := {
  embedding : option ContentEmbedding;
}.

(** What the chat model answers: [result.response.text()], which may throw. *)
Record GenerateContentResult := {
  text : outcome string;
}.

Record RAGContext := {
  documents : list Row;
  totalSources : nat;
  similarity_threshold : Qc;
}.

Record RAGResponse := {
  answer : string;
  context : RAGContext;
  sources : list string;
}.

(** The [options] argument of the two entry points. *)
Record Options := {
  limit : option nat;
  threshold : option Qc;
  includeContext : option bool;
}.

Definition no_options : Options :=
  {| limit := None; threshold := None; includeContext := None |}.

Inductive role_t := user | assistant.

Record HistoryMessage := {
  role : role_t;
  msg_content : string;
}.

(** Observable effects of the batch embedder. *)
Inductive event :=
| Batch (texts : list string)
| Sleep (ms : nat).

Record BatchState := {
  embeddings : list vector;
  log : list event;
}.

Definition nl : string := String (Ascii.ascii_of_nat 10) EmptyString.

(** [[...new Set(xs)]]: first occurrences, in order. *)
Fixpoint set_from (seen : list string) (xs : list string) : list string :=
  match xs with
  | [] => []
  | x :: xs' =>
      if decide (x ∈ seen) then set_from seen xs'
      else x :: set_from (x :: seen) xs'
  end.

(** [xs.slice(-n)] *)
Definition slice_last {A} (n : nat) (xs : list A) : list A :=
  drop (length xs - n) xs.

(** [Promise.all] *)
Fixpoint Promise_all {A} (ps : list (outcome A)) : outcome (list A) :=
  match ps with
  | [] => mret []
  | p :: ps' => a ← p; rest ← Promise_all ps'; mret (a :: rest)
  end.

(** A run of sub-batches with a 100 ms pause between consecutive ones. *)
Fixpoint paced (batches : list (list string)) : list event :=
  match batches with
  | [] => []
  | b :: rest =>
      match rest with
      | [] => [Batch b]
      | _ :: _ => Batch b :: Sleep 100 :: paced rest
      end
  end.

Definition empty_context (similarity_threshold : Qc) : RAGContext :=
  {| documents := []; totalSources := 0;
     similarity_threshold := similarity_threshold |}.

Definition fallback_answer : string :=
  "I'm sorry, I encountered an error while processing your question. Please try again.".

Section provider.

Variable cosine_distance : vector → vector → Qc.
(** [embeddingModel.embedContent] and [chatModel.generateContent] *)
Variable embedContent : string → outcome EmbedContentResponse.
Variable generateContent : string → outcome GenerateContentResult.

(** The provider gave no usable vector: the call threw, or the answer
    carries no embedding, no values, or an empty list of values. *)
Definition no_embedding (o : outcome EmbedContentResponse) : Prop :=
  match o with
  | Throws _ => True
  | Returns result =>
      match embedding result with
      | None => True
      | Some e => values e = None ∨ values e = Some []
      end
  end.

(** The body of the [try] block of [retrieveRelevantDocuments]. *)
Definition retrieve_body (db : Db) (query : string) (websiteId : string)
    (limit : nat) (threshold : Qc) : outcome RAGContext :=
  result ← embedContent query;
  e ← property "values" (embedding result);
  match values e with
  | None | Some [] => Throws "Failed to generate query embedding"
  | Some queryEmbedding =>
      docs ← similaritySearch cosine_distance db websiteId queryEmbedding limit threshold;
      mret {| documents := docs; totalSources := length docs;
              similarity_threshold := threshold |}
  end.

Definition retrieveRelevantDocuments (db : Db) (query : string)
    (websiteId : string) (options : Options) : outcome RAGContext :=
  let limit := default 5 (limit options) in
  let threshold := default (frac 7 10) (threshold options) in
  try_catch (retrieve_body db query websiteId limit threshold)
    (λ error, mret (empty_context threshold)).

Definition contextText (context : RAGContext) : string :=
  String.concat (nl +:+ nl)
    (imap (λ index doc,
       "Source " +:+ pretty (index + 1) +:+ " (" +:+ url (row_document doc) +:+ "):"
         +:+ nl +:+ content (row_document doc))
       (documents context)).

Definition historyText (chatHistory : list HistoryMessage) : string :=
  String.concat nl
    ((λ msg, match role msg with user => "User" | assistant => "Assistant" end
             +:+ ": " +:+ msg_content msg) <$> slice_last 10 chatHistory).

Definition prompt (query : string) (context : RAGContext)
    (chatHistory : list HistoryMessage) : string :=
  "You are a helpful AI assistant for this website. Use the provided context to answer the user's question accurately and helpfully.

Context from the website:
" +:+ contextText context +:+ "

" +:+ (if decide (historyText chatHistory = EmptyString) then EmptyString
       else "Previous conversation:" +:+ nl +:+ historyText chatHistory +:+ nl) +:+ "

Current question: " +:+ query +:+ "

Instructions:
- Answer based primarily on the provided context
- If the context doesn't contain relevant information, politely say so
- Be conversational and helpful
- Keep responses concise but informative
- Reference specific sources when relevant

Answer:".

(** The completion call: [generateContent] followed by [response.text()]. *)
Definition completion (p : string) : outcome string :=
  result ← generateContent p; text result.

Definition fallback_response : RAGResponse :=
  {| answer := fallback_answer;
     context := empty_context 0;
     sources := [] |}.

Definition generateRAGResponse (db : Db) (query : string) (websiteId : string)
    (chatHistory : list HistoryMessage) (options : Options) : outcome RAGResponse :=
  let includeContext := default true (includeContext options) in
  try_catch
    (context ← retrieveRelevantDocuments db query websiteId options;
     reply ← completion (prompt query context chatHistory);
     let urls := set_from [] ((url ∘ row_document) <$> documents context) in
     mret {| answer := reply;
             context := if includeContext then context else empty_context 0;
             sources := urls |})
    (λ error, mret fallback_response).

Definition createEmbedding (text : string) : outcome vector :=
  try_catch
    (result ← embedContent text;
     e ← property "values" (embedding result);
     mret (default [] (values e)))
    (λ error, mret []).

Definition batchSize : nat := 5.

(** The shape of a run of sub-batches: none is empty, none exceeds
    [batchSize], and all but the last are full. *)
Definition well_batched (batches : list (list string)) : Prop :=
  Forall (λ b, 0 < length b ≤ batchSize) batches
  ∧ ∀ j b, batches !! j = Some b → S j < length batches → length b = batchSize.

(** One iteration of the [for] loop of [createEmbeddingsBatch]. *)
Definition batch_step (texts : list string) (i : nat) (st : BatchState) : outcome BatchState :=
  let batch := take batchSize (drop i texts) in
  batchResults ← Promise_all (createEmbedding <$> batch);
  let st := {| embeddings := embeddings st ++ batchResults;
               log := log st ++ [Batch batch] |} in
  if decide (i + batchSize < length texts)
  then mret {| embeddings := embeddings st; log := log st ++ [Sleep 100] |}
  else mret st.

(** [for (let i = 0; i < texts.length; i += batchSize)]; [None] when the
    fuel runs out before the loop ends. *)
Fixpoint batch_loop (fuel : nat) (texts : list string) (i : nat) (st : BatchState)
    : option (outcome BatchState) :=
  match fuel with
  | 0 => None
  | S fuel' =>
      if decide (i < length texts) then
        match batch_step texts i st with
        | Returns st' => batch_loop fuel' texts (i + batchSize) st'
        | Throws msg => Some (Throws msg)
        end
      else Some (Returns st)
  end.

Definition createEmbeddingsBatch_run (fuel : nat) (texts : list string)
    : option (outcome BatchState) :=
  batch_loop fuel texts 0 {| embeddings := []; log := [] |}.

(** The loop runs at most once per text, so this much fuel is enough. *)
Definition createEmbeddingsBatch (texts : list string) : option (outcome BatchState) :=
  createEmbeddingsBatch_run (S (length texts)) texts.

End provider.

End Rag.

(** ** lib/crawler.ts *)

Module Crawler.

Import Database.

(** [interface CrawlOptions]: every field is optional. *)
Record CrawlOptions := {
  maxPages : option nat;
  maxDepth : option nat;
  respectRobotsTxt : option bool;
  delayBetweenRequests : option nat;
  excludePatterns : option (list string);
  includePatterns : option (list string);
}.

Definition default_options : CrawlOptions :=
  {| maxPages := None; maxDepth := None; respectRobotsTxt := None;
     delayBetweenRequests := None; excludePatterns := None;
     includePatterns := None |}.

Record CrawlResult := {
  success : bool;
  pagesProcessed : nat;
  documentsCreated : nat;
  result_errors : list string;
}.

(** A rendered page, as the crawler reads it: the title, the text of the
    elements matching a selector once the non-content elements have been
    removed ([None] when nothing matches), and the [href]s that the
    anchor query yields (the evaluation in the browser may throw). *)
Record Page := {
  page_title : string;
  select : string → option string;
  hrefs : outcome (list string);
}.

(** The fields of a [WebsiteCrawler], together with the [documentsToCreate]
    array that [crawl] hands to [crawlUrl] and the time spent in the
    politeness delay.  [visitedUrls] is a JavaScript [Set]: insertion
    ordered, without duplicates. *)
Record CrawlerState := {
  visitedUrls : list string;
  errors : list string;
  documentsToCreate : list Document;
  waited : nat;
}.

(** Lower-casing of one character: [A]-[Z], and the accented capitals of
    the upper half of the 8-bit range. *)
Definition to_lower_ascii (c : Ascii.ascii) : Ascii.ascii :=
  let n := Ascii.nat_of_ascii c in
  if ((65 <=? n) && (n <=? 90))
     || ((192 <=? n) && (n <=? 222) && negb (n =? 215))
  then Ascii.ascii_of_nat (n + 32) else c.

(** The characters matched by [\s] and stripped by [trim]: tab, line feed,
    vertical tab, form feed, carriage return, space, no-break space. *)
Definition is_whitespace (c : Ascii.ascii) : bool :=
  let n := Ascii.nat_of_ascii c in
  ((9 <=? n) && (n <=? 13)) || (n =? 32) || (n =? 160).

(** [s.toLowerCase()] *)
Fixpoint toLowerCase (s : string) : string :=
  match s with
  | EmptyString => EmptyString
  | String c s' => String (to_lower_ascii c) (toLowerCase s')
  end.

(** [s.includes(pattern)] *)
Fixpoint includes (pattern s : string) : bool :=
  String.prefix pattern s ||
  match s with
  | EmptyString => false
  | String _ s' => includes pattern s'
  end.

(** [/\s+/g] replaced by one space. *)
Fixpoint collapse_whitespace (in_run : bool) (s : string) : string :=
  match s with
  | EmptyString => EmptyString
  | String c s' =>
      if is_whitespace c
      then if in_run then collapse_whitespace true s'
           else String " "%char (collapse_whitespace true s')
      else String c (collapse_whitespace false s')
  end.

(** [/\n+/g] replaced by one newline. *)
Fixpoint collapse_newlines (in_run : bool) (s : string) : string :=
  match s with
  | EmptyString => EmptyString
  | String c s' =>
      if Ascii.eqb c (Ascii.ascii_of_nat 10)
      then if in_run then collapse_newlines true s'
           else String c (collapse_newlines true s')
      else String c (collapse_newlines false s')
  end.

Fixpoint trim_start (s : string) : string :=
  match s with
  | EmptyString => EmptyString
  | String c s' => if is_whitespace c then trim_start s' else s
  end.

(** [s.trim()] *)
Definition trim (s : string) : string :=
  String.rev (trim_start (String.rev (trim_start s))).

(** The clean-up applied to the extracted text. *)
Definition clean (textContent : string) : string :=
  trim (collapse_newlines false (collapse_whitespace false textContent)).

Definition contentSelectors : list string :=
  ["main"; ".content"; ".main-content"; "article"; ".post"; ".entry-content"; "body"].

(** The [for (const selector of contentSelectors)] loop: the text of the
    first selector that matches. *)
Fixpoint first_match (page : Page) (selectors : list string) : string :=
  match selectors with
  | [] => EmptyString
  | selector :: rest =>
      match select page selector with
      | Some t => t
      | None => first_match page rest
      end
  end.

Definition extract (page : Page) : string :=
  let textContent := first_match page contentSelectors in
  if decide (textContent = EmptyString)
  then default EmptyString (select page "body")
  else textContent.

(** The constructor: defaults overridden by the given options. *)
Record Settings := {
  s_maxPages : nat;
  s_maxDepth : nat;
  s_respectRobotsTxt : bool;
  s_delayBetweenRequests : nat;
  s_excludePatterns : list string;
  s_includePatterns : list string;
}.

Definition settings (options : CrawlOptions) : Settings :=
  {| s_maxPages := default 50 (maxPages options);
     s_maxDepth := default 3 (maxDepth options);
     s_respectRobotsTxt := default true (respectRobotsTxt options);
     s_delayBetweenRequests := default 1000 (delayBetweenRequests options);
     s_excludePatterns :=
       default ["/admin"; "/wp-admin"; "/login"; "/checkout"; "/cart";
                ".pdf"; ".jpg"; ".png"; ".gif"; ".zip"; ".exe"]
               (excludePatterns options);
     s_includePatterns := default [] (includePatterns options) |}.

(** A splitter that keeps a text in one piece (used in examples). *)
Definition splitText_identity (textContent : string) : list string := [textContent].

Definition new_crawler : CrawlerState :=
  {| visitedUrls := []; errors := []; documentsToCreate := []; waited := 0 |}.

Definition shouldCrawlUrl (opts : Settings) (url : string) : bool :=
  if existsb (λ pattern, includes (toLowerCase pattern) (toLowerCase url))
       (s_excludePatterns opts)
  then false
  else if decide (0 < length (s_includePatterns opts))
  then existsb (λ pattern, includes (toLowerCase pattern) (toLowerCase url))
         (s_includePatterns opts)
  else true.

Section crawler.

(** The tenant being crawled and the merged options. *)
Variable website : Website.
Variable opts : Settings.
(** [page.goto] followed by [page.content] and [page.title]. *)
Variable goto : string → outcome Page.
(** [RecursiveCharacterTextSplitter.splitText] with chunk size 1000,
    overlap 200 and separators paragraph, line, sentence, word, character. *)
Variable splitText : string → list string.
(** [new URL(url).hostname]; [None] when the constructor throws. *)
Variable hostname : string → option string.
(** [new Date().toISOString()] *)
Variable timestamp : string.

Definition isInternalLink (url : string) : bool :=
  match hostname url, hostname (domain website) with
  | Some h, Some d => bool_decide (h = d)
  | _, _ => false
  end.

(** The entry pushed for chunk number [index] of a page. *)
Definition chunk_document (url title : string) (total : nat) (index : nat)
    (chunk : string) : Document :=
  {| website_id := id website;
     content := chunk;
     Database.url := url;
     title := Some title;
     embedding := None;
     metadata :=
       [("source_domain", MStr (domain website));
        ("chunk_index", MNum index);
        ("total_chunks", MNum total);
        ("crawl_timestamp", MStr timestamp);
        ("page_title", MStr title)] |}.

(** Text extraction and chunking of one loaded page: the documents it
    contributes. *)
Definition page_documents (url : string) (page : Page) : list Document :=
  let textContent := clean (extract page) in
  if decide (100 < String.length textContent)
  then let chunks := splitText textContent in
       imap (chunk_document url (page_title page) (length chunks)) chunks
  else [].

(** The anchor query with its in-browser filter. *)
Definition page_links (page : Page) : outcome (list string) :=
  (λ anchors,
     filter (λ href, href ≠ EmptyString
                     ∧ String.prefix "mailto:" href = false
                     ∧ String.prefix "tel:" href = false) anchors)
  <$> hrefs page.

Definition internalLinks (links : list string) : list string :=
  take 10 (filter (λ link, isInternalLink link = true) links).

Definition visit (url : string) (st : CrawlerState) : CrawlerState :=
  {| visitedUrls := visitedUrls st ++ [url]; errors := errors st;
     documentsToCreate := documentsToCreate st; waited := waited st |}.

Definition push_documents (docs : list Document) (st : CrawlerState) : CrawlerState :=
  {| visitedUrls := visitedUrls st; errors := errors st;
     documentsToCreate := documentsToCreate st ++ docs; waited := waited st |}.

Definition record_error (url msg : string) (st : CrawlerState) : CrawlerState :=
  {| visitedUrls := visitedUrls st;
     errors := errors st ++ ["Error crawling " +:+ url +:+ ": " +:+ msg];
     documentsToCreate := documentsToCreate st; waited := waited st |}.

Definition delay (st : CrawlerState) : CrawlerState :=
  {| visitedUrls := visitedUrls st; errors := errors st;
     documentsToCreate := documentsToCreate st;
     waited := waited st + s_delayBetweenRequests opts |}.

(** [crawlUrl].  The recursion of the source goes one level deeper at
    each call and stops beyond [maxDepth]; [fuel] bounds the nesting, and
    [None] is returned only if it runs out. *)
Fixpoint crawlUrl (fuel : nat) (url : string) (depth : nat) (st : CrawlerState)
    : option CrawlerState :=
  match fuel with
  | 0 => None
  | S fuel' =>
      if bool_decide (s_maxDepth opts < depth)
         || bool_decide (s_maxPages opts ≤ length (visitedUrls st))
         || bool_decide (url ∈ visitedUrls st)
      then Some st
      else if negb (shouldCrawlUrl opts url) then Some st
      else
        let st := visit url st in
        match goto url with
        | Throws msg => Some (record_error url msg st)
        | Returns page =>
            let st := push_documents (page_documents url page) st in
            if bool_decide (depth < s_maxDepth opts) then
              match page_links page with
              | Throws msg => Some (record_error url msg st)
              | Returns links =>
                  foldl (λ acc link,
                           st ← acc; crawlUrl fuel' link (depth + 1) (delay st))
                        (Some st) (internalLinks links)
              end
            else Some st
        end
  end.

(** One turn of the [for (const link of internalLinks)] loop. *)
Definition follow (fuel depth : nat) (acc : option CrawlerState) (link : string)
    : option CrawlerState :=
  st ← acc; crawlUrl fuel link (depth + 1) (delay st).

(** [link] is one of the links that the crawler follows from page [u]. *)
Definition followed_from (u link : string) : Prop :=
  ∃ page links, goto u = Returns page ∧ page_links page = Returns links
                ∧ link ∈ internalLinks links.

(** The traversal that [crawl] starts: the tenant's domain at depth 0
    with a fresh crawler. *)
Definition crawl_pages (fuel : nat) : option CrawlerState :=
  crawlUrl fuel (domain website) 0 new_crawler.

End crawler.

(** *** startCrawl *)

(** A callback registered with [setTimeout]: the background
    [crawlWebsite(websiteId, options)]. *)
Record Timer := {
  timer_delay : nat;
  timer_websiteId : string;
  timer_options : option CrawlOptions;
}.

(** Everything [startCrawl] can read or change: the database, the
    pending timers and the crawlers that are running. *)
Record World := {
  db : Db;
  timers : list Timer;
  running : list CrawlerState;
}.

Record StartResult := {
  start_success : bool;
  start_message : string;
  jobId : option string;
}.

Definition startCrawl (w : World) (now : N) (websiteId : string)
    (options : option CrawlOptions) : StartResult * World :=
  match findByApiKey (db w) websiteId with
  | Throws msg =>
      ({| start_success := false;
          start_message := "Error starting crawl: " +:+ msg;
          jobId := None |}, w)
  | Returns None =>
      ({| start_success := false; start_message := "Website not found";
          jobId := None |}, w)
  | Returns (Some website) =>
      if decide (crawl_status website = crawling) then
        ({| start_success := false;
            start_message := "Website is already being crawled";
            jobId := None |}, w)
      else
        ({| start_success := true;
            start_message := "Crawl started successfully";
            jobId := Some ("crawl-" +:+ id website +:+ "-" +:+ pretty now) |},
         {| db := db w;
            timers := timers w ++ [{| timer_delay := 1000;
                                      timer_websiteId := websiteId;
                                      timer_options := options |}];
            running := running w |})
  end.

End Crawler.

(** ** app/api/chat/route.ts *)

Module ChatRoute.

(** JSON values, for the bodies handed to [Response.json]. *)
#[local] Unset Elimination Schemes.
Inductive json :=
| JStr (s : string)
| JNum (n : N)
| JBool (b : bool)
| JArr (items : list json)
| JObj (fields : list (string * json)).
#[local] Set Elimination Schemes.

Record Response := {
  status : nat;
  headers : list (string * string);
  body : json;
}.

Fixpoint assoc (key : string) (fields : list (string * json)) : option json :=
  match fields with
  | [] => None
  | (k, v) :: rest => if decide (k = key) then Some v else assoc key rest
  end.

(** [obj.key]; [None] is [undefined]. *)
Definition field (key : string) (v : json) : option json :=
  match v with
  | JObj fields => assoc key fields
  | _ => None
  end.

(** A property whose value is [undefined] is left out by the serializer. *)
Definition optional_field (key : string) (v : option json) : list (string * json) :=
  match v with
  | Some v => [(key, v)]
  | None => []
  end.

Definition corsHeaders : list (string * string) :=
  [("Access-Control-Allow-Origin", "*");
   ("Access-Control-Allow-Methods", "GET, POST, OPTIONS");
   ("Access-Control-Allow-Headers", "Content-Type, Authorization")].

(** The request body after [const { message, websiteId, sessionId } = body]. *)
Record Body := {
  message : option string;
  websiteId : option string;
  sessionId : option string;
}.

(** The answer of the Gemini REST endpoint, as far as the handler looks
    into it: [data.candidates[0].content.parts[0].text]. *)
Record Part := { part_text : option string }.
Record Content := { parts : option (list Part) }.
Record Candidate := { candidate_content : option Content }.
Record GeminiData := { candidates : option (list Candidate) }.

(** An answer in which [generateGeminiResponse] finds no first part: no
    candidate, a first candidate without content, or content without
    parts. *)
Definition malformed (data : GeminiData) : Prop :=
  candidates data = None
  ∨ candidates data = Some []
  ∨ ∃ candidate rest,
      candidates data = Some (candidate :: rest)
      ∧ (candidate_content candidate = None
         ∨ ∃ content,
             candidate_content candidate = Some content
             ∧ (parts content = None ∨ parts content = Some [])).

Definition gemini_fallback : string :=
  "Maaf, saya tidak dapat memproses permintaan Anda saat ini. Silakan coba lagi.".

Definition gemini_prompt (message : string) : string :=
  "Anda adalah asisten AI yang membantu menjawab pertanyaan dalam bahasa Indonesia. 
Berikan jawaban yang informatif, ramah, dan natural.

Pertanyaan: " +:+ message +:+ "

Jawaban:".

(** The [metadata] object of a successful reply. *)
Definition reply_metadata : json :=
  JObj [("aiModel", JStr "Google Gemini 1.5 Flash");
        ("productionMode", JBool true);
        ("hasDatabase", JBool false);
        ("version", JStr "2.0")].

(** Truthiness of an optional string: [undefined] and the empty string
    are falsy. *)
Definition truthy (s : option string) : bool :=
  match s with
  | None => false
  | Some s => negb (bool_decide (s = EmptyString))
  end.

Section handler.

(** [process.env.GOOGLE_GEMINI_API_KEY] *)
Variable apiKey : option string.
(** [fetch] of the generateContent endpoint followed by [response.json()],
    given the key and the prompt. *)
Variable gemini : string → string → outcome GeminiData.
(** The successive readings of [Date.now()] during one request. *)
Variable Date_now : nat → N.

(** [generateGeminiResponse]; the result is [None] when the function
    returns [undefined]. *)
Definition generateGeminiResponse (message : string) : outcome (option string) :=
  try_catch
    (key ← (if truthy apiKey then mret (default EmptyString apiKey)
            else Throws "Gemini API key not configured");
     data ← gemini key (gemini_prompt message);
     match candidates data with
     | Some (candidate :: _) =>
         match candidate_content candidate with
         | Some content =>
             ps ← property "0" (parts content);
             p ← property "text" (head ps);
             mret (part_text p)
         | None => Throws "Invalid response from Gemini API"
         end
     | _ => Throws "Invalid response from Gemini API"
     end)
    (λ error, mret (Some gemini_fallback)).

(** [POST].  [request_json] is the outcome of [request.json()]; [None] is
    the JSON value [null].  [sessionId || ...] reads the clock only when
    the request has no [sessionId], so [timestamp] is the second reading
    of the clock then, and the first one otherwise. *)
Definition POST (request_json : outcome (option Body)) : outcome Response :=
  try_catch
    (parsed ← request_json;
     b ← property "message" parsed;
     if negb (truthy (message b)) then
       mret {| status := 400; headers := [];
               body := JObj [("error", JStr "Message is required")] |}
     else
       responseContent ← generateGeminiResponse (default EmptyString (message b));
       mret {| status := 200; headers := corsHeaders;
               body := JObj
                 ([("type", JStr "response")]
                  ++ optional_field "content" (JStr <$> responseContent)
                  ++ [("sessionId",
                       JStr (if truthy (sessionId b)
                             then default EmptyString (sessionId b)
                             else "prod-session-" +:+ pretty (Date_now 0)));
                      ("timestamp",
                       JNum (Date_now (if truthy (sessionId b) then 0 else 1)));
                      ("metadata", reply_metadata)]) |})
    (λ error,
       mret {| status := 500; headers := corsHeaders;
               body := JObj
                 [("content", JStr "Maaf, terjadi kesalahan sistem. Silakan coba lagi dalam beberapa saat.");
                  ("type", JStr "error");
                  ("timestamp", JNum (Date_now 0))] |}).

End handler.

End ChatRoute.

(** ** Concrete tenants, pages and providers used in the examples *)

Module Fixtures.

Import Database Crawler.

Definition example_site : Website :=
  {| id := "w1"; domain := "https://example.com"; name := "Example";
     api_key := "key-1"; crawl_status := pending; is_active := true |}.

Definition example_hostname (url : string) : option string :=
  if String.prefix "https://example.com" url then Some "example.com"
  else if String.prefix "https://" url then Some "elsewhere.org"
  else None.

Definition text_of_100_characters : string :=
  "aaaaaaaaaaaaaaaaaaaaaaaaaaaaaaaaaaaaaaaaaaaaaaaaaaaaaaaaaaaaaaaaaaaaaaaaaaaaaaaaaaaaaaaaaaaaaaaaaaaa".

Definition short_page : Page :=
  {| page_title := "Short";
     select := λ selector,
       if decide (selector = "main") then Some text_of_100_characters else None;
     hrefs := Returns [] |}.

(** A start page with twelve same-host links and one foreign link; every
    other page has no links. *)
Definition hub_links : list string :=
  ["https://example.com/p1"; "https://example.com/p2"; "https://elsewhere.org/x";
   "https://example.com/p3"; "https://example.com/p4"; "https://example.com/p5";
   "https://example.com/p6"; "https://example.com/p7"; "https://example.com/p8";
   "https://example.com/p9"; "https://example.com/p10"; "https://example.com/p11";
   "https://example.com/p12"].

Definition hub_site (url : string) : outcome Page :=
  Returns {| page_title := url;
             select := λ _, None;
             hrefs := Returns (if decide (url = "https://example.com")
                               then hub_links else []) |}.

Definition crawling_site : Website :=
  {| id := "w1"; domain := "https://example.com"; name := "Example";
     api_key := "key-1"; crawl_status := crawling; is_active := true |}.

Definition example_world : World :=
  {| db := {| websites := [crawling_site];
              documents := [];
              connect_error := None |};
     timers := [];
     running := [{| visitedUrls := ["https://example.com"; "https://example.com/p1"];
                    errors := []; documentsToCreate := []; waited := 1000 |}] |}.

(** A store with two chunks of tenant [T1] and one of tenant [T2]; the
    distance to the query is read off the single coordinate. *)
Definition coordinate_distance (e q : vector) : Qc :=
  match e with
  | x :: _ => x
  | [] => 1
  end.

Definition chunk (tenant url text : string) (distance : Qc) : Document :=
  {| website_id := tenant; content := text; Database.url := url;
     title := None; embedding := Some [distance]; metadata := [] |}.

Definition example_db : Db :=
  {| websites := [example_site];
     documents :=
       [chunk "T1" "https://example.com/services" "We offer consulting." (frac 1 5);
        chunk "T2" "https://other.example/services" "Unrelated tenant." (frac 1 20);
        chunk "T1" "https://example.com/about" "About us." (frac 1 10)];
     connect_error := None |}.

Definition failing_embedder (text : string) : outcome Rag.EmbedContentResponse :=
  Throws "quota exceeded".

Definition unit_embedder (text : string) : outcome Rag.EmbedContentResponse :=
  if decide (text = "bad") then Throws "quota exceeded"
  else Returns {| Rag.embedding := Some {| Rag.values := Some [1%Qc] |} |}.

Definition hello_model (p : string) : outcome Rag.GenerateContentResult :=
  Returns {| Rag.text := Returns "Hello" |}.

Definition halo_gemini (key p : string) : outcome ChatRoute.GeminiData :=
  Returns {| ChatRoute.candidates :=
    Some [{| ChatRoute.candidate_content :=
      Some {| ChatRoute.parts :=
        Some [{| ChatRoute.part_text := Some "Halo" |}] |} |}] |}.

Definition example_body : ChatRoute.Body :=
  {| ChatRoute.message := Some "hi"; ChatRoute.websiteId := Some "w1";
     ChatRoute.sessionId := None |}.

Definition example_clock (k : nat) : N := (1700000000000 + N.of_nat k)%N.

(** An answer whose first part carries no text. *)
Definition textless_gemini (key p : string) : outcome ChatRoute.GeminiData :=
  Returns {| ChatRoute.candidates :=
    Some [{| ChatRoute.candidate_content :=
      Some {| ChatRoute.parts :=
        Some [{| ChatRoute.part_text := None |}] |} |}] |}.

(** An answer without candidates. *)
Definition empty_gemini (key p : string) : outcome ChatRoute.GeminiData :=
  Returns {| ChatRoute.candidates := Some [] |}.

Definition session_body : ChatRoute.Body :=
  {| ChatRoute.message := Some "hi"; ChatRoute.websiteId := Some "w1";
     ChatRoute.sessionId := Some "abc" |}.

(** A site of three pages: the start page and the contact page carry an
    article, the page between them cannot be reached. *)
Definition article_text : string :=
  "Our consultants help small companies to plan, build and run their online shops, from the first sketch to the daily business.".

Definition article_page (links : list string) : Page :=
  {| page_title := "Article";
     select := λ selector,
       if decide (selector = "article") then Some article_text else None;
     hrefs := Returns links |}.

Definition article_site (url : string) : outcome Page :=
  if decide (url = "https://example.com")
  then Returns (article_page ["https://example.com/broken";
                              "https://example.com/contact"])
  else if decide (url = "https://example.com/broken")
  then Throws "net::ERR_CONNECTION_REFUSED"
  else Returns (article_page []).

(** A store in which the tenant [w1] is indexed already, beside a chunk
    of another tenant. *)
Definition indexed_db : Db :=
  {| websites := [example_site];
     documents :=
       [chunk "w1" "https://example.com/old" "An old chunk." (frac 1 2);
        chunk "T2" "https://other.example/services" "Unrelated tenant." (frac 1 20)];
     connect_error := None |}.

End Fixtures.

(** ** Measures on the effects of the batch embedder *)

Module Measures.

Import Rag.

(** The time spent pausing, in milliseconds. *)
Definition pause_total (log : list event) : nat :=
  sum_list (omap (λ e, match e with Sleep ms => Some ms | Batch _ => None end) log).

(** The sub-batches handed to the provider, in order. *)
Definition batches_of (log : list event) : list (list string) :=
  omap (λ e, match e with Batch b => Some b | Sleep _ => None end) log.

End Measures.

(** ** Paths of followed links, and what a visited page leaves behind *)

Module Reachability.

Import Database Crawler.

Section crawler.

Variable website : Website.
Variable goto : string → outcome Page.
Variable hostname : string → option string.
Variable splitText : string → list string.
Variable timestamp : string.

(** [v] is reached from [u] by following [k] links, each one among the
    links that the crawler follows from the page before it. *)
Fixpoint link_path (k : nat) (u v : string) : Prop :=
  match k with
  | 0 => u = v
  | S k' => ∃ w, followed_from website goto hostname u w ∧ link_path k' w v
  end.

(** What an entry of the crawler's error list says about page [u]. *)
Definition page_failure (u msg : string) : Prop :=
  goto u = Throws msg
  ∨ ∃ page, goto u = Returns page ∧ page_links page = Throws msg.

(** The documents that the visit of [url] pushes: those of its page, and
    none when the navigation throws. *)
Definition fetched_documents (url : string) : list Document :=
  match goto url with
  | Returns page => page_documents website splitText timestamp url page
  | Throws _ => []
  end.

End crawler.

End Reachability.

(** ** lib/database.ts: the statements that write *)

Module DatabaseOps.

Import Database.

Definition with_status (status : crawl_status_t) (w : Website) : Website :=
  {| id := id w; domain := domain w; name := name w; api_key := api_key w;
     crawl_status := status; is_active := is_active w |}.

(** [db.websites.updateCrawlStatus]:
    [UPDATE websites SET crawl_status = $1, last_crawled_at = NOW() WHERE id = $2] *)
Definition updateCrawlStatus (d : Db) (websiteId : string)
    (status : crawl_status_t) : outcome Db :=
  query d (λ d,
    {| websites :=
         (λ w, if decide (id w = websiteId) then with_status status w else w)
         <$> websites d;
       documents := documents d;
       connect_error := connect_error d |}).

(** [db.documents.deleteByWebsiteId]:
    [DELETE FROM documents WHERE website_id = $1] *)
Definition deleteByWebsiteId (d : Db) (websiteId : string) : outcome Db :=
  query d (λ d,
    {| websites := websites d;
       documents := filter (λ doc, website_id doc ≠ websiteId) (documents d);
       connect_error := connect_error d |}).

(** [db.websites.findByDomain] *)
Definition findByDomain (d : Db) (dom : string) : outcome (option Website) :=
  queryOne d (λ d,
    filter (λ w, domain w = dom ∧ is_active w = true) (websites d)).

Section constraints.

(** The checks that the database runs on an inserted row (foreign key,
    vector dimension, ...): [Some msg] when the row is refused. *)
Variable row_error : Db → Document → option string.

(** [db.documents.create]: [INSERT INTO documents ... RETURNING *] *)
Definition create (d : Db) (doc : Document) : outcome (Document * Db) :=
  match connect_error d with
  | Some msg => Throws msg
  | None =>
      match row_error d doc with
      | Some msg => Throws msg
      | None =>
          Returns (doc, {| websites := websites d;
                           documents := documents d ++ [doc];
                           connect_error := connect_error d |})
      end
  end.

End constraints.

End DatabaseOps.

(** ** lib/crawler.ts: a whole crawl *)

Module CrawlRun.

Import Database DatabaseOps Crawler.

(** The state of the saving loop of [processDocuments]. *)
Record SaveState := {
  save_db : Db;
  save_errors : list string;
  createdCount : nat;
}.

(** [doc.embedding = embeddings[i]] *)
Definition with_embedding (e : option vector) (doc : Document) : Document :=
  {| website_id := website_id doc; content := content doc; url := url doc;
     title := title doc; embedding := e; metadata := metadata doc |}.

Definition with_errors (errs : list string) (st : CrawlerState) : CrawlerState :=
  {| visitedUrls := visitedUrls st; errors := errs;
     documentsToCreate := documentsToCreate st; waited := waited st |}.

Section run.

Variable website : Website.
Variable opts : Settings.
Variable goto : string → outcome Page.
Variable splitText : string → list string.
Variable hostname : string → option string.
Variable timestamp : string.
Variable embedContent : string → outcome Rag.EmbedContentResponse.
Variable row_error : Db → Document → option string.
(** [puppeteer.launch], [browser.newPage] and [page.setUserAgent]; then
    [browser.close]. *)
Variable launch : outcome unit.
Variable close : outcome unit.

(** The loop [for (let i = 0; i < documentsToCreate.length; i++)]. *)
Fixpoint save_documents (embeddings : list vector) (i : nat)
    (docs : list Document) (s : SaveState) : SaveState :=
  match docs with
  | [] => s
  | doc :: rest =>
      let s' :=
        match create row_error (save_db s) (with_embedding (embeddings !! i) doc) with
        | Returns (_, d') =>
            {| save_db := d'; save_errors := save_errors s;
               createdCount := createdCount s + 1 |}
        | Throws msg =>
            {| save_db := save_db s;
               save_errors := save_errors s ++ ["Error saving document: " +:+ msg];
               createdCount := createdCount s |}
        end in
      save_documents embeddings (i + 1) rest s'
  end.

(** [processDocuments]: the number of documents created, the database
    and the crawler afterwards. *)
Definition processDocuments (d : Db) (st : CrawlerState)
    : option (nat * Db * CrawlerState) :=
  let docs := documentsToCreate st in
  if decide (length docs = 0) then Some (0, d, st)
  else
    match Rag.createEmbeddingsBatch embedContent (content <$> docs) with
    | None => None
    | Some (Throws msg) =>
        Some (0, d, with_errors (errors st ++ ["Error processing documents: " +:+ msg]) st)
    | Some (Returns batch) =>
        let s := save_documents (Rag.embeddings batch) 0 docs
                   {| save_db := d; save_errors := errors st; createdCount := 0 |} in
        Some (createdCount s, save_db s, with_errors (save_errors s) st)
    end.

(** The [catch] block of [crawl]. *)
Definition crawl_failed (d : Db) (st : CrawlerState) (msg : string)
    : outcome (CrawlResult * Db) :=
  let errs := errors st ++ ["General crawl error: " +:+ msg] in
  d' ← updateCrawlStatus d (id website) failed;
  mret ({| success := false; pagesProcessed := length (visitedUrls st);
           documentsCreated := 0; result_errors := errs |}, d').

(** [crawl], for a freshly constructed crawler. *)
Definition crawl (fuel : nat) (d : Db) : option (outcome (CrawlResult * Db)) :=
  match updateCrawlStatus d (id website) crawling with
  | Throws msg => Some (crawl_failed d new_crawler msg)
  | Returns d1 =>
      match deleteByWebsiteId d1 (id website) with
      | Throws msg => Some (crawl_failed d1 new_crawler msg)
      | Returns d2 =>
          match launch with
          | Throws msg => Some (crawl_failed d2 new_crawler msg)
          | Returns _ =>
              st ← crawl_pages website opts goto splitText hostname timestamp fuel;
              match close with
              | Throws msg => Some (crawl_failed d2 st msg)
              | Returns _ =>
                  '(processedCount, d3, st') ← processDocuments d2 st;
                  match updateCrawlStatus d3 (id website) completed with
                  | Throws msg => Some (crawl_failed d3 st' msg)
                  | Returns d4 =>
                      Some (Returns
                        ({| success := true;
                            pagesProcessed := length (visitedUrls st');
                            documentsCreated := processedCount;
                            result_errors := errors st' |}, d4))
                  end
              end
          end
      end
  end.

End run.

(** [crawlWebsite]: look the tenant up by the key, build a crawler with
    the given options, and crawl. *)
Definition crawlWebsite
    (goto : string → outcome Page) (splitText : string → list string)
    (hostname : string → option string) (timestamp : string)
    (embedContent : string → outcome Rag.EmbedContentResponse)
    (row_error : Db → Document → option string)
    (launch close : outcome unit)
    (d : Db) (websiteId : string) (options : option CrawlOptions)
    : option (outcome (CrawlResult * Db)) :=
  match findByApiKey d websiteId with
  | Throws msg => Some (Throws msg)
  | Returns None => Some (Throws "Website not found")
  | Returns (Some website) =>
      let opts := settings (default default_options options) in
      crawl website opts goto splitText hostname timestamp embedContent
        row_error launch close (S (s_maxDepth opts)) d
  end.

End CrawlRun.

(** ** The crawl endpoints ([POST] and [GET] of the crawl route) *)

Module CrawlRoute.

Import Database Crawler ChatRoute.

(** The request body after [const { websiteId, options } = body]. *)
Record CrawlBody := {
  body_websiteId : option string;
  body_options : option CrawlOptions;
}.

(** [Response.json(result)] for the object that [startCrawl] returns. *)
Definition start_result_json (r : StartResult) : json :=
  JObj ([("success", JBool (start_success r));
         ("message", JStr (start_message r))]
        ++ optional_field "jobId" (JStr <$> jobId r)).

(** [POST]: start a crawl. *)
Definition POST (w : World) (now : N) (request_json : outcome (option CrawlBody))
    : Response * World :=
  match request_json ≫= property "websiteId" with
  | Throws _ =>
      ({| status := 500; headers := [];
          body := JObj [("error", JStr "Internal server error")] |}, w)
  | Returns b =>
      if negb (truthy (body_websiteId b)) then
        ({| status := 400; headers := [];
            body := JObj [("error", JStr "Website ID is required")] |}, w)
      else
        let (result, w') :=
          startCrawl w now (default EmptyString (body_websiteId b)) (body_options b) in
        ({| status := 200; headers := []; body := start_result_json result |}, w')
  end.

(** The object [db] exported by [lib/database.ts] has the members
    [websites], [documents], [chatSessions] and [chatHistory]; it has no
    [query], so the call [db.query(...)] of the status handler throws. *)
Definition db_query (d : Db) (websiteId : string) : outcome nat :=
  Throws "TypeError: db.query is not a function".

Definition status_name (s : crawl_status_t) : string :=
  match s with
  | pending => "pending"
  | crawling => "crawling"
  | completed => "completed"
  | failed => "failed"
  end.

(** [GET]: the crawl status of a tenant; the argument is
    [url.searchParams.get('websiteId')]. *)
Definition GET (d : Db) (websiteId : option string) : Response :=
  if negb (truthy websiteId) then
    {| status := 400; headers := [];
       body := JObj [("error", JStr "Website ID is required")] |}
  else
    match findByApiKey d (default EmptyString websiteId) with
    | Throws _ =>
        {| status := 500; headers := [];
           body := JObj [("error", JStr "Internal server error")] |}
    | Returns None =>
        {| status := 404; headers := [];
           body := JObj [("error", JStr "Website not found")] |}
    | Returns (Some website) =>
        match db_query d (id website) with
        | Throws _ =>
            {| status := 500; headers := [];
               body := JObj [("error", JStr "Internal server error")] |}
        | Returns count =>
            {| status := 200; headers := [];
               body := JObj
                 [("website", JObj
                     [("id", JStr (id website));
                      ("domain", JStr (domain website));
                      ("name", JStr (name website));
                      ("crawl_status", JStr (status_name (crawl_status website)));
                      ("is_active", JBool (is_active website))]);
                  ("documentCount", JNum (N.of_nat count))] |}
        end
    end.

End CrawlRoute.

(** ** app/api/chat-socket/route.ts: messages on a socket *)

Module ChatSocket.

Import Database Rag ChatRoute.

Inductive message_type_t := mt_user | mt_assistant | mt_system.

(** A row of [chat_history]; the table is kept in order of [created_at]. *)
Record ChatRow := {
  session_id : string;
  row_website_id : string;
  message_type : message_type_t;
  row_content : string;
  row_metadata : json;
}.

(** A frame sent with [ws.send(JSON.stringify(...))]. *)
Record Frame := {
  frame_type : string;
  frame_content : option string;
  frame_sessionId : option string;
  frame_timestamp : N;
  frame_metadata : option json;
}.

(** What a message handler works on: the store, the history table and
    the frames sent so far on the socket. *)
Record Chat := {
  chat_db : Db;
  chat_history : list ChatRow;
  outbox : list Frame;
}.

(** The fields that the connection handler has put on the socket. *)
Record Socket := {
  ws_sessionId : option string;
  ws_websiteId : option string;
}.

(** A parsed incoming message; a field that is missing or [null] is
    [None]. *)
Record Incoming := {
  in_type : string;
  in_content : option string;
  in_metadata : option json;
}.

(** Truthiness of a JSON value: [false], [0] and the empty string are
    falsy, arrays and objects are truthy. *)
Definition json_truthy (v : json) : bool :=
  match v with
  | JStr s => negb (bool_decide (s = EmptyString))
  | JNum n => negb (bool_decide (n = 0%N))
  | JBool b => b
  | JArr _ | JObj _ => true
  end.

(** [message.metadata || {}] *)
Definition metadata_or_empty (metadata : option json) : json :=
  match metadata with
  | Some v => if json_truthy v then v else JObj []
  | None => JObj []
  end.

(** [db.chatHistory.create] *)
Definition history_create (c : Chat) (row : ChatRow) : outcome Chat :=
  query (chat_db c) (λ _,
    {| chat_db := chat_db c; chat_history := chat_history c ++ [row];
       outbox := outbox c |}).

(** [db.chatHistory.getBySessionId]:
    [SELECT * FROM chat_history WHERE session_id = $1
     ORDER BY created_at DESC LIMIT $2] *)
Definition getBySessionId (c : Chat) (sessionId : string) (limit : nat)
    : outcome (list ChatRow) :=
  query (chat_db c) (λ _,
    take limit (reverse (filter (λ row, session_id row = sessionId)
                           (chat_history c)))).

Definition send (f : Frame) (c : Chat) : Chat :=
  {| chat_db := chat_db c; chat_history := chat_history c;
     outbox := outbox c ++ [f] |}.

(** [xs.slice(0, -1)] *)
Definition drop_last {A} (xs : list A) : list A := take (length xs - 1) xs.

(** [{ role: msg.message_type, content: msg.content }]; the prompt labels
    every role other than [user] as the assistant. *)
Definition history_message (row : ChatRow) : HistoryMessage :=
  {| role := match message_type row with mt_user => user | _ => assistant end;
     msg_content := row_content row |}.

Definition socket_options : Options :=
  {| limit := Some 5; threshold := Some (frac 7 10); includeContext := None |}.

Section handler.

Variable cosine_distance : vector → vector → Qc.
Variable embedContent : string → outcome EmbedContentResponse.
Variable generateContent : string → outcome GenerateContentResult.
(** The successive readings of [Date.now()] while one message is handled. *)
Variable Date_now : nat → N.

(** The [case 'message'] branch, for a bound socket and a non-empty
    content.  The state is the one reached when the branch ends or
    throws. *)
Definition handle_text (sessionId websiteId content : string)
    (metadata : option json) (c : Chat) : outcome unit * Chat :=
  match history_create c
          {| session_id := sessionId; row_website_id := websiteId;
             message_type := mt_user; row_content := content;
             row_metadata := metadata_or_empty metadata |} with
  | Throws msg => (Throws msg, c)
  | Returns c1 =>
      let c2 := send {| frame_type := "typing"; frame_content := None;
                        frame_sessionId := Some sessionId;
                        frame_timestamp := Date_now 0;
                        frame_metadata := None |} c1 in
      match getBySessionId c2 sessionId 10 with
      | Throws msg => (Throws msg, c2)
      | Returns history =>
          let chatHistory := history_message <$> drop_last (reverse history) in
          match generateRAGResponse cosine_distance embedContent generateContent
                  (chat_db c2) content websiteId chatHistory socket_options with
          | Throws msg => (Throws msg, c2)
          | Returns ragResponse =>
              match history_create c2
                      {| session_id := sessionId; row_website_id := websiteId;
                         message_type := mt_assistant;
                         row_content := answer ragResponse;
                         row_metadata :=
                           JObj [("sources", JArr (JStr <$> sources ragResponse));
                                 ("context_used",
                                  JNum (N.of_nat (totalSources (context ragResponse))))] |}
              with
              | Throws msg => (Throws msg, c2)
              | Returns c3 =>
                  (Returns (),
                   send {| frame_type := "message";
                           frame_content := Some (answer ragResponse);
                           frame_sessionId := Some sessionId;
                           frame_timestamp := Date_now 1;
                           frame_metadata :=
                             Some (JObj
                               [("sources", JArr (JStr <$> sources ragResponse));
                                ("contextSources",
                                 JNum (N.of_nat (totalSources (context ragResponse))))]) |}
                        c3)
              end
          end
      end
  end.

(** [handleMessage] *)
Definition handleMessage (ws : Socket) (message : Incoming) (c : Chat)
    : outcome unit * Chat :=
  if negb (truthy (ws_sessionId ws)) || negb (truthy (ws_websiteId ws))
  then (Returns (), c)
  else
    let sessionId := default EmptyString (ws_sessionId ws) in
    let websiteId := default EmptyString (ws_websiteId ws) in
    if decide (in_type message = "message") then
      if negb (truthy (in_content message)) then (Returns (), c)
      else handle_text sessionId websiteId
             (default EmptyString (in_content message)) (in_metadata message) c
    else if decide (in_type message = "voice_start") then
      (Returns (),
       send {| frame_type := "voice_start"; frame_content := None;
               frame_sessionId := Some sessionId;
               frame_timestamp := Date_now 0; frame_metadata := None |} c)
    else if decide (in_type message = "voice_end") then
      (Returns (),
       send {| frame_type := "voice_end"; frame_content := None;
               frame_sessionId := Some sessionId;
               frame_timestamp := Date_now 0; frame_metadata := None |} c)
    else (Returns (), c).

(** The [ws.on('message')] listener: parse, handle, and answer any
    failure with an error frame.  [parsed] is the outcome of
    [JSON.parse(data.toString())]. *)
Definition on_message (ws : Socket) (parsed : outcome Incoming) (c : Chat) : Chat :=
  let (result, c') :=
    match parsed with
    | Throws msg => (Throws msg, c)
    | Returns message => handleMessage ws message c
    end in
  match result with
  | Returns _ => c'
  | Throws _ =>
      send {| frame_type := "error";
              frame_content := Some "Failed to process message";
              frame_sessionId := None;
              frame_timestamp := Date_now (length (outbox c') - length (outbox c));
              frame_metadata := None |} c'
  end.

End handler.

End ChatSocket.

(** * Properties *)

(** ** Promises *)

Module JsFacts.

Lemma resolves_not_rejects {A} (o : outcome A) : resolves o → ¬ rejects o.
Proof. intros [a ->] [msg ?]. discriminate. Qed.

Lemma try_catch_resolves {A} (body : outcome A) handler :
  (∀ msg, resolves (handler msg)) → resolves (try_catch body handler).
Proof. intros Hh. destruct body as [a|msg]; simpl; [by exists a | apply Hh]. Qed.

Lemma try_catch_rejects {A} (body : outcome A) handler msg :
  body = Throws msg → try_catch body handler = handler msg.
Proof. by intros ->. Qed.

Lemma try_catch_returns {A} (body : outcome A) handler a :
  body = Returns a → try_catch body handler = Returns a.
Proof. by intros ->. Qed.

Lemma bind_returns {A B} (m : outcome A) (f : A → outcome B) b :
  m ≫= f = Returns b ↔ ∃ a, m = Returns a ∧ f a = Returns b.
Proof.
  split.
  - destruct m as [a|msg]; simpl; [eauto | discriminate].
  - by intros (a & -> & ?).
Qed.

Lemma bind_throws {A B} (m : outcome A) (f : A → outcome B) msg :
  m = Throws msg → m ≫= f = Throws msg.
Proof. by intros ->. Qed.

End JsFacts.

(** ** The document store *)

Module DatabaseFacts.

Import Database.

Section similarity.

Variable cosine_distance : vector → vector → Qc.

#[local] Abbreviation select_row := (select_row cosine_distance).
#[local] Abbreviation ranked := (ranked cosine_distance).
#[local] Abbreviation similaritySearch := (similaritySearch cosine_distance).

Lemma similaritySearch_rows db T v L t rows :
  similaritySearch db T v L t = Returns rows → rows = take L (ranked db T v t).
Proof.
  unfold Database.similaritySearch, query.
  destruct (connect_error db); [discriminate | by intros [= <-]].
Qed.

Lemma select_row_Some T v t d key r :
  select_row T v t d = Some (key, r) →
  row_document r = d ∧ website_id d = T ∧ (t < similarity r)%Qc
  ∧ ∃ e, embedding d = Some e ∧ key = cosine_distance e v
         ∧ similarity r = (1 - key)%Qc.
Proof.
  unfold Database.select_row. destruct (embedding d) as [e|]; simpl; [|done].
  destruct (bool_decide (website_id d = T)) eqn:HT; simpl; [|done].
  destruct (bool_decide (t < 1 - cosine_distance e v)%Qc) eqn:Ht; [|done].
  intros [= <- <-]. simpl.
  apply bool_decide_eq_true in HT, Ht. eauto 10.
Qed.

Lemma elem_of_ranked db T v t r :
  r ∈ ranked db T v t →
  ∃ d key, d ∈ documents db ∧ select_row T v t d = Some (key, r).
Proof.
  unfold Database.ranked. intros ([key r'] & -> & Hin)%list_elem_of_fmap.
  rewrite merge_sort_Permutation in Hin.
  apply list_elem_of_omap in Hin as (d & Hd & Hsel). eauto.
Qed.

(** A stricter threshold selects fewer documents. *)
Lemma select_row_weaken T v t1 t2 d kr :
  (t1 ≤ t2)%Qc → select_row T v t2 d = Some kr → select_row T v t1 d = Some kr.
Proof.
  intros Hle. unfold Database.select_row.
  destruct (embedding d) as [e|]; simpl; [|done].
  destruct (bool_decide (website_id d = T)); simpl; [|done].
  destruct (bool_decide (t2 < _)%Qc) eqn:H2; [|done].
  apply bool_decide_eq_true in H2.
  rewrite bool_decide_eq_true_2; [done|]. by eapply Qcle_lt_trans.
Qed.

Lemma selected_count_antitone T v t1 t2 (docs : list Document) :
  (t1 ≤ t2)%Qc →
  length (omap (select_row T v t2) docs) ≤ length (omap (select_row T v t1) docs).
Proof.
  intros Hle. induction docs as [|d docs IH]; simpl; [done|].
  destruct (select_row T v t2 d) as [kr|] eqn:H2.
  - rewrite (select_row_weaken _ _ _ _ _ _ Hle H2). simpl. apply le_n_S, IH.
  - destruct (select_row T v t1 d); simpl; [apply le_S|]; apply IH.
Qed.

Lemma ranked_length db T v t :
  length (ranked db T v t) = length (omap (select_row T v t) (documents db)).
Proof. unfold Database.ranked. by rewrite length_fmap, merge_sort_Permutation. Qed.

Lemma ranked_count_antitone db T v t1 t2 :
  (t1 ≤ t2)%Qc → length (ranked db T v t2) ≤ length (ranked db T v t1).
Proof. intros. rewrite !ranked_length. by apply selected_count_antitone. Qed.

Lemma similaritySearch_count_antitone db T v L t1 t2 rows1 rows2 :
  (t1 ≤ t2)%Qc →
  similaritySearch db T v L t1 = Returns rows1 →
  similaritySearch db T v L t2 = Returns rows2 →
  length rows2 ≤ length rows1.
Proof.
  intros Hle ->%similaritySearch_rows ->%similaritySearch_rows.
  rewrite !length_take. pose proof (ranked_count_antitone db T v _ _ Hle). lia.
Qed.

(** The two thresholds agree on whether the query fails at all. *)
Lemma similaritySearch_throws_any_threshold db T v L t1 t2 msg :
  similaritySearch db T v L t1 = Throws msg →
  similaritySearch db T v L t2 = Throws msg.
Proof.
  unfold Database.similaritySearch, query. by destruct (connect_error db).
Qed.

(** C1. Tenant isolation of the similarity query: whatever the tenant
    identifier, the query vector, the limit and the threshold, every row
    that [similaritySearch] returns is a stored document whose
    [website_id] is the requested tenant; no chunk of another tenant is
    ever returned. *)
Theorem similaritySearch_tenant_isolation db T v L t rows :
  similaritySearch db T v L t = Returns rows →
  ∀ r, r ∈ rows →
    website_id (row_document r) = T ∧ row_document r ∈ documents db.
Proof.
  intros ->%similaritySearch_rows r Hr.
  apply subseteq_take, elem_of_ranked in Hr as (d & key & Hd & Hsel).
  apply select_row_Some in Hsel as (-> & HT & _). done.
Qed.

End similarity.

(** C1 on a concrete store: a search for tenant [T1] although the store
    also holds a closer chunk of tenant [T2]. *)
Lemma similaritySearch_tenant_isolation_witness :
  ∃ rows,
    similaritySearch Fixtures.coordinate_distance Fixtures.example_db
      "T1" [1%Qc] 5 (frac 7 10) = Returns rows
    ∧ length rows = 2
    ∧ ∀ r, r ∈ rows →
        website_id (row_document r) = "T1"
        ∧ row_document r ∈ documents Fixtures.example_db.
Proof.
  eexists. split; [vm_compute; reflexivity|]. split; [reflexivity|].
  apply (similaritySearch_tenant_isolation Fixtures.coordinate_distance
           Fixtures.example_db "T1" [1%Qc] 5 (frac 7 10)).
  vm_compute. reflexivity.
Defined.

(** The rows come back by descending similarity, above the threshold. *)
Example similaritySearch_orders_by_similarity :
  (λ r, (url (row_document r), similarity r)) <$>
    ranked Fixtures.coordinate_distance Fixtures.example_db "T1" [1%Qc] (frac 7 10)
  = [("https://example.com/about", frac 9 10);
     ("https://example.com/services", frac 4 5)].
Proof. vm_compute. reflexivity. Qed.

Example similaritySearch_threshold_085 :
  (λ r, url (row_document r)) <$>
    ranked Fixtures.coordinate_distance Fixtures.example_db "T1" [1%Qc] (frac 17 20)
  = ["https://example.com/about"].
Proof. vm_compute. reflexivity. Qed.

Example similaritySearch_limit_1 :
  (λ o, match o with Returns rows => length rows | Throws _ => 0 end)
    (similaritySearch Fixtures.coordinate_distance Fixtures.example_db
       "T1" [1%Qc] 1 (frac 7 10)) = 1.
Proof. vm_compute. reflexivity. Qed.

End DatabaseFacts.

(** ** Retrieval and answer composition *)

Module RagFacts.

Import Database Rag JsFacts DatabaseFacts.

Section provider.

Variable cosine_distance : vector → vector → Qc.
Variable embedContent : string → outcome EmbedContentResponse.
Variable generateContent : string → outcome GenerateContentResult.

#[local] Abbreviation similaritySearch := (similaritySearch cosine_distance).
#[local] Abbreviation retrieve_body := (retrieve_body cosine_distance embedContent).
#[local] Abbreviation retrieveRelevantDocuments :=
  (retrieveRelevantDocuments cosine_distance embedContent).
#[local] Abbreviation generateRAGResponse :=
  (generateRAGResponse cosine_distance embedContent generateContent).
#[local] Abbreviation completion := (completion generateContent).
#[local] Abbreviation createEmbedding := (createEmbedding embedContent).
#[local] Abbreviation batch_step := (batch_step embedContent).
#[local] Abbreviation batch_loop := (batch_loop embedContent).
#[local] Abbreviation createEmbeddingsBatch := (createEmbeddingsBatch embedContent).

(** *** Retrieval *)

Lemma retrieve_body_no_embedding db query websiteId L t :
  no_embedding (embedContent query) → rejects (retrieve_body db query websiteId L t).
Proof.
  unfold Rag.retrieve_body, no_embedding.
  destruct (embedContent query) as [result|msg]; simpl; [|by eexists].
  destruct (embedding result) as [e|]; simpl; [|by eexists].
  intros [-> | ->]; by eexists.
Qed.

(** Either the query has no embedding, or the body is the similarity
    search at the embedded query. *)
Lemma retrieve_body_cases db query websiteId :
  no_embedding (embedContent query)
  ∨ ∃ v, v ≠ [] ∧ ∀ (L : nat) (t : Qc),
      retrieve_body db query websiteId L t =
      docs ← similaritySearch db websiteId v L t;
      mret {| documents := docs; totalSources := length docs;
              similarity_threshold := t |}.
Proof.
  unfold Rag.retrieve_body, no_embedding.
  destruct (embedContent query) as [result|msg]; simpl; [|by left].
  destruct (embedding result) as [e|]; simpl; [|by left].
  destruct (values e) as [[|x v]|]; [by left; right | | by left; left].
  right. exists (x :: v). done.
Qed.

Lemma retrieve_resolves db query websiteId options :
  resolves (retrieveRelevantDocuments db query websiteId options).
Proof. apply try_catch_resolves. intros; by eexists. Qed.

Lemma retrieve_consistent db query websiteId options c :
  retrieveRelevantDocuments db query websiteId options = Returns c →
  totalSources c = length (documents c)
  ∧ similarity_threshold c = default (frac 7 10) (threshold options).
Proof.
  unfold Rag.retrieveRelevantDocuments.
  destruct (retrieve_body_cases db query websiteId) as [He|(v & _ & Hv)].
  - apply (retrieve_body_no_embedding db _ websiteId
             (default 5 (limit options))
             (default (frac 7 10) (threshold options))) in He as [msg ->].
    simpl. by intros [= <-].
  - rewrite Hv.
    destruct (similaritySearch _ _ _ _ _) as [docs|msg]; simpl; by intros [= <-].
Qed.

Lemma retrieve_rejected db query websiteId options :
  rejects (retrieve_body db query websiteId
             (default 5 (limit options))
             (default (frac 7 10) (threshold options))) →
  retrieveRelevantDocuments db query websiteId options =
  Returns (empty_context (default (frac 7 10) (threshold options))).
Proof. intros [msg H]. unfold Rag.retrieveRelevantDocuments. by rewrite H. Qed.

(** C2. When the embedding provider throws on the query, or answers with
    an empty (or missing) vector, [retrieveRelevantDocuments] resolves to
    the empty result -- no documents, [totalSources] 0 -- and so never
    rejects, whatever the query, the tenant and the options. *)
Theorem retrieve_without_embedding_is_empty db query websiteId options :
  no_embedding (embedContent query) →
  ∃ c, retrieveRelevantDocuments db query websiteId options = Returns c
       ∧ documents c = [] ∧ totalSources c = 0
       ∧ ¬ rejects (retrieveRelevantDocuments db query websiteId options).
Proof.
  intros He. eexists. split_and!.
  - apply retrieve_rejected, retrieve_body_no_embedding, He.
  - done.
  - done.
  - apply resolves_not_rejects, retrieve_resolves.
Qed.

Lemma retrieve_count_antitone db query websiteId lim inc1 inc2 t1 t2 c1 c2 :
  (t1 ≤ t2)%Qc →
  retrieveRelevantDocuments db query websiteId
    {| limit := lim; threshold := Some t1; includeContext := inc1 |} = Returns c1 →
  retrieveRelevantDocuments db query websiteId
    {| limit := lim; threshold := Some t2; includeContext := inc2 |} = Returns c2 →
  length (documents c2) ≤ length (documents c1).
Proof.
  intros Hle. unfold Rag.retrieveRelevantDocuments. simpl.
  destruct (retrieve_body_cases db query websiteId) as [He|(v & _ & Hv)].
  - pose proof (retrieve_body_no_embedding db _ websiteId (default 5 lim) t1 He)
      as [m1 ->].
    pose proof (retrieve_body_no_embedding db _ websiteId (default 5 lim) t2 He)
      as [m2 ->].
    simpl. by intros [= <-] [= <-].
  - rewrite !Hv.
    destruct (similaritySearch db websiteId v (default 5 lim) t1) as [rows1|m1] eqn:H1.
    + destruct (similaritySearch db websiteId v (default 5 lim) t2) as [rows2|m2] eqn:H2;
        simpl; intros [= <-] [= <-]; simpl; [|lia].
      by eapply similaritySearch_count_antitone.
    + rewrite (similaritySearch_throws_any_threshold _ _ _ _ _ _ t2 _ H1).
      simpl. by intros [= <-] [= <-].
Qed.

(** C4. Against one document store, for every query, tenant and limit,
    retrieval with threshold 0.9 returns at most as many chunks as
    retrieval with threshold 0.5: both calls resolve, and the stricter
    one has the smaller count. *)
Theorem retrieve_threshold_09_at_most_05 db query websiteId lim inc :
  ∃ c9 c5,
    retrieveRelevantDocuments db query websiteId
      {| limit := lim; threshold := Some (frac 9 10); includeContext := inc |}
      = Returns c9
    ∧ retrieveRelevantDocuments db query websiteId
      {| limit := lim; threshold := Some (frac 1 2); includeContext := inc |}
      = Returns c5
    ∧ length (documents c9) ≤ length (documents c5)
    ∧ totalSources c9 ≤ totalSources c5.
Proof.
  destruct (retrieve_resolves db query websiteId
    {| limit := lim; threshold := Some (frac 9 10); includeContext := inc |})
    as [c9 H9].
  destruct (retrieve_resolves db query websiteId
    {| limit := lim; threshold := Some (frac 1 2); includeContext := inc |})
    as [c5 H5].
  exists c9, c5. split_and!; [done..| |].
  - eapply (retrieve_count_antitone _ _ _ _ _ _ (frac 1 2) (frac 9 10)); [|done..].
    by vm_compute.
  - apply retrieve_consistent in H9 as Hc9. apply retrieve_consistent in H5 as Hc5.
    destruct Hc9 as [-> _], Hc5 as [-> _].
    eapply (retrieve_count_antitone _ _ _ _ _ _ (frac 1 2) (frac 9 10)); [|done..].
    by vm_compute.
Qed.

(** *** Answer composition *)

Lemma set_from_nil seen : set_from seen [] = [].
Proof. done. Qed.

(** C3 (amended). [generateRAGResponse] always resolves.  When the
    completion call fails the result is the fixed fallback answer with no
    sources and a zeroed context.  When retrieval fails the error is
    absorbed by the retriever: the sources are empty, the context holds
    no documents and counts 0 sources, and the answer is still the
    completion provider's reply to the context-free prompt whenever that
    call succeeds. *)
Theorem generateRAGResponse_never_rejects db query websiteId chatHistory options :
  ∃ ctx r,
    retrieveRelevantDocuments db query websiteId options = Returns ctx
    ∧ generateRAGResponse db query websiteId chatHistory options = Returns r
    ∧ ¬ rejects (generateRAGResponse db query websiteId chatHistory options)
    ∧ (rejects (completion (prompt query ctx chatHistory)) → r = fallback_response)
    ∧ (rejects (retrieve_body db query websiteId
                  (default 5 (limit options))
                  (default (frac 7 10) (threshold options))) →
       sources r = [] ∧ documents (context r) = [] ∧ totalSources (context r) = 0)
    ∧ (∀ reply, completion (prompt query ctx chatHistory) = Returns reply →
       answer r = reply).
Proof.
  destruct (retrieve_resolves db query websiteId options) as [ctx Hctx].
  exists ctx. unfold Rag.generateRAGResponse. rewrite Hctx. simpl.
  destruct (completion (prompt query ctx chatHistory)) as [reply|msg] eqn:Hc; simpl.
  - eexists. split_and!; [done..| | | |].
    + intros [m ?]. discriminate.
    + intros [m ?]. discriminate.
    + intros Hrej. apply retrieve_rejected in Hrej.
      rewrite Hrej in Hctx. injection Hctx as <-. simpl.
      by destruct (default true (includeContext options)).
    + by intros ? [= <-].
  - eexists. split_and!; [done..| | | |].
    + intros [m ?]. discriminate.
    + done.
    + done.
    + intros ? [=].
Qed.

(** *** Embeddings *)

Lemma createEmbedding_resolves text : resolves (createEmbedding text).
Proof. apply try_catch_resolves. intros; by eexists. Qed.

Lemma createEmbedding_provider_failure text :
  rejects (embedContent text) → createEmbedding text = Returns [].
Proof. intros [msg H]. unfold Rag.createEmbedding. by rewrite H. Qed.

Lemma Promise_all_createEmbedding (batch : list string) :
  ∃ vs, Promise_all (createEmbedding <$> batch) = Returns vs
        ∧ Forall2 (λ text v, createEmbedding text = Returns v) batch vs.
Proof.
  induction batch as [|text batch (vs & Hvs & Hall)].
  - exists []. by split.
  - destruct (createEmbedding_resolves text) as [v Hv].
    exists (v :: vs). rewrite fmap_cons. cbn [Promise_all].
    rewrite Hv. simpl. rewrite Hvs. simpl.
    split; [done|]. by constructor.
Qed.

Lemma well_batched_cons b batches :
  length b = batchSize → well_batched batches → well_batched (b :: batches).
Proof.
  intros Hb [Hall Hfull]. split.
  - constructor; [unfold batchSize in *; lia | done].
  - intros [|j] b' Hj Hlt; simpl in *.
    + by injection Hj as <-.
    + apply (Hfull j); [done | lia].
Qed.

Lemma well_batched_singleton b :
  0 < length b ≤ batchSize → well_batched [b].
Proof.
  intros Hb. split; [constructor; [done | constructor]|].
  intros [|j] b' Hj Hlt; simpl in *; lia.
Qed.

Lemma batch_loop_spec fuel texts i st :
  length texts - i < fuel →
  ∃ vs batches,
    batch_loop fuel texts i st =
      Some (Returns {| embeddings := embeddings st ++ vs;
                       log := log st ++ paced batches |})
    ∧ Forall2 (λ text v, createEmbedding text = Returns v) (drop i texts) vs
    ∧ mjoin batches = drop i texts
    ∧ well_batched batches.
Proof.
  revert i st. induction fuel as [|fuel IH]; intros i st Hfuel; [lia|].
  simpl. destruct (decide (i < length texts)) as [Hi|Hi].
  - unfold Rag.batch_step.
    destruct (Promise_all_createEmbedding (take batchSize (drop i texts)))
      as (vs & -> & Hvs).
    simpl.
    assert (Hsplit : drop i texts =
                     take batchSize (drop i texts) ++ drop (i + batchSize) texts).
    { by rewrite <-drop_drop, take_drop. }
    destruct (decide (i + batchSize < length texts)) as [Hmore|Hlast];
      cbv [mret outcome_ret].
    + destruct (IH (i + batchSize)
                  {| embeddings := (embeddings st ++ vs);
                     log := (log st ++ [Batch (take batchSize (drop i texts))])
                            ++ [Sleep 100] |})
        as (vs' & batches' & -> & Hvs' & Hjoin & Hwb).
      { unfold batchSize in *. lia. }
      exists (vs ++ vs'), (take batchSize (drop i texts) :: batches').
      simpl. split_and!.
      * destruct batches' as [|b' rest].
        { simpl in Hjoin. symmetry in Hjoin. apply drop_nil_inv in Hjoin. lia. }
        by rewrite <-!(assoc_L (++)).
      * rewrite Hsplit at 1. by apply Forall2_app.
      * by rewrite Hjoin.
      * apply well_batched_cons; [|done].
        rewrite length_take, length_drop. unfold batchSize in *. lia.
    + exists vs, [take batchSize (drop i texts)].
      assert (Hend : drop (i + batchSize) texts = []) by (apply drop_ge; lia).
      rewrite Hend, app_nil_r in Hsplit.
      destruct fuel as [|fuel]; [lia|]. simpl.
      rewrite decide_False by lia. split_and!.
      * done.
      * by rewrite Hsplit at 1.
      * simpl. by rewrite app_nil_r.
      * apply well_batched_singleton.
        rewrite length_take, length_drop. unfold batchSize in *. lia.
  - exists [], []. rewrite !app_nil_r. destruct st. simpl. split_and!.
    + done.
    + rewrite drop_ge by lia. constructor.
    + rewrite drop_ge by lia. done.
    + split; [constructor|]. intros j b. by rewrite lookup_nil.
Qed.

(** C7. Batch embedding.  For every list of texts the loop terminates
    and resolves; it hands the texts to the provider in consecutive
    sub-batches of [batchSize] = 5 (only the last may be shorter) with a
    100 ms pause between one sub-batch and the next; the result holds one
    vector per input text, each at the position of its text; and a text
    on which the provider fails gets the empty vector at its position
    while the rest of the batch is still embedded. *)
Theorem createEmbeddingsBatch_aligned (texts : list string) :
  ∃ vs batches,
    createEmbeddingsBatch texts =
      Some (Returns {| embeddings := vs; log := paced batches |})
    ∧ length vs = length texts
    ∧ (∀ i text, texts !! i = Some text →
         ∃ v, vs !! i = Some v ∧ createEmbedding text = Returns v
              ∧ (rejects (embedContent text) → v = []))
    ∧ mjoin batches = texts
    ∧ well_batched batches.
Proof.
  destruct (batch_loop_spec (S (length texts)) texts 0
              {| embeddings := []; log := [] |})
    as (vs & batches & Hrun & Hvs & Hjoin & Hwb); [lia|].
  simpl in Hrun, Hvs, Hjoin.
  exists vs, batches. split_and!; [done| | |done..].
  - symmetry. by eapply Forall2_length.
  - intros i text Hi.
    destruct (Forall2_lookup_l _ _ _ _ _ Hvs Hi) as (v & Hv & Hcreate).
    exists v. split_and!; [done..|].
    intros Hrej. apply createEmbedding_provider_failure in Hrej. congruence.
Qed.

End provider.

(** C3, as stated, fails: with an embedding provider that throws and a
    chat model that answers, retrieval fails and yet the answer is the
    chat model's reply, not the fallback string. *)
Lemma retrieval_failure_keeps_model_answer :
  rejects (retrieve_body Fixtures.coordinate_distance Fixtures.failing_embedder
             Fixtures.example_db "hi" "T1" 5 (frac 7 10))
  ∧ ∃ r, generateRAGResponse Fixtures.coordinate_distance
           Fixtures.failing_embedder Fixtures.hello_model
           Fixtures.example_db "hi" "T1" [] Rag.no_options = Returns r
         ∧ answer r = "Hello"
         ∧ answer r ≠ fallback_answer.
Proof.
  split; [by eexists|].
  eexists. split_and!; [reflexivity | reflexivity | discriminate].
Qed.

(** C2 on a concrete provider: the embedder that always throws. *)
Lemma retrieve_without_embedding_is_empty_witness :
  ∃ c, retrieveRelevantDocuments Fixtures.coordinate_distance
         Fixtures.failing_embedder Fixtures.example_db "hi" "T1" Rag.no_options
       = Returns c
       ∧ documents c = [] ∧ totalSources c = 0
       ∧ ¬ rejects (retrieveRelevantDocuments Fixtures.coordinate_distance
                      Fixtures.failing_embedder Fixtures.example_db "hi" "T1"
                      Rag.no_options).
Proof.
  apply (retrieve_without_embedding_is_empty Fixtures.coordinate_distance
           Fixtures.failing_embedder Fixtures.example_db "hi" "T1" Rag.no_options).
  exact I.
Defined.

(** On the example store the thresholds 0.9 and 0.5 give 0 and 2 chunks. *)
Example retrieve_thresholds_on_example_db :
  (λ o, match o with Returns c => totalSources c | Throws _ => 0 end) <$>
    [retrieveRelevantDocuments Fixtures.coordinate_distance Fixtures.unit_embedder
       Fixtures.example_db "services" "T1"
       {| limit := Some 5; threshold := Some (frac 9 10); includeContext := None |};
     retrieveRelevantDocuments Fixtures.coordinate_distance Fixtures.unit_embedder
       Fixtures.example_db "services" "T1"
       {| limit := Some 5; threshold := Some (frac 1 2); includeContext := None |}]
  = [0; 2].
Proof. vm_compute. reflexivity. Qed.

(** Seven texts, one of which the provider refuses: two sub-batches with
    one pause, seven vectors, the refused text at its own position. *)
Example createEmbeddingsBatch_seven_texts :
  createEmbeddingsBatch Fixtures.unit_embedder
    ["a"; "b"; "bad"; "d"; "e"; "f"; "g"] =
  Some (Returns
    {| embeddings := [[1%Qc]; [1%Qc]; []; [1%Qc]; [1%Qc]; [1%Qc]; [1%Qc]];
       log := [Batch ["a"; "b"; "bad"; "d"; "e"]; Sleep 100; Batch ["f"; "g"]] |}).
Proof. vm_compute. reflexivity. Qed.

End RagFacts.

(** ** The crawler *)

Module CrawlerFacts.

Import Database Crawler.

Lemma filter_all {A} (P : A → Prop) `{!∀ x, Decision (P x)} (l : list A) :
  Forall P l → filter P l = l.
Proof.
  induction 1 as [|x l Hx _ IH]; [done|].
  by rewrite filter_cons, decide_True, IH.
Qed.

Lemma filter_none {A} (P : A → Prop) `{!∀ x, Decision (P x)} (l : list A) :
  Forall (λ x, ¬ P x) l → filter P l = [].
Proof.
  induction 1 as [|x l Hx _ IH]; [done|].
  by rewrite filter_cons, decide_False, IH.
Qed.

Section crawler.

Variable website : Website.
Variable opts : Settings.
Variable goto : string → outcome Page.
Variable splitText : string → list string.
Variable hostname : string → option string.
Variable timestamp : string.

#[local] Abbreviation crawlUrl :=
  (crawlUrl website opts goto splitText hostname timestamp).
#[local] Abbreviation crawl_pages :=
  (crawl_pages website opts goto splitText hostname timestamp).
#[local] Abbreviation page_documents :=
  (page_documents website splitText timestamp).
#[local] Abbreviation internalLinks := (internalLinks website hostname).
#[local] Abbreviation isInternalLink := (isInternalLink website hostname).
#[local] Abbreviation delay := (delay opts).
#[local] Abbreviation follow :=
  (follow website opts goto splitText hostname timestamp).
#[local] Abbreviation followed_from := (followed_from website goto hostname).
#[local] Abbreviation fetched_documents :=
  (Reachability.fetched_documents website goto splitText timestamp).

Lemma follow_None fuel depth links :
  foldl (follow fuel depth) None links = None.
Proof. by induction links. Qed.

Lemma crawlUrl_unfold fuel url depth st :
  crawlUrl (S fuel) url depth st =
  if bool_decide (s_maxDepth opts < depth)
     || bool_decide (s_maxPages opts ≤ length (visitedUrls st))
     || bool_decide (url ∈ visitedUrls st)
  then Some st
  else if negb (shouldCrawlUrl opts url) then Some st
  else
    match goto url with
    | Throws msg => Some (record_error url msg (visit url st))
    | Returns page =>
        let st1 := push_documents (page_documents url page) (visit url st) in
        if bool_decide (depth < s_maxDepth opts) then
          match page_links page with
          | Throws msg => Some (record_error url msg st1)
          | Returns links =>
              foldl (follow fuel depth) (Some st1) (internalLinks links)
          end
        else Some st1
    end.
Proof. done. Qed.

(** What the guard of [crawlUrl] has established when a URL is visited. *)
Lemma guard_passed url depth st :
  bool_decide (s_maxDepth opts < depth)
  || bool_decide (s_maxPages opts ≤ length (visitedUrls st))
  || bool_decide (url ∈ visitedUrls st) = false →
  depth ≤ s_maxDepth opts
  ∧ length (visitedUrls st) < s_maxPages opts
  ∧ url ∉ visitedUrls st.
Proof.
  rewrite !orb_false_iff, !bool_decide_eq_false. intros [[? ?] ?].
  split_and!; [lia | lia | done].
Qed.

(** A relation between the state before and after that every primitive
    step of the traversal respects is respected by the traversal. *)
Lemma crawlUrl_preserves (R : CrawlerState → CrawlerState → Prop) :
  (∀ st, R st st) →
  (∀ a b c, R a b → R b c → R a c) →
  (∀ url st, length (visitedUrls st) < s_maxPages opts →
             url ∉ visitedUrls st → R st (visit url st)) →
  (∀ docs st, R st (push_documents docs st)) →
  (∀ url msg st, R st (record_error url msg st)) →
  (∀ st, R st (delay st)) →
  ∀ fuel url depth st st',
    crawlUrl fuel url depth st = Some st' → R st st'.
Proof.
  intros Hrefl Htrans Hvisit Hpush Herr Hdelay.
  induction fuel as [|fuel IH]; intros url depth st st'; [done|].
  rewrite crawlUrl_unfold.
  destruct (_ || _ || _) eqn:Hguard; [by intros [= <-]|].
  apply guard_passed in Hguard as (_ & Hsize & Hnew).
  destruct (negb _); [by intros [= <-]|].
  pose proof (Hvisit url st Hsize Hnew) as Hv.
  destruct (goto url) as [page|msg]; [|intros [= <-]; eauto].
  simpl.
  assert (R st (push_documents (page_documents url page) (visit url st))) as H1
    by eauto.
  destruct (bool_decide (depth < s_maxDepth opts)); [|intros [= <-]; eauto].
  destruct (page_links page) as [links|msg]; [|intros [= <-]; eauto].
  revert H1. generalize (push_documents (page_documents url page) (visit url st)).
  induction (internalLinks links) as [|link rest IHl]; intros st1 H1; simpl.
  - by intros [= <-].
  - destruct (crawlUrl fuel link (depth + 1) (delay st1)) as [st2|] eqn:Hcall.
    + apply IHl. apply IH in Hcall. eauto.
    + by rewrite follow_None.
Qed.

Lemma crawlUrl_visited_prefix fuel url depth st st' :
  crawlUrl fuel url depth st = Some st' →
  visitedUrls st `prefix_of` visitedUrls st'.
Proof.
  apply (crawlUrl_preserves (λ a b, visitedUrls a `prefix_of` visitedUrls b));
    try done.
  - intros a b c ??. by etrans.
  - intros. by apply prefix_app_r.
Qed.

Lemma crawlUrl_visited_bound fuel url depth st st' :
  crawlUrl fuel url depth st = Some st' →
  length (visitedUrls st) ≤ s_maxPages opts →
  length (visitedUrls st') ≤ s_maxPages opts.
Proof.
  apply (crawlUrl_preserves
           (λ a b, length (visitedUrls a) ≤ s_maxPages opts →
                   length (visitedUrls b) ≤ s_maxPages opts)); try done.
  - eauto.
  - intros u a Hlt _ _. simpl. rewrite length_app. simpl. lia.
Qed.

Lemma crawlUrl_visited_NoDup fuel url depth st st' :
  crawlUrl fuel url depth st = Some st' →
  NoDup (visitedUrls st) → NoDup (visitedUrls st').
Proof.
  apply (crawlUrl_preserves
           (λ a b, NoDup (visitedUrls a) → NoDup (visitedUrls b))); try done.
  - eauto.
  - intros u a _ Hnew Hnd. simpl. apply NoDup_app. split_and!; [done| |].
    + intros x Hx ->%list_elem_of_singleton. done.
    + apply NoDup_singleton.
Qed.

(** The traversal terminates: one unit of fuel per level of depth that is
    left, plus one, is enough. *)
Lemma crawlUrl_terminates fuel url depth st :
  s_maxDepth opts - depth < fuel → is_Some (crawlUrl fuel url depth st).
Proof.
  revert url depth st. induction fuel as [|fuel IH]; intros url depth st Hfuel;
    [lia|].
  rewrite crawlUrl_unfold.
  destruct (_ || _ || _); [done|].
  destruct (negb _); [done|].
  destruct (goto url) as [page|msg]; [|done]. simpl.
  destruct (bool_decide (depth < s_maxDepth opts)) eqn:Hd; [|done].
  apply bool_decide_eq_true in Hd.
  destruct (page_links page) as [links|msg]; [|done].
  generalize (push_documents (page_documents url page) (visit url st)).
  induction (internalLinks links) as [|link rest IHl]; intros st1; simpl; [done|].
  destruct (IH link (depth + 1) (delay st1)) as [st2 ->]; [lia|].
  apply IHl.
Qed.

(** The result does not depend on the fuel, once there is enough of it. *)
Lemma crawlUrl_fuel_mono fuel fuel' url depth st st' :
  crawlUrl fuel url depth st = Some st' → fuel ≤ fuel' →
  crawlUrl fuel' url depth st = Some st'.
Proof.
  revert fuel' url depth st st'.
  induction fuel as [|fuel IH]; intros fuel' url depth st st'; [done|].
  intros Hrun Hle. destruct fuel' as [|fuel']; [lia|].
  revert Hrun. rewrite !crawlUrl_unfold.
  destruct (_ || _ || _); [done|].
  destruct (negb _); [done|].
  destruct (goto url) as [page|msg]; [|done]. simpl.
  destruct (bool_decide (depth < s_maxDepth opts)); [|done].
  destruct (page_links page) as [links|msg]; [|done].
  generalize (push_documents (page_documents url page) (visit url st)).
  induction (internalLinks links) as [|link rest IHl]; intros st1; simpl; [done|].
  destruct (crawlUrl fuel link (depth + 1) (delay st1)) as [st2|] eqn:Hcall;
    [|by rewrite follow_None].
  rewrite (IH fuel' _ _ _ _ Hcall) by lia. apply IHl.
Qed.

(** C6. The page cap.  For every crawl configuration with [maxPages] = N
    the traversal started by [crawl] terminates, and at every point of it
    the set of visited URLs -- each intermediate value of the
    insertion-ordered set is an initial segment of the final one -- has
    at most N distinct elements. *)
Theorem crawl_visits_at_most_maxPages :
  ∃ st, crawl_pages (S (s_maxDepth opts)) = Some st
        ∧ NoDup (visitedUrls st)
        ∧ ∀ visited, visited `prefix_of` visitedUrls st →
            length visited ≤ s_maxPages opts.
Proof.
  destruct (crawlUrl_terminates (S (s_maxDepth opts)) (domain website) 0
              new_crawler) as [st Hst]; [lia|].
  exists st. split_and!; [done| |].
  - eapply crawlUrl_visited_NoDup; [done | constructor].
  - intros visited Hpre%prefix_length.
    eapply crawlUrl_visited_bound in Hst; simpl in *; lia.
Qed.

(** *** Pages and chunks *)

(** What one page contributes: nothing up to 100 characters of cleaned
    text, one document per chunk of the splitter beyond. *)
Lemma page_documents_cases url page :
  (String.length (clean (extract page)) ≤ 100 → page_documents url page = [])
  ∧ (100 < String.length (clean (extract page)) →
     page_documents url page =
     imap (chunk_document website timestamp url (page_title page)
             (length (splitText (clean (extract page)))))
          (splitText (clean (extract page)))).
Proof.
  unfold Crawler.page_documents. split; intros Hlen.
  - by rewrite decide_False by lia.
  - by rewrite decide_True by lia.
Qed.

(** As [crawlUrl_preserves], with the visit of a URL taken together with
    what follows it at once: the error entry when the navigation throws,
    the documents of the page when it loads. *)
Lemma crawlUrl_pages (R : CrawlerState → CrawlerState → Prop) :
  (∀ st, R st st) →
  (∀ a b c, R a b → R b c → R a c) →
  (∀ url msg st, length (visitedUrls st) < s_maxPages opts →
                 url ∉ visitedUrls st → shouldCrawlUrl opts url = true →
                 goto url = Throws msg →
                 R st (record_error url msg (visit url st))) →
  (∀ url page st, length (visitedUrls st) < s_maxPages opts →
                  url ∉ visitedUrls st → shouldCrawlUrl opts url = true →
                  goto url = Returns page →
                  R st (push_documents (page_documents url page) (visit url st))) →
  (∀ url page msg st, url ∈ visitedUrls st → goto url = Returns page →
                      page_links page = Throws msg →
                      R st (record_error url msg st)) →
  (∀ st, R st (delay st)) →
  ∀ fuel url depth st st',
    crawlUrl fuel url depth st = Some st' → R st st'.
Proof.
  intros Hrefl Htrans Hfail Hload Hlinks Hdelay.
  induction fuel as [|fuel IH]; intros url depth st st'; [done|].
  rewrite crawlUrl_unfold.
  destruct (_ || _ || _) eqn:Hguard; [by intros [= <-]|].
  apply guard_passed in Hguard as (_ & Hsize & Hnew).
  destruct (shouldCrawlUrl opts url) eqn:Hshould; simpl; [|by intros [= <-]].
  destruct (goto url) as [page|msg] eqn:Hgoto.
  2:{ intros [= <-]. by apply Hfail. }
  simpl.
  pose proof (Hload url page st Hsize Hnew Hshould Hgoto) as H1.
  assert (url ∈ visitedUrls
            (push_documents (page_documents url page) (visit url st))) as Hin.
  { simpl. apply elem_of_app. right. by apply list_elem_of_singleton. }
  destruct (bool_decide (depth < s_maxDepth opts)); [|by intros [= <-]].
  destruct (page_links page) as [links|msg] eqn:Hl.
  2:{ intros [= <-]. eapply Htrans; [exact H1|]. by eapply Hlinks. }
  clear Hin. revert H1.
  generalize (push_documents (page_documents url page) (visit url st)).
  induction (internalLinks links) as [|link rest IHl]; intros st1 H1; simpl.
  - by intros [= <-].
  - destruct (crawlUrl fuel link (depth + 1) (delay st1)) as [st2|] eqn:Hcall.
    + apply IHl. apply IH in Hcall. eauto.
    + by rewrite follow_None.
Qed.

(** The pending documents are those of the visited pages, in the order
    of the visits. *)
Lemma crawlUrl_pending fuel url depth st st' :
  crawlUrl fuel url depth st = Some st' →
  ∃ new, visitedUrls st' = visitedUrls st ++ new
         ∧ documentsToCreate st' =
           documentsToCreate st ++ mjoin (fetched_documents <$> new).
Proof.
  apply (crawlUrl_pages
           (λ a b, ∃ new, visitedUrls b = visitedUrls a ++ new
                          ∧ documentsToCreate b =
                            documentsToCreate a ++ mjoin (fetched_documents <$> new))).
  - intros a. exists []. by rewrite !app_nil_r.
  - intros a b c (n1 & Hv1 & Hd1) (n2 & Hv2 & Hd2). exists (n1 ++ n2).
    rewrite Hv2, Hv1, Hd2, Hd1, fmap_app, join_app, <-!(assoc_L (++)). done.
  - intros u msg a _ _ _ Hgoto. exists [u]. simpl.
    unfold Reachability.fetched_documents. rewrite Hgoto. simpl.
    by rewrite app_nil_r.
  - intros u page a _ _ _ Hgoto. exists [u]. simpl.
    unfold Reachability.fetched_documents. rewrite Hgoto.
    by rewrite app_nil_r.
  - intros u page msg a _ _ _. exists []. simpl. by rewrite !app_nil_r.
  - intros a. exists []. simpl. by rewrite !app_nil_r.
Qed.

Lemma page_documents_url u page doc :
  doc ∈ page_documents u page → Database.url doc = u.
Proof.
  unfold Crawler.page_documents.
  destruct (decide _); [|by intros ?%elem_of_nil].
  by intros (i & chunk & -> & _)%elem_of_lookup_imap.
Qed.

Lemma fetched_documents_url u doc :
  doc ∈ fetched_documents u → Database.url doc = u.
Proof.
  unfold Reachability.fetched_documents.
  destruct (goto u) as [page|msg]; [|by intros ?%elem_of_nil].
  apply page_documents_url.
Qed.

Lemma fetched_documents_elsewhere u (l : list string) :
  u ∉ l →
  filter (λ doc, Database.url doc = u) (mjoin (fetched_documents <$> l)) = [].
Proof.
  intros Hu. apply filter_none, Forall_forall. intros doc Hdoc Hurl.
  apply list_elem_of_join in Hdoc as (docs & Hdoc & Hdocs).
  apply list_elem_of_fmap in Hdocs as (v & -> & Hv).
  apply fetched_documents_url in Hdoc. congruence.
Qed.

(** The pending documents of one visited page. *)
Lemma fetched_documents_of u (l : list string) :
  NoDup l → u ∈ l →
  filter (λ doc, Database.url doc = u) (mjoin (fetched_documents <$> l))
  = fetched_documents u.
Proof.
  induction 1 as [|v l Hv Hnd IH]; [by intros ?%elem_of_nil|].
  rewrite fmap_cons.
  change (mjoin (fetched_documents v :: (fetched_documents <$> l)))
    with (fetched_documents v ++ mjoin (fetched_documents <$> l)).
  rewrite filter_app.
  intros [->|Hu]%elem_of_cons.
  - rewrite (fetched_documents_elsewhere _ _ Hv), app_nil_r.
    apply filter_all, Forall_forall. intros doc. apply fetched_documents_url.
  - rewrite IH by done. rewrite filter_none; [done|].
    apply Forall_forall. intros doc Hdoc%fetched_documents_url Hurl.
    congruence.
Qed.


(** A page that loads and whose links are not followed leaves exactly its
    documents behind. *)
Lemma crawlUrl_leaf fuel url st page :
  length (visitedUrls st) < s_maxPages opts →
  url ∉ visitedUrls st →
  shouldCrawlUrl opts url = true →
  goto url = Returns page →
  crawlUrl (S fuel) url (s_maxDepth opts) st =
  Some (push_documents (page_documents url page) (visit url st)).
Proof.
  intros Hsize Hnew Hshould Hgoto. rewrite crawlUrl_unfold.
  rewrite !bool_decide_eq_false_2 by (done || lia). simpl.
  by rewrite Hshould, Hgoto.
Qed.

(** *** Links *)

Lemma internalLinks_spec links :
  internalLinks links = take 10 (filter (λ link, isInternalLink link = true) links)
  ∧ length (internalLinks links) ≤ 10
  ∧ ∀ link, link ∈ internalLinks links → link ∈ links ∧ isInternalLink link = true.
Proof.
  unfold Crawler.internalLinks. split_and!; [done | | ].
  - rewrite length_take. lia.
  - intros link Hin%subseteq_take. by apply list_elem_of_filter in Hin as [? ?].
Qed.

(** Every URL that a call to [crawlUrl] adds to the visited set is the
    URL of the call itself or one of the links followed from a visited
    page. *)
Lemma crawlUrl_visited_origin fuel url depth st st' :
  crawlUrl fuel url depth st = Some st' →
  ∀ v, v ∈ visitedUrls st' →
    v ∈ visitedUrls st ∨ v = url
    ∨ ∃ u, u ∈ visitedUrls st' ∧ followed_from u v.
Proof.
  revert url depth st st'.
  induction fuel as [|fuel IH]; intros url depth st st'; [done|].
  rewrite crawlUrl_unfold.
  destruct (_ || _ || _); [intros [= <-]; auto|].
  destruct (negb _); [intros [= <-]; auto|].
  assert (Hbase : ∀ docs v,
    v ∈ visitedUrls (push_documents docs (visit url st)) →
    v ∈ visitedUrls st ∨ v = url).
  { intros docs v. simpl. rewrite elem_of_app, list_elem_of_singleton. tauto. }
  destruct (goto url) as [page|msg] eqn:Hgoto.
  2:{ intros [= <-] v Hv. simpl in Hv.
      apply elem_of_app in Hv as [?| ->%list_elem_of_singleton]; auto. }
  simpl.
  destruct (bool_decide (depth < s_maxDepth opts)).
  2:{ intros [= <-] v Hv. apply Hbase in Hv. tauto. }
  destruct (page_links page) as [links|msg] eqn:Hlinks.
  2:{ intros [= <-] v Hv. apply (Hbase (page_documents url page)) in Hv. tauto. }
  pose (Q := λ s : CrawlerState,
    url ∈ visitedUrls s
    ∧ ∀ v, v ∈ visitedUrls s →
        v ∈ visitedUrls st ∨ v = url
        ∨ ∃ u, u ∈ visitedUrls s ∧ followed_from u v).
  assert (Q (push_documents (page_documents url page) (visit url st))) as HQ.
  { split.
    - simpl. apply elem_of_app. right. by apply list_elem_of_singleton.
    - intros v Hv. apply Hbase in Hv. tauto. }
  assert (Hsub : ∀ link, link ∈ internalLinks links →
                         link ∈ internalLinks links) by done.
  revert HQ Hsub.
  generalize (push_documents (page_documents url page) (visit url st)).
  generalize (internalLinks links) at 1 3.
  induction l as [|link rest IHl]; intros st1 HQ Hsub; simpl.
  - intros [= <-]. apply HQ.
  - destruct (crawlUrl fuel link (depth + 1) (delay st1)) as [st2|] eqn:Hcall;
      [|by rewrite follow_None].
    apply IHl.
    + pose proof (crawlUrl_visited_prefix _ _ _ _ _ Hcall) as [k Hk].
      simpl in Hk. destruct HQ as [Hurl HQ]. split.
      * rewrite Hk. apply elem_of_app. by left.
      * intros v Hv. apply (IH _ _ _ _ Hcall) in Hv as [Hv | [-> | (u & Hu & Hf)]].
        -- simpl in Hv. apply HQ in Hv as [?|[?|(u & Hu & Hf)]]; [by left | by right; left |].
           right; right. exists u. split; [|done].
           rewrite Hk. apply elem_of_app. by left.
        -- right; right. exists url. split.
           ++ rewrite Hk. apply elem_of_app. by left.
           ++ exists page, links. split_and!; [done..|].
              apply Hsub. by left.
        -- right; right. by exists u.
    + intros l' Hl'. apply Hsub. by right.
Qed.

(** C10. The per-page link limit.  From a page the crawler follows the
    first ten same-host links and no others: the followed links are the
    first ten of the page's same-host links, and in a whole crawl every
    visited URL other than the start URL is one of the first ten
    same-host links of some visited page, whatever [maxPages] and
    [maxDepth] allow. *)
Theorem crawl_follows_first_ten_links :
  (∀ links, length (internalLinks links) ≤ 10)
  ∧ ∃ st, crawl_pages (S (s_maxDepth opts)) = Some st
      ∧ ∀ v, v ∈ visitedUrls st →
          v = domain website
          ∨ ∃ u page links,
              u ∈ visitedUrls st
              ∧ goto u = Returns page
              ∧ page_links page = Returns links
              ∧ v ∈ take 10 (filter (λ link, isInternalLink link = true) links).
Proof.
  split; [intros links; apply internalLinks_spec|].
  destruct (crawlUrl_terminates (S (s_maxDepth opts)) (domain website) 0
              new_crawler) as [st Hst]; [lia|].
  exists st. split; [done|].
  intros v Hv.
  apply (crawlUrl_visited_origin _ _ _ _ _ Hst) in Hv
    as [Hv | [-> | (u & Hu & page & links & Hg & Hl & Hin)]].
  - simpl in Hv. by apply elem_of_nil in Hv.
  - by left.
  - right. by exists u, page, links.
Qed.

End crawler.

(** *** startCrawl *)

Lemma findByApiKey_Some d apiKey website :
  findByApiKey d apiKey = Returns (Some website) →
  website ∈ websites d ∧ api_key website = apiKey ∧ is_active website = true.
Proof.
  unfold findByApiKey, queryOne, query.
  destruct (connect_error d); [done|]. simpl.
  destruct (filter _ (websites d)) as [|w0 rest] eqn:Hf; [done|].
  intros [= ->].
  assert (website ∈ filter (λ w, api_key w = apiKey ∧ is_active w = true)
                      (websites d)) as Hin by (rewrite Hf; left).
  apply list_elem_of_filter in Hin as [[? ?] ?]. done.
Qed.

Lemma findByApiKey_found d apiKey website :
  connect_error d = None →
  website ∈ websites d → api_key website = apiKey → is_active website = true →
  ∃ w0, findByApiKey d apiKey = Returns (Some w0).
Proof.
  intros Hconn Hin Hkey Hactive. unfold findByApiKey, queryOne, query.
  rewrite Hconn. simpl.
  destruct (filter _ (websites d)) as [|w0 rest] eqn:Hf; [|by eexists].
  assert (website ∈ filter (λ w, api_key w = apiKey ∧ is_active w = true)
                      (websites d)) as Hw by (by apply list_elem_of_filter).
  rewrite Hf in Hw. by apply elem_of_nil in Hw.
Qed.

Lemma startCrawl_resolved_crawling w now websiteId options website :
  findByApiKey (db w) websiteId = Returns (Some website) →
  crawl_status website = crawling →
  startCrawl w now websiteId options =
  ({| start_success := false;
      start_message := "Website is already being crawled";
      jobId := None |}, w).
Proof.
  intros Hfind Hstatus. unfold startCrawl. rewrite Hfind.
  by rewrite decide_True by done.
Qed.

(** C5. Take a tenant whose [crawl_status] is [crawling] and a
    [startCrawl] request that names it (by its API key, which the schema
    keeps unique).  The request answers [success: false] with a
    descriptive message -- that the website is already being crawled,
    whenever the tenant can be looked up -- and leaves the world as it
    was: no timer is registered, so no second crawl is started; the
    running crawlers keep their [visitedUrls]; the database is not
    written. *)
Theorem startCrawl_rejects_when_crawling w now websiteId options website :
  website ∈ websites (db w) →
  api_key website = websiteId →
  crawl_status website = crawling →
  (∀ other, other ∈ websites (db w) → api_key other = websiteId → other = website) →
  let (result, w') := startCrawl w now websiteId options in
  start_success result = false
  ∧ jobId result = None
  ∧ (start_message result = "Website is already being crawled"
     ∨ start_message result = "Website not found"
     ∨ ∃ msg, start_message result = "Error starting crawl: " +:+ msg)
  ∧ (connect_error (db w) = None → is_active website = true →
     start_message result = "Website is already being crawled")
  ∧ timers w' = timers w
  ∧ running w' = running w
  ∧ db w' = db w
  ∧ w' = w.
Proof.
  intros Hin Hkey Hstatus Hunique.
  destruct (findByApiKey (db w) websiteId) as [[w0|]|msg] eqn:Hfind.
  - apply findByApiKey_Some in Hfind as Hw0. destruct Hw0 as (Hin0 & Hkey0 & _).
    rewrite (Hunique w0 Hin0 Hkey0) in Hfind.
    rewrite (startCrawl_resolved_crawling _ _ _ _ _ Hfind Hstatus). simpl.
    split_and!; auto.
  - unfold startCrawl. rewrite Hfind. simpl. split_and!; auto.
    intros Hconn Hactive.
    destruct (findByApiKey_found _ _ _ Hconn Hin Hkey Hactive) as [w0 Hw0].
    congruence.
  - unfold startCrawl. rewrite Hfind. simpl. split_and!; eauto.
    intros Hconn. unfold findByApiKey, queryOne, query in Hfind.
    by rewrite Hconn in Hfind.
Qed.

(** C5 on a concrete world: one tenant, crawling, with a crawler that
    has already visited two pages. *)
Lemma startCrawl_rejects_when_crawling_witness :
  let (result, w') := startCrawl Fixtures.example_world 1700000000000 "key-1" None in
  start_success result = false
  ∧ jobId result = None
  ∧ (start_message result = "Website is already being crawled"
     ∨ start_message result = "Website not found"
     ∨ ∃ msg, start_message result = "Error starting crawl: " +:+ msg)
  ∧ (connect_error (db Fixtures.example_world) = None →
     is_active Fixtures.crawling_site = true →
     start_message result = "Website is already being crawled")
  ∧ timers w' = timers Fixtures.example_world
  ∧ running w' = running Fixtures.example_world
  ∧ db w' = db Fixtures.example_world
  ∧ w' = Fixtures.example_world.
Proof.
  apply (startCrawl_rejects_when_crawling Fixtures.example_world 1700000000000
           "key-1" None Fixtures.crawling_site).
  - vm_compute. left.
  - reflexivity.
  - reflexivity.
  - intros other Hother _. vm_compute in Hother.
    apply elem_of_cons in Hother as [->|Hother]; [reflexivity|].
    by apply elem_of_nil in Hother.
Defined.

End CrawlerFacts.

Module CrawlerExamples.

Import Database Crawler CrawlerFacts Fixtures.

Example clean_collapses_and_trims :
  clean ("  Hello" +:+ Rag.nl +:+ Rag.nl +:+ "   World  ") = "Hello World".
Proof. reflexivity. Qed.

Example admin_pages_are_excluded :
  shouldCrawlUrl (settings Crawler.default_options) "https://example.com/Admin/users" = false
  ∧ shouldCrawlUrl (settings Crawler.default_options) "https://example.com/pricing" = true.
Proof. split; reflexivity. Qed.

Example include_patterns_restrict :
  let opts := settings {| maxPages := None; maxDepth := None;
                          respectRobotsTxt := None; delayBetweenRequests := None;
                          excludePatterns := None;
                          includePatterns := Some ["/blog"; "/docs"] |} in
  shouldCrawlUrl opts "https://example.com/blog/post-1" = true
  ∧ shouldCrawlUrl opts "https://example.com/pricing" = false.
Proof. split; reflexivity. Qed.

Example extract_prefers_main :
  extract Fixtures.short_page = Fixtures.text_of_100_characters.
Proof. reflexivity. Qed.

(** With a cap of three pages the hub crawl stops after three URLs. *)
Example hub_crawl_with_cap_3 :
  visitedUrls <$>
    crawl_pages Fixtures.example_site
      (settings {| maxPages := Some 3; maxDepth := None;
                   respectRobotsTxt := None; delayBetweenRequests := None;
                   excludePatterns := None; includePatterns := None |})
      Fixtures.hub_site splitText_identity Fixtures.example_hostname
      "2024-01-01T00:00:00.000Z" 4
  = Some ["https://example.com"; "https://example.com/p1"; "https://example.com/p2"].
Proof. vm_compute. reflexivity. Qed.


(** On the article site the two pages that load have more than 100
    characters of text and leave one pending document each; the page
    that cannot be reached leaves none, and the crawl goes on after it. *)
Example article_pages_are_queued :
  (λ st, (visitedUrls st,
          (λ doc, (Database.url doc, String.length (content doc), embedding doc))
          <$> documentsToCreate st))
  <$> crawl_pages example_site (settings Crawler.default_options) article_site
        splitText_identity example_hostname "2024-01-01T00:00:00.000Z" 4
  = Some (["https://example.com"; "https://example.com/broken";
           "https://example.com/contact"],
          [("https://example.com", 124, None);
           ("https://example.com/contact", 124, None)]).
Proof. vm_compute. reflexivity. Qed.

(** From the hub page only the first ten same-host links are visited,
    although the page cap (50) and the depth cap (3) would allow more. *)
Example hub_crawl_stops_at_ten_links :
  ∃ st, crawl_pages example_site (settings Crawler.default_options) hub_site
          splitText_identity example_hostname "2024-01-01T00:00:00.000Z" 4
        = Some st
        ∧ visitedUrls st =
            ["https://example.com";
             "https://example.com/p1"; "https://example.com/p2";
             "https://example.com/p3"; "https://example.com/p4";
             "https://example.com/p5"; "https://example.com/p6";
             "https://example.com/p7"; "https://example.com/p8";
             "https://example.com/p9"; "https://example.com/p10"]
        ∧ "https://example.com/p11" ∉ visitedUrls st.
Proof.
  eexists. split_and!; [vm_compute; reflexivity | reflexivity |].
  vm_compute. intros H. by repeat (apply elem_of_cons in H as [[=]|H]);
    apply elem_of_nil in H.
Qed.

End CrawlerExamples.

(** ** The HTTP chat endpoint *)

Module ChatRouteFacts.

Import ChatRoute JsFacts.

Section handler.

Variable apiKey : option string.
Variable gemini : string → string → outcome GeminiData.
Variable Date_now : nat → N.

#[local] Abbreviation generateGeminiResponse := (generateGeminiResponse apiKey gemini).
#[local] Abbreviation POST := (POST apiKey gemini Date_now).

Lemma generateGeminiResponse_resolves message :
  resolves (generateGeminiResponse message).
Proof. apply try_catch_resolves. intros; by eexists. Qed.

Lemma generateGeminiResponse_without_key message :
  truthy apiKey = false →
  generateGeminiResponse message = Returns (Some gemini_fallback).
Proof. intros H. unfold ChatRoute.generateGeminiResponse. by rewrite H. Qed.

Lemma generateGeminiResponse_provider_failure message key :
  apiKey = Some key → key ≠ EmptyString →
  rejects (gemini key (gemini_prompt message)) →
  generateGeminiResponse message = Returns (Some gemini_fallback).
Proof.
  intros -> Hkey [msg H]. unfold ChatRoute.generateGeminiResponse. simpl.
  rewrite bool_decide_eq_false_2 by done. simpl. by rewrite H.
Qed.

Lemma generateGeminiResponse_first_part message key data candidate rest content p ps :
  apiKey = Some key → key ≠ EmptyString →
  gemini key (gemini_prompt message) = Returns data →
  candidates data = Some (candidate :: rest) →
  candidate_content candidate = Some content →
  parts content = Some (p :: ps) →
  generateGeminiResponse message = Returns (part_text p).
Proof.
  intros -> Hkey Hdata Hcand Hcontent Hparts.
  unfold ChatRoute.generateGeminiResponse. simpl.
  rewrite bool_decide_eq_false_2 by done. simpl.
  rewrite Hdata. simpl. rewrite Hcand, Hcontent, Hparts. done.
Qed.

Lemma generateGeminiResponse_malformed message key data :
  apiKey = Some key → key ≠ EmptyString →
  gemini key (gemini_prompt message) = Returns data →
  malformed data →
  generateGeminiResponse message = Returns (Some gemini_fallback).
Proof.
  intros -> Hkey Hdata Hbad.
  unfold ChatRoute.generateGeminiResponse. simpl.
  rewrite bool_decide_eq_false_2 by done. simpl.
  rewrite Hdata. simpl.
  destruct Hbad as [->| [->| (candidate & rest & -> & Hbad)]]; [done..|].
  destruct Hbad as [->| (content & -> & [->| ->])]; done.
Qed.

(** The cases that end in the [catch] block. *)
Lemma generateGeminiResponse_apology message :
  truthy apiKey = false
  ∨ (∃ key, apiKey = Some key ∧ key ≠ EmptyString
            ∧ (rejects (gemini key (gemini_prompt message))
               ∨ ∃ data, gemini key (gemini_prompt message) = Returns data
                         ∧ malformed data)) →
  generateGeminiResponse message = Returns (Some gemini_fallback).
Proof.
  intros [Hno| (key & Hkey & Hne & [Hrej| (data & Hdata & Hbad)])].
  - by apply generateGeminiResponse_without_key.
  - by eapply generateGeminiResponse_provider_failure.
  - by eapply generateGeminiResponse_malformed.
Qed.


(** The clock is read once for a request that names its session, and
    twice otherwise. *)
Lemma POST_timestamp (b : Body) msg resp :
  message b = Some msg → msg ≠ EmptyString →
  POST (Returns (Some b)) = Returns resp →
  field "timestamp" (body resp)
  = Some (JNum (Date_now (if truthy (sessionId b) then 0 else 1))).
Proof.
  intros Hmsg Hne. unfold ChatRoute.POST. simpl. rewrite Hmsg. simpl.
  rewrite bool_decide_eq_false_2 by done. simpl.
  destruct (generateGeminiResponse_resolves msg) as [c ->]. simpl.
  intros [= <-]. by destruct c.
Qed.

End handler.


End ChatRouteFacts.

(** * Further properties of the sources *)

(** ** Ranking of the similarity query *)

Module RankingFacts.

Import Database JsFacts DatabaseFacts.

Section ranking.

Variable cosine_distance : vector → vector → Qc.

#[local] Abbreviation select_row := (select_row cosine_distance).
#[local] Abbreviation ranked := (ranked cosine_distance).
#[local] Abbreviation similaritySearch := (similaritySearch cosine_distance).

Lemma by_distance_total : Total by_distance.
Proof. intros r1 r2. unfold by_distance. apply (total Qcle). Qed.

Lemma by_distance_trans : Transitive by_distance.
Proof. intros r1 r2 r3. unfold by_distance. apply Qcle_trans. Qed.

(** The selected rows, still paired with their sort key, in order. *)
Lemma sorted_selection db T v t :
  StronglySorted by_distance
    (merge_sort by_distance (omap (select_row T v t) (documents db)))
  ∧ Forall (λ kr, similarity kr.2 = (1 - kr.1)%Qc)
      (merge_sort by_distance (omap (select_row T v t) (documents db))).
Proof.
  split;
    [apply (@StronglySorted_merge_sort _ by_distance _
              by_distance_trans by_distance_total)|].
  apply Forall_forall. intros [k r] Hin.
  rewrite merge_sort_Permutation in Hin.
  apply list_elem_of_omap in Hin as (d & _ & Hsel).
  apply select_row_Some in Hsel as (_ & _ & _ & e & _ & _ & Hsim). done.
Qed.

Lemma Qc_opp_antitone (a b : Qc) : (a ≤ b)%Qc → (1 - b ≤ 1 - a)%Qc.
Proof.
  intros Hle. unfold Qcminus. apply Qcplus_le_mono_l.
  by apply Qcopp_le_compat.
Qed.

Lemma sorted_keys_sorted_rows (l : list (Qc * Row)) :
  StronglySorted by_distance l →
  Forall (λ kr, similarity kr.2 = (1 - kr.1)%Qc) l →
  StronglySorted (λ r1 r2, (similarity r2 ≤ similarity r1)%Qc) (l.*2).
Proof.
  induction l as [|[k r] l IH]; intros Hs Hall; [constructor|].
  apply StronglySorted_inv in Hs as [Hs Hhd].
  apply Forall_cons in Hall as [Hr Hall].
  rewrite fmap_cons. constructor; [by apply IH|].
  apply Forall_fmap, Forall_forall. intros [k' r'] Hin.
  rewrite Forall_forall in Hhd, Hall.
  specialize (Hhd _ Hin). specialize (Hall _ Hin).
  unfold by_distance in Hhd. simpl in *. rewrite Hr, Hall.
  by apply Qc_opp_antitone.
Qed.

Lemma ranked_sorted db T v t :
  StronglySorted (λ r1 r2, (similarity r2 ≤ similarity r1)%Qc) (ranked db T v t).
Proof.
  destruct (sorted_selection db T v t) as [Hsorted Hsim].
  by apply sorted_keys_sorted_rows.
Qed.

(** X1. The rows that [similaritySearch] returns come in order of
    descending similarity. *)
Theorem similaritySearch_descending db T v L t rows :
  similaritySearch db T v L t = Returns rows →
  StronglySorted (λ r1 r2, (similarity r2 ≤ similarity r1)%Qc) rows.
Proof.
  intros ->%similaritySearch_rows.
  pose proof (ranked_sorted db T v t) as Hs.
  rewrite <-(take_drop L (ranked db T v t)) in Hs.
  by apply StronglySorted_app_1_l in Hs.
Qed.

(** X2. [similaritySearch] returns at most [limit] rows; each has a
    similarity strictly above the threshold, and that similarity is one
    minus the distance between the document's stored embedding and the
    query vector. *)
Theorem similaritySearch_threshold_and_limit db T v L t rows :
  similaritySearch db T v L t = Returns rows →
  length rows ≤ L
  ∧ ∀ r, r ∈ rows →
      (t < similarity r)%Qc
      ∧ ∃ e, embedding (row_document r) = Some e
             ∧ similarity r = (1 - cosine_distance e v)%Qc.
Proof.
  intros ->%similaritySearch_rows. split; [rewrite length_take; lia|].
  intros r Hr. apply subseteq_take, elem_of_ranked in Hr as (d & key & Hd & Hsel).
  apply select_row_Some in Hsel as (-> & _ & Ht & e & He & -> & Hsim).
  split; [done|]. by exists e.
Qed.

End ranking.

(** X1 and X2 on the example store: tenant [T1], threshold 0.7. *)
Lemma similaritySearch_descending_witness :
  ∃ rows,
    similaritySearch Fixtures.coordinate_distance Fixtures.example_db
      "T1" [1%Qc] 5 (frac 7 10) = Returns rows
    ∧ StronglySorted (λ r1 r2, (similarity r2 ≤ similarity r1)%Qc) rows.
Proof.
  eexists. split; [vm_compute; reflexivity|].
  apply (similaritySearch_descending Fixtures.coordinate_distance
           Fixtures.example_db "T1" [1%Qc] 5 (frac 7 10)).
  vm_compute. reflexivity.
Defined.

Lemma similaritySearch_threshold_and_limit_witness :
  ∃ rows,
    similaritySearch Fixtures.coordinate_distance Fixtures.example_db
      "T1" [1%Qc] 1 (frac 7 10) = Returns rows
    ∧ length rows ≤ 1
    ∧ ∀ r, r ∈ rows →
        (frac 7 10 < similarity r)%Qc
        ∧ ∃ e, embedding (row_document r) = Some e
               ∧ similarity r = (1 - Fixtures.coordinate_distance e [1%Qc])%Qc.
Proof.
  eexists. split; [vm_compute; reflexivity|].
  apply (similaritySearch_threshold_and_limit Fixtures.coordinate_distance
           Fixtures.example_db "T1" [1%Qc] 1 (frac 7 10)).
  vm_compute. reflexivity.
Defined.

End RankingFacts.

(** ** The retriever and the composer *)

Module ComposerFacts.

Import Database Rag JsFacts DatabaseFacts RagFacts Measures.

Lemma elem_of_set_from seen xs x :
  x ∈ set_from seen xs ↔ x ∈ xs ∧ x ∉ seen.
Proof.
  revert seen. induction xs as [|y xs IH]; intros seen; simpl.
  - split; [by intros ?%elem_of_nil | by intros [?%elem_of_nil _]].
  - destruct (decide (y ∈ seen)) as [Hy|Hy].
    + rewrite IH, elem_of_cons. split; [tauto|].
      intros [[->|?] ?]; [done | tauto].
    + rewrite elem_of_cons, IH, !elem_of_cons. split.
      * intros [->|[? Hn]]; [tauto|]. split; [tauto|].
        intros ?. apply Hn. by right.
      * intros [[->|?] Hn]; [by left|].
        destruct (decide (x = y)) as [->|Hne]; [by left|].
        right. split; [done|]. by intros [?|?].
Qed.

Lemma NoDup_set_from seen xs : NoDup (set_from seen xs).
Proof.
  revert seen. induction xs as [|y xs IH]; intros seen; simpl; [constructor|].
  destruct (decide (y ∈ seen)); [apply IH|].
  constructor; [|apply IH].
  rewrite elem_of_set_from. intros [_ Hn]. apply Hn. by left.
Qed.

Lemma length_set_from seen xs : length (set_from seen xs) ≤ length xs.
Proof.
  revert seen. induction xs as [|y xs IH]; intros seen; simpl; [done|].
  destruct (decide (y ∈ seen)); simpl; [etrans; [apply IH|lia]|].
  apply le_n_S, IH.
Qed.

Lemma slice_last_app {A} (n : nat) (older recent : list A) :
  n ≤ length recent → slice_last n (older ++ recent) = slice_last n recent.
Proof.
  intros Hn. unfold slice_last. rewrite length_app.
  replace (length older + length recent - n)
    with (length older + (length recent - n)) by lia.
  apply drop_app_add.
Qed.

Lemma paced_cons b b' rest :
  paced (b :: b' :: rest) = Batch b :: Sleep 100 :: paced (b' :: rest).
Proof. done. Qed.

Lemma batches_of_Batch b log : batches_of (Batch b :: log) = b :: batches_of log.
Proof. done. Qed.

Lemma batches_of_Sleep ms log : batches_of (Sleep ms :: log) = batches_of log.
Proof. done. Qed.

Lemma pause_total_Batch b log : pause_total (Batch b :: log) = pause_total log.
Proof. done. Qed.

Lemma pause_total_Sleep ms log : pause_total (Sleep ms :: log) = ms + pause_total log.
Proof. done. Qed.

Lemma batches_of_paced batches : batches_of (paced batches) = batches.
Proof.
  induction batches as [|b rest IH]; [done|].
  destruct rest as [|b' rest]; [done|].
  by rewrite paced_cons, batches_of_Batch, batches_of_Sleep, IH.
Qed.

Lemma pause_total_paced batches :
  pause_total (paced batches) = 100 * (length batches - 1).
Proof.
  induction batches as [|b rest IH]; [done|].
  destruct rest as [|b' rest]; [done|].
  rewrite paced_cons, pause_total_Batch, pause_total_Sleep, IH. simpl. lia.
Qed.

Lemma well_batched_tail b batches :
  well_batched (b :: batches) → well_batched batches.
Proof.
  intros [Hall Hfull]. split; [by apply Forall_cons in Hall as [_ ?]|].
  intros j b' Hj Hlt. apply (Hfull (S j)); simpl; [done | lia].
Qed.

(** With all sub-batches but the last full, the number of sub-batches is
    the number of texts divided by the batch size, rounded up. *)
Lemma well_batched_count batches :
  well_batched batches →
  length batches = (length (mjoin batches) + 4) / 5.
Proof.
  induction batches as [|b [|b' rest] IH]; intros Hwb.
  - done.
  - destruct Hwb as [Hall _]. apply Forall_cons in Hall as [Hb _].
    change (mjoin [b]) with (b ++ []). rewrite app_nil_r.
    change (length [b]) with 1. unfold batchSize in Hb.
    apply (Nat.div_unique (length b + 4) 5 1 (length b - 1)); lia.
  - pose proof (well_batched_tail _ _ Hwb) as Htail.
    specialize (IH Htail).
    destruct Hwb as [_ Hfull].
    assert (length b = 5) as Hb by (apply (Hfull 0); simpl; [done | lia]).
    change (mjoin (b :: b' :: rest)) with (b ++ mjoin (b' :: rest)).
    rewrite length_app, Hb.
    change (length (b :: b' :: rest)) with (S (length (b' :: rest))).
    rewrite IH.
    replace (5 + length (mjoin (b' :: rest)) + 4)
      with (1 * 5 + (length (mjoin (b' :: rest)) + 4)) by lia.
    rewrite Nat.div_add_l by lia. lia.
Qed.

Section provider.

Variable cosine_distance : vector → vector → Qc.
Variable embedContent : string → outcome EmbedContentResponse.
Variable generateContent : string → outcome GenerateContentResult.

#[local] Abbreviation similaritySearch := (similaritySearch cosine_distance).
#[local] Abbreviation retrieve_body := (retrieve_body cosine_distance embedContent).
#[local] Abbreviation retrieveRelevantDocuments :=
  (retrieveRelevantDocuments cosine_distance embedContent).
#[local] Abbreviation generateRAGResponse :=
  (generateRAGResponse cosine_distance embedContent generateContent).
#[local] Abbreviation completion := (completion generateContent).
#[local] Abbreviation createEmbedding := (createEmbedding embedContent).
#[local] Abbreviation batch_loop := (batch_loop embedContent).
#[local] Abbreviation createEmbeddingsBatch := (createEmbeddingsBatch embedContent).

(** X4. What the retriever hands back is consistent: [totalSources] is
    the number of documents, it never exceeds the limit (5 unless given),
    the threshold reported is the one used (0.7 unless given), and every
    document belongs to the requested tenant and scores above that
    threshold. *)
Theorem retrieve_result_consistent db query websiteId options c :
  retrieveRelevantDocuments db query websiteId options = Returns c →
  totalSources c = length (Rag.documents c)
  ∧ totalSources c ≤ default 5 (limit options)
  ∧ similarity_threshold c = default (frac 7 10) (threshold options)
  ∧ ∀ r, r ∈ Rag.documents c →
      website_id (row_document r) = websiteId
      ∧ (default (frac 7 10) (threshold options) < similarity r)%Qc.
Proof.
  unfold Rag.retrieveRelevantDocuments.
  destruct (retrieve_body_cases cosine_distance embedContent db query websiteId)
    as [He|(v & _ & Hv)].
  - apply (retrieve_body_no_embedding cosine_distance embedContent db _ websiteId
             (default 5 (limit options))
             (default (frac 7 10) (threshold options))) in He as [msg ->].
    simpl. intros [= <-]. simpl. split_and!; [done | lia | done |].
    intros r Hr. by apply elem_of_nil in Hr.
  - rewrite Hv.
    destruct (similaritySearch _ _ _ _ _) as [docs|msg] eqn:Hs; simpl;
      intros [= <-]; simpl.
    + apply similaritySearch_rows in Hs as ->.
      split_and!; [done | rewrite length_take; lia | done |].
      intros r Hr.
      apply subseteq_take, elem_of_ranked in Hr as (d & key & Hd & Hsel).
      apply select_row_Some in Hsel as (-> & HT & Ht & _). done.
    + split_and!; [done | lia | done |].
      intros r Hr. by apply elem_of_nil in Hr.
Qed.

(** *** Sources *)

(** X5. When the completion succeeds, the answer is the provider's text
    verbatim and the sources are the URLs of the retrieved documents with
    duplicates removed: no URL is listed twice, every listed URL belongs
    to a retrieved document, every retrieved document's URL is listed,
    and there are at most [totalSources] of them. *)
Theorem generateRAGResponse_sources db query websiteId chatHistory options ctx reply :
  retrieveRelevantDocuments db query websiteId options = Returns ctx →
  completion (prompt query ctx chatHistory) = Returns reply →
  ∃ r, generateRAGResponse db query websiteId chatHistory options = Returns r
       ∧ answer r = reply
       ∧ NoDup (sources r)
       ∧ (∀ u, u ∈ sources r ↔
                ∃ row, row ∈ Rag.documents ctx ∧ url (row_document row) = u)
       ∧ length (sources r) ≤ length (Rag.documents ctx).
Proof.
  intros Hctx Hreply. unfold Rag.generateRAGResponse.
  rewrite Hctx. simpl. rewrite Hreply. simpl.
  eexists. split_and!; [reflexivity | reflexivity | ..]; simpl.
  - apply NoDup_set_from.
  - intros u. rewrite elem_of_set_from, list_elem_of_fmap. split.
    + intros [(row & -> & Hrow) _]. by exists row.
    + intros (row & Hrow & <-). split; [by exists row|].
      by intros ?%elem_of_nil.
  - etrans; [apply length_set_from|]. by rewrite length_fmap.
Qed.

Lemma retrieve_ignores_includeContext db query websiteId lim thr inc1 inc2 :
  retrieveRelevantDocuments db query websiteId
    {| limit := lim; threshold := thr; includeContext := inc1 |}
  = retrieveRelevantDocuments db query websiteId
    {| limit := lim; threshold := thr; includeContext := inc2 |}.
Proof. done. Qed.

(** X6. [includeContext: false] only hides the context: the answer and
    the sources are the same as with [includeContext: true] (or with the
    option left out), and the context returned is the zeroed one. *)
Theorem includeContext_only_hides_context db query websiteId chatHistory lim thr :
  ∃ shown hidden,
    generateRAGResponse db query websiteId chatHistory
      {| limit := lim; threshold := thr; includeContext := Some true |}
      = Returns shown
    ∧ generateRAGResponse db query websiteId chatHistory
      {| limit := lim; threshold := thr; includeContext := None |}
      = Returns shown
    ∧ generateRAGResponse db query websiteId chatHistory
      {| limit := lim; threshold := thr; includeContext := Some false |}
      = Returns hidden
    ∧ answer hidden = answer shown
    ∧ sources hidden = sources shown
    ∧ context hidden = empty_context 0.
Proof.
  unfold Rag.generateRAGResponse.
  rewrite !(retrieve_ignores_includeContext db query websiteId lim thr _ None).
  destruct (retrieveRelevantDocuments db query websiteId _) as [ctx|msg]; simpl.
  - destruct (completion (prompt query ctx chatHistory)) as [reply|msg]; simpl.
    + eexists _, _. split_and!; reflexivity.
    + eexists _, _. split_and!; reflexivity.
  - eexists _, _. split_and!; reflexivity.
Qed.

(** *** The history window *)

(** X7. Only the last ten turns of the conversation reach the prompt:
    whatever precedes ten (or more) recent turns changes neither the
    prompt nor the response. *)
Theorem history_window_is_ten_turns db query websiteId older recent options :
  10 ≤ length recent →
  (∀ ctx, prompt query ctx (older ++ recent) = prompt query ctx recent)
  ∧ generateRAGResponse db query websiteId (older ++ recent) options
    = generateRAGResponse db query websiteId recent options.
Proof.
  intros Hlen.
  assert (Hp : ∀ ctx, prompt query ctx (older ++ recent) = prompt query ctx recent).
  { intros ctx. unfold prompt, historyText. by rewrite slice_last_app. }
  split; [done|].
  unfold Rag.generateRAGResponse.
  destruct (retrieveRelevantDocuments db query websiteId options) as [ctx|msg];
    simpl; [|done].
  by rewrite Hp.
Qed.

(** *** Pacing of the batch embedder *)

(** X8. Rate limiting of the batch embedder.  For [n] texts the provider
    is called in [ceil(n / 5)] sub-batches, and the run pauses 100 ms
    once between each two of them: [100 * (ceil(n / 5) - 1)] ms in all,
    nothing for five texts or fewer. *)
Theorem createEmbeddingsBatch_pacing (texts : list string) :
  ∃ st, createEmbeddingsBatch texts = Some (Returns st)
        ∧ length (batches_of (log st)) = (length texts + 4) / 5
        ∧ mjoin (batches_of (log st)) = texts
        ∧ pause_total (log st) = 100 * ((length texts + 4) / 5 - 1).
Proof.
  destruct (batch_loop_spec embedContent (S (length texts)) texts 0
              {| embeddings := []; log := [] |})
    as (vs & batches & Hrun & _ & Hjoin & Hwb); [lia|].
  simpl in Hrun, Hjoin. eexists. split; [exact Hrun|]. simpl.
  rewrite batches_of_paced, pause_total_paced.
  rewrite (well_batched_count _ Hwb), Hjoin. done.
Qed.

End provider.

Lemma retrieve_result_consistent_witness :
  ∃ c, retrieveRelevantDocuments Fixtures.coordinate_distance
         Fixtures.unit_embedder Fixtures.example_db "services" "T1"
         {| limit := Some 1; threshold := None; includeContext := None |}
       = Returns c
       ∧ totalSources c = 1
       ∧ totalSources c = length (Rag.documents c)
       ∧ totalSources c ≤ 1
       ∧ similarity_threshold c = frac 7 10
       ∧ ∀ r, r ∈ Rag.documents c →
           website_id (row_document r) = "T1"
           ∧ (frac 7 10 < similarity r)%Qc.
Proof.
  eexists. split; [vm_compute; reflexivity|]. split; [reflexivity|].
  apply (retrieve_result_consistent Fixtures.coordinate_distance
           Fixtures.unit_embedder Fixtures.example_db "services" "T1"
           {| limit := Some 1; threshold := None; includeContext := None |}).
  vm_compute. reflexivity.
Defined.

Lemma generateRAGResponse_sources_witness :
  ∃ ctx,
    retrieveRelevantDocuments Fixtures.coordinate_distance Fixtures.unit_embedder
      Fixtures.example_db "services" "T1" Rag.no_options = Returns ctx
    ∧ ∃ r,
        generateRAGResponse Fixtures.coordinate_distance Fixtures.unit_embedder
          Fixtures.hello_model Fixtures.example_db "services" "T1" []
          Rag.no_options = Returns r
        ∧ answer r = "Hello"
        ∧ NoDup (sources r)
        ∧ (∀ u, u ∈ sources r ↔
                 ∃ row, row ∈ Rag.documents ctx ∧ url (row_document row) = u)
        ∧ length (sources r) ≤ length (Rag.documents ctx).
Proof.
  eexists. split; [vm_compute; reflexivity|].
  apply (generateRAGResponse_sources Fixtures.coordinate_distance
           Fixtures.unit_embedder Fixtures.hello_model Fixtures.example_db
           "services" "T1" [] Rag.no_options _ "Hello");
    vm_compute; reflexivity.
Defined.

(** Twelve turns: the two oldest do not reach the prompt. *)
Lemma history_window_is_ten_turns_witness :
  let turn := {| role := user; msg_content := "hi" |} in
  let older := [{| role := assistant; msg_content := "old-1" |};
                {| role := user; msg_content := "old-2" |}] in
  let recent := replicate 10 turn in
  (∀ ctx, prompt "q" ctx (older ++ recent) = prompt "q" ctx recent)
  ∧ generateRAGResponse Fixtures.coordinate_distance Fixtures.unit_embedder
      Fixtures.hello_model Fixtures.example_db "q" "T1" (older ++ recent)
      Rag.no_options
    = generateRAGResponse Fixtures.coordinate_distance Fixtures.unit_embedder
        Fixtures.hello_model Fixtures.example_db "q" "T1" recent Rag.no_options.
Proof.
  intros turn older recent.
  apply (history_window_is_ten_turns Fixtures.coordinate_distance
           Fixtures.unit_embedder Fixtures.hello_model Fixtures.example_db
           "q" "T1" older recent Rag.no_options).
  vm_compute. lia.
Defined.

End ComposerFacts.

(** ** Invariants of the traversal *)

Module TraversalFacts.

Import Database Crawler CrawlerFacts Reachability.

Lemma to_lower_ascii_idemp c : to_lower_ascii (to_lower_ascii c) = to_lower_ascii c.
Proof. by destruct c as [[] [] [] [] [] [] [] []]. Qed.

Lemma toLowerCase_idemp s : toLowerCase (toLowerCase s) = toLowerCase s.
Proof.
  induction s as [|c s IH]; [done|]. simpl. by rewrite to_lower_ascii_idemp, IH.
Qed.

(** X9. Pattern matching on URLs ignores case: a URL and its lower-case
    form get the same verdict from [shouldCrawlUrl]. *)
Theorem shouldCrawlUrl_ignores_case opts url :
  shouldCrawlUrl opts (toLowerCase url) = shouldCrawlUrl opts url.
Proof. unfold shouldCrawlUrl. by rewrite toLowerCase_idemp. Qed.

(** What a positive verdict of [shouldCrawlUrl] means. *)
Lemma shouldCrawlUrl_true opts url :
  shouldCrawlUrl opts url = true →
  (∀ pattern, pattern ∈ s_excludePatterns opts →
     includes (toLowerCase pattern) (toLowerCase url) = false)
  ∧ (s_includePatterns opts ≠ [] →
     ∃ pattern, pattern ∈ s_includePatterns opts
                ∧ includes (toLowerCase pattern) (toLowerCase url) = true).
Proof.
  unfold shouldCrawlUrl.
  destruct (existsb _ (s_excludePatterns opts)) eqn:Hex; [done|].
  intros Hinc. split.
  - intros pattern Hin.
    destruct (includes _ _) eqn:Hp; [|done].
    assert (existsb (λ pattern, includes (toLowerCase pattern) (toLowerCase url))
              (s_excludePatterns opts) = true) as Ht.
    { apply existsb_exists. exists pattern. split; [by apply list_elem_of_In|done]. }
    congruence.
  - intros Hne. destruct (decide _) as [_|Hn].
    + apply existsb_exists in Hinc as (pattern & Hin & Hp).
      exists pattern. split; [by apply list_elem_of_In|done].
    + destruct (s_includePatterns opts); [done|]. simpl in Hn. lia.
Qed.

Section crawler.

Variable website : Website.
Variable opts : Settings.
Variable goto : string → outcome Page.
Variable splitText : string → list string.
Variable hostname : string → option string.
Variable timestamp : string.

#[local] Abbreviation crawlUrl :=
  (crawlUrl website opts goto splitText hostname timestamp).
#[local] Abbreviation crawl_pages :=
  (crawl_pages website opts goto splitText hostname timestamp).
#[local] Abbreviation page_documents :=
  (page_documents website splitText timestamp).
#[local] Abbreviation internalLinks := (internalLinks website hostname).
#[local] Abbreviation delay := (delay opts).
#[local] Abbreviation follow :=
  (follow website opts goto splitText hostname timestamp).
#[local] Abbreviation followed_from := (followed_from website goto hostname).
#[local] Abbreviation link_path := (link_path website goto hostname).
#[local] Abbreviation page_failure := (page_failure goto).

(** As [crawlUrl_preserves], with what each step knows about its page. *)
Lemma crawlUrl_steps (R : CrawlerState → CrawlerState → Prop) :
  (∀ st, R st st) →
  (∀ a b c, R a b → R b c → R a c) →
  (∀ url st, length (visitedUrls st) < s_maxPages opts →
             url ∉ visitedUrls st → shouldCrawlUrl opts url = true →
             R st (visit url st)) →
  (∀ url page st, url ∈ visitedUrls st → goto url = Returns page →
                  R st (push_documents (page_documents url page) st)) →
  (∀ url msg st, url ∈ visitedUrls st → page_failure url msg →
                 R st (record_error url msg st)) →
  (∀ st, R st (delay st)) →
  ∀ fuel url depth st st',
    crawlUrl fuel url depth st = Some st' → R st st'.
Proof.
  intros Hrefl Htrans Hvisit Hpush Herr Hdelay.
  induction fuel as [|fuel IH]; intros url depth st st'; [done|].
  rewrite crawlUrl_unfold.
  destruct (_ || _ || _) eqn:Hguard; [by intros [= <-]|].
  apply guard_passed in Hguard as (_ & Hsize & Hnew).
  destruct (shouldCrawlUrl opts url) eqn:Hshould; simpl; [|by intros [= <-]].
  pose proof (Hvisit url st Hsize Hnew Hshould) as Hv.
  assert (url ∈ visitedUrls (visit url st)) as Hin.
  { simpl. apply elem_of_app. right. by apply list_elem_of_singleton. }
  destruct (goto url) as [page|msg] eqn:Hgoto.
  2:{ intros [= <-]. eapply Htrans; [done|]. apply Herr; [done | by left]. }
  simpl.
  assert (R st (push_documents (page_documents url page) (visit url st))) as H1.
  { eapply Htrans; [done|]. by apply Hpush. }
  destruct (bool_decide (depth < s_maxDepth opts)); [|by intros [= <-]].
  destruct (page_links page) as [links|msg] eqn:Hlinks.
  2:{ intros [= <-]. eapply Htrans; [done|]. apply Herr; [done|].
      right. by exists page. }
  revert H1. generalize (push_documents (page_documents url page) (visit url st)).
  induction (internalLinks links) as [|link rest IHl]; intros st1 H1; simpl.
  - by intros [= <-].
  - destruct (crawlUrl fuel link (depth + 1) (delay st1)) as [st2|] eqn:Hcall.
    + apply IHl. apply IH in Hcall. eauto.
    + by rewrite follow_None.
Qed.

Lemma crawl_pages_runs :
  ∃ st, crawl_pages (S (s_maxDepth opts)) = Some st.
Proof.
  destruct (crawlUrl_terminates website opts goto splitText hostname timestamp
              (S (s_maxDepth opts)) (domain website) 0 new_crawler) as [st Hst];
    [lia|].
  by exists st.
Qed.

(** X10. The crawl never visits a URL that fails the pattern test: no
    visited URL contains, ignoring case, one of the exclude patterns, and
    when include patterns are given every visited URL contains one of
    them. *)
Theorem crawl_respects_patterns :
  ∃ st, crawl_pages (S (s_maxDepth opts)) = Some st
    ∧ ∀ u, u ∈ visitedUrls st →
        shouldCrawlUrl opts u = true
        ∧ (∀ pattern, pattern ∈ s_excludePatterns opts →
             includes (toLowerCase pattern) (toLowerCase u) = false)
        ∧ (s_includePatterns opts ≠ [] →
           ∃ pattern, pattern ∈ s_includePatterns opts
                      ∧ includes (toLowerCase pattern) (toLowerCase u) = true).
Proof.
  destruct crawl_pages_runs as [st Hst]. exists st. split; [done|].
  assert (∀ u, u ∈ visitedUrls st → shouldCrawlUrl opts u = true) as Hall.
  { pose (I := λ s : CrawlerState,
      ∀ u, u ∈ visitedUrls s → shouldCrawlUrl opts u = true).
    assert (I new_crawler → I st) as Hstep; [|by apply Hstep; intros u ?%elem_of_nil].
    unfold Crawler.crawl_pages in Hst. revert Hst.
    apply (crawlUrl_steps (λ a b, I a → I b)); try done.
    - eauto.
    - intros url a _ _ Hok Ha u. simpl.
      rewrite elem_of_app, list_elem_of_singleton. intros [?| ->]; auto. }
  intros u Hu. split; [by apply Hall|]. by apply shouldCrawlUrl_true, Hall.
Qed.

(** X11. Every pending document comes from a visited page of the crawled
    tenant: it carries the tenant's id, no embedding yet, the URL of a
    visited page that loaded, and it is one of the chunk documents of that
    page. *)
Theorem crawl_documents_provenance :
  ∃ st, crawl_pages (S (s_maxDepth opts)) = Some st
    ∧ ∀ d, d ∈ documentsToCreate st →
        website_id d = id website
        ∧ embedding d = None
        ∧ url d ∈ visitedUrls st
        ∧ ∃ page, goto (url d) = Returns page ∧ d ∈ page_documents (url d) page.
Proof.
  destruct crawl_pages_runs as [st Hst]. exists st. split; [done|].
  pose (I := λ s : CrawlerState,
    ∀ d, d ∈ documentsToCreate s →
      website_id d = id website ∧ embedding d = None
      ∧ url d ∈ visitedUrls s
      ∧ ∃ page, goto (url d) = Returns page ∧ d ∈ page_documents (url d) page).
  assert (I new_crawler → I st) as Hstep;
    [|by apply Hstep; intros d ?%elem_of_nil].
  unfold Crawler.crawl_pages in Hst. revert Hst.
  apply (crawlUrl_steps (λ a b, I a → I b)); try done.
  - eauto.
  - intros u a _ _ _ Ha d Hd. destruct (Ha d Hd) as (? & ? & ? & ?).
    split_and!; [done..| |done]. simpl. apply elem_of_app. by left.
  - intros u page a Hu Hgoto Ha d. simpl. rewrite elem_of_app.
    intros [Hd|Hd]; [by apply Ha|].
    assert (Hd' := Hd). unfold Crawler.page_documents in Hd'.
    destruct (decide _); [|by apply elem_of_nil in Hd'].
    apply elem_of_lookup_imap in Hd' as (i & chunk & -> & _). simpl.
    split_and!; [done..|]. by exists page.
Qed.

(** Every failed navigation of the traversal is recorded. *)
Lemma crawlUrl_failures_recorded fuel url depth st st' :
  crawlUrl fuel url depth st = Some st' →
  (∀ e, e ∈ errors st → e ∈ errors st')
  ∧ ∀ u msg, u ∈ visitedUrls st' → goto u = Throws msg →
      u ∈ visitedUrls st
      ∨ "Error crawling " +:+ u +:+ ": " +:+ msg ∈ errors st'.
Proof.
  apply (crawlUrl_pages website opts goto splitText hostname timestamp
           (λ a b, (∀ e, e ∈ errors a → e ∈ errors b)
                   ∧ ∀ u msg, u ∈ visitedUrls b → goto u = Throws msg →
                       u ∈ visitedUrls a
                       ∨ "Error crawling " +:+ u +:+ ": " +:+ msg ∈ errors b)).
  - intros a. split; [done|]. intros u msg Hu _. by left.
  - intros a b c [Hab Hb] [Hbc Hc]. split; [eauto|].
    intros u msg Hu Hgoto. destruct (Hc u msg Hu Hgoto) as [Hu'|He]; [|by right].
    destruct (Hb u msg Hu' Hgoto) as [?|He]; [by left|]. right. by apply Hbc.
  - intros v msg a _ _ _ Hgoto. simpl. split.
    + intros e He. apply elem_of_app. by left.
    + intros u m. rewrite elem_of_app, list_elem_of_singleton.
      intros [Hu| ->] Hm; [by left|]. right.
      assert (m = msg) as -> by congruence.
      apply elem_of_app. right. by apply list_elem_of_singleton.
  - intros v page a _ _ _ Hgoto. simpl. split; [done|].
    intros u m. rewrite elem_of_app, list_elem_of_singleton.
    intros [Hu| ->] Hm; [by left|]. congruence.
  - intros v page msg a _ _ _. simpl. split.
    + intros e He. apply elem_of_app. by left.
    + intros u m Hu _. by left.
  - intros a. simpl. split; [done|]. intros u m Hu _. by left.
Qed.

Lemma follow_visited_prefix fuel depth links st1 st' :
  foldl (follow fuel depth) (Some st1) links = Some st' →
  visitedUrls st1 `prefix_of` visitedUrls st'.
Proof.
  revert st1. induction links as [|link rest IH]; intros st1; simpl.
  - by intros [= <-].
  - destruct (crawlUrl fuel link (depth + 1) (delay st1)) as [st2|] eqn:Hcall;
      [|by rewrite follow_None].
    intros Hrest. etrans; [|by apply IH].
    by apply crawlUrl_visited_prefix in Hcall.
Qed.

(** A call either visits its URL, or one of the guards has turned it
    away. *)
Lemma crawlUrl_visits_or_refuses fuel link depth st st' :
  crawlUrl fuel link depth st = Some st' →
  depth ≤ s_maxDepth opts →
  link ∈ visitedUrls st'
  ∨ shouldCrawlUrl opts link = false
  ∨ s_maxPages opts ≤ length (visitedUrls st).
Proof.
  destruct fuel as [|fuel]; [done|]. rewrite crawlUrl_unfold. intros Hrun Hdepth.
  destruct (bool_decide (s_maxPages opts ≤ length (visitedUrls st))) eqn:Hsize.
  { apply bool_decide_eq_true in Hsize. by right; right. }
  destruct (bool_decide (link ∈ visitedUrls st)) eqn:Hseen.
  { apply bool_decide_eq_true in Hseen. rewrite orb_true_r in Hrun.
    injection Hrun as <-. by left. }
  rewrite bool_decide_eq_false_2 in Hrun by lia. simpl in Hrun.
  destruct (shouldCrawlUrl opts link) eqn:Hshould; [|by right; left].
  simpl in Hrun. left.
  assert (∀ docs, link ∈ visitedUrls (push_documents docs (visit link st))) as Hin.
  { intros docs. simpl. apply elem_of_app. right. by apply list_elem_of_singleton. }
  destruct (goto link) as [page|msg].
  2:{ injection Hrun as <-. apply (Hin []). }
  simpl in Hrun.
  destruct (bool_decide (depth < s_maxDepth opts)).
  2:{ injection Hrun as <-. apply Hin. }
  destruct (page_links page) as [links|msg].
  2:{ injection Hrun as <-. apply (Hin (page_documents link page)). }
  apply follow_visited_prefix in Hrun as [k ->].
  apply elem_of_app. left. apply Hin.
Qed.

(** The loop over the links of a page goes through all of them. *)
Lemma follow_links_visited fuel depth links st1 st' :
  depth < s_maxDepth opts →
  foldl (follow fuel depth) (Some st1) links = Some st' →
  ∀ link, link ∈ links →
    link ∈ visitedUrls st'
    ∨ shouldCrawlUrl opts link = false
    ∨ s_maxPages opts ≤ length (visitedUrls st').
Proof.
  intros Hdepth. revert st1.
  induction links as [|l rest IH]; intros st1 Hrun link Hlink;
    [by apply elem_of_nil in Hlink|].
  simpl in Hrun.
  destruct (crawlUrl fuel l (depth + 1) (delay st1)) as [st2|] eqn:Hcall;
    [|by rewrite follow_None in Hrun].
  apply elem_of_cons in Hlink as [->|Hlink]; [|by eapply IH].
  pose proof (follow_visited_prefix _ _ _ _ _ Hrun) as Hpre.
  pose proof (crawlUrl_visited_prefix _ _ _ _ _ _ _ _ _ _ _ Hcall) as Hpre1.
  destruct (crawlUrl_visits_or_refuses _ _ _ _ _ Hcall) as [Hin|[Hno|Hfull]];
    [lia| | |].
  - left. destruct Hpre as [k ->]. apply elem_of_app. by left.
  - by right; left.
  - right; right. apply prefix_length in Hpre, Hpre1. simpl in *. lia.
Qed.

(** X12. When the traversal ends, every entry of the error list names a
    visited page and says what went wrong there -- the navigation to that
    page threw, or the query for its links did -- and every visited page
    whose navigation threw has its entry.  A failure does not stop the
    traversal: when the start page has loaded and its links are read,
    every one of the links that are followed from it is visited, unless
    the patterns turn it away or the page cap is reached. *)
Theorem crawl_errors_name_failed_pages :
  ∃ st, crawl_pages (S (s_maxDepth opts)) = Some st
    ∧ (∀ e, e ∈ errors st →
         ∃ u msg, e = "Error crawling " +:+ u +:+ ": " +:+ msg
                  ∧ u ∈ visitedUrls st
                  ∧ page_failure u msg)
    ∧ (∀ u msg, u ∈ visitedUrls st → goto u = Throws msg →
         "Error crawling " +:+ u +:+ ": " +:+ msg ∈ errors st)
    ∧ (∀ page links, domain website ∈ visitedUrls st →
         0 < s_maxDepth opts →
         goto (domain website) = Returns page →
         page_links page = Returns links →
         ∀ link, link ∈ internalLinks links →
           link ∈ visitedUrls st
           ∨ shouldCrawlUrl opts link = false
           ∨ s_maxPages opts ≤ length (visitedUrls st)).
Proof.
  destruct crawl_pages_runs as [st Hst]. exists st. split; [done|]. split_and!.
  - pose (I := λ s : CrawlerState,
      ∀ e, e ∈ errors s →
        ∃ u msg, e = "Error crawling " +:+ u +:+ ": " +:+ msg
                 ∧ u ∈ visitedUrls s ∧ page_failure u msg).
    assert (I new_crawler → I st) as Hstep;
      [|by apply Hstep; intros e ?%elem_of_nil].
    unfold Crawler.crawl_pages in Hst. revert Hst.
    apply (crawlUrl_steps (λ a b, I a → I b)); try done.
    + eauto.
    + intros u a _ _ _ Ha e He. destruct (Ha e He) as (u' & msg & ? & ? & ?).
      exists u', msg. split_and!; [done| |done]. simpl. apply elem_of_app. by left.
    + intros u msg a Hu Hfail Ha e. simpl. rewrite elem_of_app.
      intros [He| ->%list_elem_of_singleton]; [by apply Ha|].
      by exists u, msg.
  - intros u msg Hu Hgoto.
    destruct (crawlUrl_failures_recorded _ _ _ _ _ Hst) as [_ Hrec].
    destruct (Hrec u msg Hu Hgoto) as [Hnil|He]; [|done].
    by apply elem_of_nil in Hnil.
  - intros page links Hstart Hdepth Hgoto Hlinks.
    unfold Crawler.crawl_pages in Hst. rewrite crawlUrl_unfold in Hst.
    destruct (_ || _ || _).
    { injection Hst as <-. by apply elem_of_nil in Hstart. }
    destruct (negb _).
    { injection Hst as <-. by apply elem_of_nil in Hstart. }
    rewrite Hgoto in Hst. simpl in Hst.
    rewrite bool_decide_eq_true_2, Hlinks in Hst by done.
    by eapply follow_links_visited.
Qed.

(** Every URL that a call at [depth] adds is reached from the URL of the
    call by a path of followed links that stays within [maxDepth]. *)
Lemma crawlUrl_visited_depth fuel url depth st st' :
  crawlUrl fuel url depth st = Some st' →
  ∀ v, v ∈ visitedUrls st' →
    v ∈ visitedUrls st
    ∨ ∃ k, depth + k ≤ s_maxDepth opts ∧ link_path k url v.
Proof.
  revert url depth st st'.
  induction fuel as [|fuel IH]; intros url depth st st'; [done|].
  rewrite crawlUrl_unfold.
  destruct (_ || _ || _) eqn:Hguard; [intros [= <-]; auto|].
  apply guard_passed in Hguard as (Hdepth & _ & _).
  destruct (negb _); [intros [= <-]; auto|].
  assert (Hbase : ∀ docs v,
    v ∈ visitedUrls (push_documents docs (visit url st)) →
    v ∈ visitedUrls st ∨ ∃ k, depth + k ≤ s_maxDepth opts ∧ link_path k url v).
  { intros docs v. simpl. rewrite elem_of_app, list_elem_of_singleton.
    intros [?| ->]; [by left|]. right. exists 0. split; [lia|done]. }
  destruct (goto url) as [page|msg] eqn:Hgoto.
  2:{ intros [= <-] v Hv. by apply (Hbase []). }
  simpl.
  destruct (bool_decide (depth < s_maxDepth opts)).
  2:{ intros [= <-] v Hv. by apply Hbase in Hv. }
  destruct (page_links page) as [links|msg] eqn:Hlinks.
  2:{ intros [= <-] v Hv. by apply (Hbase (page_documents url page)). }
  pose proof (Hbase (page_documents url page)) as HQ.
  assert (Hsub : ∀ link, link ∈ internalLinks links →
                         link ∈ internalLinks links) by done.
  revert HQ Hsub.
  generalize (push_documents (page_documents url page) (visit url st)).
  generalize (internalLinks links) at 1 3.
  induction l as [|link rest IHl]; intros st1 HQ Hsub; simpl.
  - intros [= <-]. apply HQ.
  - destruct (crawlUrl fuel link (depth + 1) (delay st1)) as [st2|] eqn:Hcall;
      [|by rewrite follow_None].
    apply IHl.
    + intros v Hv.
      apply (IH _ _ _ _ Hcall) in Hv as [Hv | (k & Hk & Hpath)].
      * by apply HQ.
      * right. exists (S k). split; [lia|].
        exists link. split; [|done].
        exists page, links. split_and!; [done..|]. apply Hsub. by left.
    + intros l' Hl'. apply Hsub. by right.
Qed.

(** X13. The depth cap: every visited URL is reached from the start URL
    by a path of at most [maxDepth] followed links. *)
Theorem crawl_stays_within_maxDepth :
  ∃ st, crawl_pages (S (s_maxDepth opts)) = Some st
    ∧ ∀ v, v ∈ visitedUrls st →
        ∃ k, k ≤ s_maxDepth opts ∧ link_path k (domain website) v.
Proof.
  destruct crawl_pages_runs as [st Hst]. exists st. split; [done|].
  intros v Hv.
  apply (crawlUrl_visited_depth _ _ _ _ _ Hst) in Hv as [Hv|(k & Hk & Hpath)].
  - by apply elem_of_nil in Hv.
  - exists k. split; [lia|done].
Qed.

End crawler.

End TraversalFacts.

(** ** Starting a crawl *)

Module StartCrawlFacts.

Import Database Crawler CrawlerFacts.

(** X14. [startCrawl] itself never writes the database and never touches
    a running crawler; it answers [success: true] exactly when the lookup
    finds an active tenant that is not crawling, and then registers one
    timer (1000 ms, same key and options) and names the job after the
    tenant and the time; otherwise the world is left as it was. *)
Theorem startCrawl_effects w now websiteId options :
  let (result, w') := startCrawl w now websiteId options in
  db w' = db w
  ∧ running w' = running w
  ∧ (start_success result = true ↔
     ∃ website, findByApiKey (db w) websiteId = Returns (Some website)
                ∧ crawl_status website ≠ crawling)
  ∧ (start_success result = true →
     timers w' = timers w ++ [{| timer_delay := 1000;
                                 timer_websiteId := websiteId;
                                 timer_options := options |}]
     ∧ ∃ website, findByApiKey (db w) websiteId = Returns (Some website)
                  ∧ jobId result = Some ("crawl-" +:+ id website +:+ "-" +:+ pretty now))
  ∧ (start_success result = false → w' = w ∧ jobId result = None).
Proof.
  unfold startCrawl.
  destruct (findByApiKey (db w) websiteId) as [[website|]|msg] eqn:Hfind.
  - destruct (decide (crawl_status website = crawling)) as [Hc|Hc]; simpl.
    + split_and!; [done..| |done|done].
      split; [done|]. intros (w0 & [= <-] & ?). done.
    + split_and!; [done..| | |done].
      * split; [|done]. intros _. by exists website.
      * intros _. split; [done|]. by exists website.
  - simpl. split_and!; [done..| |done|done].
    split; [done|]. by intros (w0 & [=] & _).
  - simpl. split_and!; [done..| |done|done].
    split; [done|]. by intros (w0 & [=] & _).
Qed.

(** X15. Nothing marks the tenant as crawling between the request and
    the start of the background job: when a request for a tenant is
    accepted, a second request made before the timer fires is accepted
    as well, and two crawls of the same tenant are pending. *)
Theorem startCrawl_accepts_twice w now1 now2 websiteId options1 options2 website :
  findByApiKey (db w) websiteId = Returns (Some website) →
  crawl_status website ≠ crawling →
  let (first, w1) := startCrawl w now1 websiteId options1 in
  let (second, w2) := startCrawl w1 now2 websiteId options2 in
  start_success first = true
  ∧ start_success second = true
  ∧ db w2 = db w
  ∧ timers w2 = timers w ++ [{| timer_delay := 1000;
                                timer_websiteId := websiteId;
                                timer_options := options1 |};
                             {| timer_delay := 1000;
                                timer_websiteId := websiteId;
                                timer_options := options2 |}].
Proof.
  intros Hfind Hstatus. unfold startCrawl. rewrite Hfind.
  rewrite decide_False by done. simpl. rewrite Hfind.
  rewrite decide_False by done. simpl.
  split_and!; [done..|]. by rewrite <-(assoc_L (++)).
Qed.

Lemma startCrawl_accepts_twice_witness :
  let w := {| db := Fixtures.example_db; timers := []; running := [] |} in
  let (first, w1) := startCrawl w 1700000000000 "key-1" None in
  let (second, w2) := startCrawl w1 1700000000500 "key-1" None in
  start_success first = true
  ∧ start_success second = true
  ∧ db w2 = db w
  ∧ timers w2 = timers w ++ [{| timer_delay := 1000;
                                timer_websiteId := "key-1";
                                timer_options := None |};
                             {| timer_delay := 1000;
                                timer_websiteId := "key-1";
                                timer_options := None |}].
Proof.
  intros w.
  apply (startCrawl_accepts_twice w 1700000000000 1700000000500 "key-1"
           None None Fixtures.example_site).
  - reflexivity.
  - discriminate.
Defined.

End StartCrawlFacts.

(** ** Text clean-up *)

Module CleanFacts.

Import Database Crawler.

Lemma length_rev_app s1 s2 :
  String.length (String.rev_app s1 s2) = String.length s1 + String.length s2.
Proof.
  revert s2. induction s1 as [|c s1 IH]; intros s2; simpl; [done|].
  rewrite IH. simpl. lia.
Qed.

Lemma length_trim_start s : String.length (trim_start s) ≤ String.length s.
Proof.
  induction s as [|c s IH]; simpl; [done|].
  destruct (is_whitespace c); simpl; lia.
Qed.

Lemma length_trim s : String.length (trim s) ≤ String.length s.
Proof.
  unfold trim, String.rev. rewrite length_rev_app. simpl.
  pose proof (length_trim_start (String.rev_app (trim_start s) EmptyString)).
  rewrite length_rev_app in H. simpl in H.
  pose proof (length_trim_start s). lia.
Qed.

Lemma length_collapse_whitespace in_run s :
  String.length (collapse_whitespace in_run s) ≤ String.length s.
Proof.
  revert in_run. induction s as [|c s IH]; intros in_run; simpl; [done|].
  destruct (is_whitespace c); [destruct in_run|]; simpl;
    [specialize (IH true) | specialize (IH true) | specialize (IH false)]; lia.
Qed.

Lemma length_collapse_newlines in_run s :
  String.length (collapse_newlines in_run s) ≤ String.length s.
Proof.
  revert in_run. induction s as [|c s IH]; intros in_run; simpl; [done|].
  destruct (Ascii.eqb _ _); [destruct in_run|]; simpl;
    [specialize (IH true) | specialize (IH true) | specialize (IH false)]; lia.
Qed.

Lemma length_clean s : String.length (clean s) ≤ String.length s.
Proof.
  unfold clean.
  pose proof (length_trim (collapse_newlines false (collapse_whitespace false s))).
  pose proof (length_collapse_newlines false (collapse_whitespace false s)).
  pose proof (length_collapse_whitespace false s). lia.
Qed.

(** X16. Cleaning never lengthens a text, so a page whose extracted text
    has 100 characters or fewer contributes no document, whatever the
    splitter would make of it. *)
Theorem short_extract_gives_no_documents website splitText timestamp url page :
  String.length (extract page) ≤ 100 →
  String.length (clean (extract page)) ≤ String.length (extract page)
  ∧ page_documents website splitText timestamp url page = [].
Proof.
  intros Hlen. pose proof (length_clean (extract page)) as Hc.
  split; [done|]. unfold page_documents. rewrite decide_False by lia. done.
Qed.

Lemma short_extract_gives_no_documents_witness :
  String.length (clean (extract Fixtures.short_page))
    ≤ String.length (extract Fixtures.short_page)
  ∧ page_documents Fixtures.example_site splitText_identity
      "2024-01-01T00:00:00.000Z" "https://example.com" Fixtures.short_page = [].
Proof.
  apply (short_extract_gives_no_documents Fixtures.example_site splitText_identity
           "2024-01-01T00:00:00.000Z" "https://example.com" Fixtures.short_page).
  vm_compute. lia.
Defined.

End CleanFacts.

(** ** A whole crawl *)

Module CrawlRunFacts.

Import Database DatabaseOps Crawler CrawlRun JsFacts CrawlerFacts RagFacts
  TraversalFacts.

(** *** The statements that write *)

Lemma updateCrawlStatus_ok d websiteId status :
  connect_error d = None →
  ∃ d', updateCrawlStatus d websiteId status = Returns d'
        ∧ documents d' = documents d
        ∧ connect_error d' = None
        ∧ websites d' =
            (λ w, if decide (id w = websiteId) then with_status status w else w)
            <$> websites d.
Proof.
  intros Hc. unfold updateCrawlStatus, query. rewrite Hc. by eexists.
Qed.

Lemma updateCrawlStatus_down d websiteId status msg :
  connect_error d = Some msg → updateCrawlStatus d websiteId status = Throws msg.
Proof. intros Hc. unfold updateCrawlStatus, query. by rewrite Hc. Qed.

Lemma deleteByWebsiteId_ok d websiteId :
  connect_error d = None →
  ∃ d', deleteByWebsiteId d websiteId = Returns d'
        ∧ websites d' = websites d
        ∧ connect_error d' = None
        ∧ documents d' = filter (λ doc, website_id doc ≠ websiteId) (documents d).
Proof.
  intros Hc. unfold deleteByWebsiteId, query. rewrite Hc. by eexists.
Qed.

Lemma filter_with_status (P : Website → Prop) `{!∀ w, Decision (P w)}
    websiteId status (ws : list Website) :
  (∀ w, P w → id w ≠ websiteId) →
  filter P ((λ w, if decide (id w = websiteId) then with_status status w else w)
            <$> ws)
  = filter P ws.
Proof.
  intros HP. induction ws as [|w ws IH]; [done|].
  rewrite fmap_cons, !filter_cons, IH.
  destruct (decide (id w = websiteId)) as [Heq|Hne].
  - rewrite decide_False; [|by intros ?%HP].
    rewrite decide_False; [done|by intros ?%HP].
  - done.
Qed.

(** X17. [deleteByWebsiteId] removes every document of the tenant and
    nothing else: afterwards no document carries the tenant's id, and the
    documents of the other tenants are there as before, in order. *)
Theorem deleteByWebsiteId_only_that_tenant d websiteId d' :
  deleteByWebsiteId d websiteId = Returns d' →
  (∀ doc, doc ∈ documents d' → website_id doc ≠ websiteId)
  ∧ filter (λ doc, website_id doc ≠ websiteId) (documents d')
    = filter (λ doc, website_id doc ≠ websiteId) (documents d)
  ∧ documents d' `sublist_of` documents d
  ∧ websites d' = websites d.
Proof.
  unfold deleteByWebsiteId, query.
  destruct (connect_error d); [done|]. intros [= <-]. simpl. split_and!.
  - intros doc Hdoc. by apply list_elem_of_filter in Hdoc as [? _].
  - by apply list_filter_filter_l.
  - apply sublist_filter.
  - done.
Qed.

(** X18. [updateCrawlStatus] changes the status of the rows with the
    given id and of no other row; it keeps the number and order of the
    tenants and does not touch the documents. *)
Theorem updateCrawlStatus_only_that_tenant d websiteId status d' :
  updateCrawlStatus d websiteId status = Returns d' →
  documents d' = documents d
  ∧ length (websites d') = length (websites d)
  ∧ ∀ i w, websites d !! i = Some w →
      ∃ w', websites d' !! i = Some w'
            ∧ id w' = id w ∧ domain w' = domain w ∧ api_key w' = api_key w
            ∧ is_active w' = is_active w
            ∧ (id w = websiteId → crawl_status w' = status)
            ∧ (id w ≠ websiteId → w' = w).
Proof.
  unfold updateCrawlStatus, query.
  destruct (connect_error d); [done|]. intros [= <-]. simpl.
  split_and!; [done | by rewrite length_fmap |].
  intros i w Hi. rewrite list_lookup_fmap, Hi. simpl. eexists. split; [done|].
  destruct (decide (id w = websiteId)); simpl; split_and!; done.
Qed.

Section run.

Variable website : Website.
Variable opts : Settings.
Variable goto : string → outcome Page.
Variable splitText : string → list string.
Variable hostname : string → option string.
Variable timestamp : string.
Variable embedContent : string → outcome Rag.EmbedContentResponse.
Variable row_error : Db → Document → option string.
Variable launch : outcome unit.
Variable close : outcome unit.

#[local] Abbreviation crawl_pages :=
  (crawl_pages website opts goto splitText hostname timestamp).
#[local] Abbreviation save_documents := (save_documents row_error).
#[local] Abbreviation processDocuments := (processDocuments embedContent row_error).
#[local] Abbreviation crawl_failed := (crawl_failed website).
#[local] Abbreviation crawl :=
  (crawl website opts goto splitText hostname timestamp embedContent row_error
     launch close).

Lemma create_Returns d doc x d' :
  create row_error d doc = Returns (x, d') →
  x = doc ∧ websites d' = websites d ∧ connect_error d' = connect_error d
  ∧ documents d' = documents d ++ [doc].
Proof.
  unfold create. destruct (connect_error d) eqn:Hc; [done|].
  destruct (row_error d doc); [done|]. by intros [= <- <-].
Qed.

Lemma imap_shift (embeddings : list vector) i (docs : list Document) :
  imap (λ j doc, with_embedding (embeddings !! (i + 1 + j)) doc) docs
  = imap ((λ j doc, with_embedding (embeddings !! (i + j)) doc) ∘ S) docs.
Proof. apply imap_ext. intros j x _. simpl. do 2 f_equal. lia. Qed.

(** What the saving loop does to the database: it appends the documents
    that were accepted, each with the embedding of its position. *)
Lemma save_documents_spec embeddings i docs s :
  ∃ created,
    documents (save_db (save_documents embeddings i docs s))
      = documents (save_db s) ++ created
    ∧ websites (save_db (save_documents embeddings i docs s)) = websites (save_db s)
    ∧ connect_error (save_db (save_documents embeddings i docs s))
        = connect_error (save_db s)
    ∧ createdCount (save_documents embeddings i docs s)
        = createdCount s + length created
    ∧ created `sublist_of`
        imap (λ j doc, with_embedding (embeddings !! (i + j)) doc) docs
    ∧ length (save_errors (save_documents embeddings i docs s)) + length created
        = length (save_errors s) + length docs
    ∧ save_errors s `prefix_of` save_errors (save_documents embeddings i docs s)
    ∧ (connect_error (save_db s) = None →
       (∀ d0 doc, row_error d0 doc = None) →
       created = imap (λ j doc, with_embedding (embeddings !! (i + j)) doc) docs).
Proof.
  revert i s. induction docs as [|doc docs IH]; intros i s.
  - exists []. simpl. rewrite app_nil_r. repeat split; (done || lia).
  - cbn [CrawlRun.save_documents]. rewrite imap_cons, <-imap_shift.
    replace (i + 0) with i by lia.
    destruct (create row_error (save_db s) (with_embedding (embeddings !! i) doc))
      as [[x d']|msg] eqn:Hcreate.
    + apply create_Returns in Hcreate as (_ & Hws' & Hce' & Hdocs').
      destruct (IH (i + 1)
          {| save_db := d'; save_errors := save_errors s;
             createdCount := createdCount s + 1 |})
        as (created & Hdocs & Hws & Hce & Hcount & Hsub & Herrs & Hpre & Hall).
      exists (with_embedding (embeddings !! i) doc :: created).
      simpl in Hdocs, Hws, Hce, Hcount, Herrs, Hpre, Hall.
      split; [by rewrite Hdocs, Hdocs', <-(assoc_L (++))|].
      split; [by rewrite Hws|].
      split; [by rewrite Hce|].
      split; [rewrite Hcount; simpl; lia|].
      split; [by apply sublist_skip|].
      split; [simpl; lia|]. split; [done|].
      intros Hc Hrows. f_equal. apply Hall; [congruence|done].
    + destruct (IH (i + 1)
          {| save_db := save_db s;
             save_errors := save_errors s ++ ["Error saving document: " +:+ msg];
             createdCount := createdCount s |})
        as (created & Hdocs & Hws & Hce & Hcount & Hsub & Herrs & Hpre & Hall).
      exists created.
      simpl in Hdocs, Hws, Hce, Hcount, Herrs, Hpre, Hall.
      split; [done|]. split; [done|]. split; [done|]. split; [done|].
      split; [by apply sublist_cons|].
      split; [rewrite Herrs, length_app; simpl; lia|].
      split; [etrans; [|exact Hpre]; by apply prefix_app_r|].
      intros Hc Hrows. unfold create in Hcreate.
      by rewrite Hc, Hrows in Hcreate.
Qed.

(** The pending documents of a crawl all carry the tenant's id. *)
Lemma crawl_pages_documents_tenant fuel st :
  crawl_pages fuel = Some st →
  ∀ doc, doc ∈ documentsToCreate st → website_id doc = id website.
Proof.
  pose (I := λ s : CrawlerState,
    ∀ doc, doc ∈ documentsToCreate s → website_id doc = id website).
  intros Hst.
  assert (I new_crawler → I st) as Hstep; [|by apply Hstep; intros d ?%elem_of_nil].
  unfold Crawler.crawl_pages in Hst. revert Hst.
  apply (crawlUrl_steps website opts goto splitText hostname timestamp
           (λ a b, I a → I b)); try done.
  - eauto.
  - intros u page a _ _ Ha doc. simpl. rewrite elem_of_app.
    intros [Hd|Hd]; [by apply Ha|].
    unfold Crawler.page_documents in Hd.
    destruct (decide _); [|by apply elem_of_nil in Hd].
    by apply elem_of_lookup_imap in Hd as (i & chunk & -> & _).
Qed.

(** What [processDocuments] does: the accepted documents are appended to
    the table, each with the embedding computed from its own content. *)
Lemma processDocuments_spec d st :
  ∃ count d' st' created,
    processDocuments d st = Some (count, d', st')
    ∧ documents d' = documents d ++ created
    ∧ websites d' = websites d
    ∧ connect_error d' = connect_error d
    ∧ count = length created
    ∧ count ≤ length (documentsToCreate st)
    ∧ visitedUrls st' = visitedUrls st
    ∧ errors st `prefix_of` errors st'
    ∧ (∀ c, c ∈ created →
        ∃ doc v, doc ∈ documentsToCreate st
                 ∧ c = with_embedding (Some v) doc
                 ∧ Rag.createEmbedding embedContent (content doc) = Returns v)
    ∧ (connect_error d = None →
       (∀ d0 doc, row_error d0 doc = None) →
       Forall2 (λ c doc, ∃ v, Rag.createEmbedding embedContent (content doc) = Returns v
                              ∧ c = with_embedding (Some v) doc)
               created (documentsToCreate st)).
Proof.
  unfold CrawlRun.processDocuments.
  destruct (decide (length (documentsToCreate st) = 0)) as [Hz|Hnz].
  { exists 0, d, st, []. rewrite app_nil_r.
    split_and!; [done..|lia|done|done| |].
    - intros c Hc. by apply elem_of_nil in Hc.
    - intros _ _. apply nil_length_inv in Hz. rewrite Hz. constructor. }
  destruct (batch_loop_spec embedContent
              (S (length (content <$> documentsToCreate st)))
              (content <$> documentsToCreate st) 0
              {| Rag.embeddings := []; Rag.log := [] |})
    as (vs & batches & Hrun & Hvs & _ & _); [lia|].
  simpl in Hvs.
  unfold Rag.createEmbeddingsBatch, Rag.createEmbeddingsBatch_run. rewrite Hrun.
  cbn [Rag.embeddings app].
  destruct (save_documents_spec vs 0 (documentsToCreate st)
              {| save_db := d; save_errors := errors st; createdCount := 0 |})
    as (created & Hdocs & Hws & Hce & Hcount & Hsub & Herrs & Hpre & Hall).
  simpl in Hdocs, Hws, Hce, Hcount, Herrs, Hpre, Hall.
  assert (Hvector : ∀ j doc, documentsToCreate st !! j = Some doc →
            ∃ v, vs !! j = Some v
                 ∧ Rag.createEmbedding embedContent (content doc) = Returns v).
  { intros j doc Hj.
    assert ((content <$> documentsToCreate st) !! j = Some (content doc)) as Hj'.
    { by rewrite list_lookup_fmap, Hj. }
    by destruct (Forall2_lookup_l _ _ _ _ _ Hvs Hj') as (v & Hv & Hcreate);
      exists v. }
  eexists _, _, _, created. split; [reflexivity|].
  split; [done|]. split; [done|]. split; [done|]. split; [done|].
  split.
  { rewrite Hcount. apply sublist_length in Hsub.
    rewrite length_imap in Hsub. lia. }
  split; [done|]. split; [done|]. split.
  - intros c Hc.
    assert (c ∈ imap (λ j doc, with_embedding (vs !! (0 + j)) doc)
                     (documentsToCreate st)) as Hin.
    { by eapply elem_of_sublist. }
    apply elem_of_lookup_imap in Hin as (j & doc & -> & Hj).
    destruct (Hvector j doc Hj) as (v & Hv & Hcreate).
    exists doc, v. split; [by eapply list_elem_of_lookup_2|].
    split; [|done]. change (0 + j) with j. by rewrite Hv.
  - intros Hc Hrows. rewrite (Hall Hc Hrows).
    apply Forall2_same_length_lookup_2; [by rewrite length_imap|].
    intros j c doc Hc' Hdoc. rewrite list_lookup_imap, Hdoc in Hc'.
    injection Hc' as <-. destruct (Hvector j doc Hdoc) as (v & Hv & Hcreate).
    exists v. split; [done|]. change (0 + j) with j. by rewrite Hv.
Qed.

Lemma with_status_twice status1 status2 (ws : list Website) :
  (λ w, if decide (id w = id website) then with_status status2 w else w)
  <$> ((λ w, if decide (id w = id website) then with_status status1 w else w)
       <$> ws)
  = (λ w, if decide (id w = id website) then with_status status2 w else w) <$> ws.
Proof.
  rewrite <-list_fmap_compose. apply list_fmap_ext. intros i w _. simpl.
  destruct (decide (id w = id website)) as [Heq|Hne]; simpl.
  - by rewrite decide_True.
  - by rewrite decide_False.
Qed.

(** The shape of every crawl against a reachable database. *)
Lemma crawl_spec d :
  connect_error d = None →
  ∃ res d' created,
    crawl (S (s_maxDepth opts)) d = Some (Returns (res, d'))
    ∧ documents d'
        = filter (λ doc, website_id doc ≠ id website) (documents d) ++ created
    ∧ websites d'
        = (λ w, if decide (id w = id website)
                then with_status (if success res then completed else failed) w
                else w) <$> websites d
    ∧ connect_error d' = None
    ∧ documentsCreated res = length created
    ∧ pagesProcessed res ≤ s_maxPages opts
    ∧ (success res = true ↔ resolves launch ∧ resolves close)
    ∧ (∀ msg, launch = Throws msg →
         res = {| success := false; pagesProcessed := 0; documentsCreated := 0;
                  result_errors := ["General crawl error: " +:+ msg] |})
    ∧ (∀ st, crawl_pages (S (s_maxDepth opts)) = Some st →
         resolves launch →
         pagesProcessed res = length (visitedUrls st)
         ∧ length created ≤ length (documentsToCreate st))
    ∧ (∀ c, c ∈ created →
        website_id c = id website
        ∧ ∃ v, embedding c = Some v
               ∧ Rag.createEmbedding embedContent (content c) = Returns v)
    ∧ (∀ st, crawl_pages (S (s_maxDepth opts)) = Some st →
         ∀ c, c ∈ created →
           ∃ doc v, doc ∈ documentsToCreate st
                    ∧ Rag.createEmbedding embedContent (content doc) = Returns v
                    ∧ c = with_embedding (Some v) doc)
    ∧ (∀ st, crawl_pages (S (s_maxDepth opts)) = Some st →
         resolves launch → resolves close →
         (∀ d0 doc, row_error d0 doc = None) →
         Forall2 (λ c doc,
                    ∃ v, Rag.createEmbedding embedContent (content doc) = Returns v
                         ∧ c = with_embedding (Some v) doc)
                 created (documentsToCreate st)).
Proof.
  intros Hc. unfold CrawlRun.crawl.
  destruct (updateCrawlStatus_ok d (id website) crawling Hc)
    as (d1 & -> & Hdocs1 & Hc1 & Hws1).
  destruct (deleteByWebsiteId_ok d1 (id website) Hc1)
    as (d2 & -> & Hws2 & Hc2 & Hdocs2).
  rewrite Hdocs1 in Hdocs2. rewrite Hws1 in Hws2.
  assert (Hfail : ∀ st msg,
    length (visitedUrls st) ≤ s_maxPages opts →
    ∃ d', crawl_failed d2 st msg =
            Returns ({| success := false;
                        pagesProcessed := length (visitedUrls st);
                        documentsCreated := 0;
                        result_errors := errors st ++ ["General crawl error: " +:+ msg] |},
                     d')
          ∧ documents d' = filter (λ doc, website_id doc ≠ id website) (documents d)
          ∧ websites d' = (λ w, if decide (id w = id website)
                                then with_status failed w else w) <$> websites d
          ∧ connect_error d' = None).
  { intros st msg _. unfold CrawlRun.crawl_failed.
    destruct (updateCrawlStatus_ok d2 (id website) failed Hc2)
      as (d' & -> & Hdocs' & Hc' & Hws').
    exists d'. simpl. split; [done|].
    rewrite Hdocs', Hws', Hws2, with_status_twice. done. }
  destruct (crawl_pages_runs website opts goto splitText hostname timestamp)
    as [st Hst].
  assert (length (visitedUrls st) ≤ s_maxPages opts) as Hbound.
  { unfold Crawler.crawl_pages in Hst.
    eapply crawlUrl_visited_bound in Hst; simpl in *; lia. }
  remember launch as l eqn:Hl. destruct l as [u|msg].
  2:{ destruct (Hfail new_crawler msg) as (d' & -> & Hd' & Hw' & Hc'); [simpl; lia|].
      exists {| success := false; pagesProcessed := 0; documentsCreated := 0;
                result_errors := ["General crawl error: " +:+ msg] |}, d', [].
      simpl. rewrite app_nil_r.
      split; [done|]. split; [done|]. split; [done|]. split; [done|].
      split; [done|]. split; [lia|].
      split. { split; [done|]. intros [[? ?] _]. done. }
      split. { by intros ? [= <-]. }
      split. { intros ? _ [? ?]. done. }
      split. { intros c Hc0. by apply elem_of_nil in Hc0. }
      split. { intros ? _ c Hc0. by apply elem_of_nil in Hc0. }
      intros ? _ [? ?]. done. }
  rewrite Hst. simpl.
  remember close as cl eqn:Hcl. destruct cl as [u'|msg].
  2:{ destruct (Hfail st msg Hbound) as (d' & -> & Hd' & Hw' & Hc').
      eexists _, d', []. simpl. rewrite app_nil_r.
      split; [done|]. split; [done|]. split; [done|]. split; [done|].
      split; [done|]. split; [done|].
      split. { split; [done|]. intros [_ [? ?]]. done. }
      split. { intros ? [=]. }
      split. { intros st0 Hst0 _. assert (st0 = st) as -> by congruence.
               split; [done|]. simpl. lia. }
      split. { intros c Hc0. by apply elem_of_nil in Hc0. }
      split. { intros ? _ c Hc0. by apply elem_of_nil in Hc0. }
      intros ? _ _ [? ?]. done. }
  destruct (processDocuments_spec d2 st)
    as (count & d3 & st' & created & -> & Hdocs3 & Hws3 & Hc3 & -> & Hle
        & Hvis & _ & Hcreated & Hall).
  simpl. rewrite Hc2 in Hc3.
  destruct (updateCrawlStatus_ok d3 (id website) completed Hc3)
    as (d4 & -> & Hdocs4 & Hc4 & Hws4).
  eexists _, d4, created. simpl.
  split; [done|].
  split; [by rewrite Hdocs4, Hdocs3, Hdocs2|].
  split; [by rewrite Hws4, Hws3, Hws2, with_status_twice|].
  split; [done|]. split; [done|].
  split; [by rewrite Hvis|].
  split. { split; [|done]. intros _. split; by eexists. }
  split. { intros ? [=]. }
  split. { intros st0 Hst0 _. assert (st0 = st) as -> by congruence.
           by rewrite Hvis. }
  split.
  { intros c Hc0. destruct (Hcreated c Hc0) as (doc & v & Hdoc & -> & Hv).
    simpl. split; [by eapply crawl_pages_documents_tenant|]. by exists v. }
  split.
  { intros st0 Hst0 c Hc0. assert (st0 = st) as -> by congruence.
    destruct (Hcreated c Hc0) as (doc & v & Hdoc & -> & Hv). by exists doc, v. }
  intros st0 Hst0 _ _ Hrows. assert (st0 = st) as -> by congruence.
  by apply Hall.
Qed.

(** X19. A crawl against a reachable database always resolves, and it
    replaces the tenant's index by what it has found.  Afterwards the
    table holds the documents of the other tenants followed by the
    documents that this crawl created, and nothing else: none of the
    tenant's earlier rows is kept.  The tenant has exactly
    [documentsCreated] documents; each of them is a pending document of
    this traversal (a chunk of a visited page) with the embedding that
    [createEmbedding] computes from its content.  When the browser
    starts and closes and no row is refused, the crawl reports success
    and every pending document is stored, in order.  The crawl visited
    at most [maxPages] pages. *)
Theorem crawl_replaces_tenant_documents d :
  connect_error d = None →
  ∃ res d' st created,
    crawl (S (s_maxDepth opts)) d = Some (Returns (res, d'))
    ∧ crawl_pages (S (s_maxDepth opts)) = Some st
    ∧ pagesProcessed res ≤ s_maxPages opts
    ∧ documents d'
        = filter (λ doc, website_id doc ≠ id website) (documents d) ++ created
    ∧ filter (λ doc, website_id doc = id website) (documents d') = created
    ∧ length created = documentsCreated res
    ∧ (∀ c, c ∈ created →
         ∃ doc v, doc ∈ documentsToCreate st
                  ∧ Rag.createEmbedding embedContent (content doc) = Returns v
                  ∧ c = with_embedding (Some v) doc)
    ∧ (resolves launch → resolves close →
       (∀ d0 doc, row_error d0 doc = None) →
       success res = true
       ∧ Forall2 (λ c doc,
                    ∃ v, Rag.createEmbedding embedContent (content doc) = Returns v
                         ∧ c = with_embedding (Some v) doc)
                 created (documentsToCreate st)).
Proof.
  intros Hc.
  destruct (crawl_spec d Hc)
    as (res & d' & created & Hrun & Hdocs & _ & _ & Hcount & Hpages & Hsuccess
        & _ & _ & Hcreated & Hpending & Hall).
  destruct (crawl_pages_runs website opts goto splitText hostname timestamp)
    as [st Hst].
  exists res, d', st, created.
  split; [done|]. split; [done|]. split; [done|]. split; [done|]. split.
  { rewrite Hdocs, filter_app.
    rewrite (filter_none _ (filter _ (documents d))), app_nil_l.
    + apply filter_all. apply Forall_forall. intros c Hin.
      by apply Hcreated.
    + apply Forall_forall. intros doc Hin.
      apply list_elem_of_filter in Hin as [Hne _]. by intros ?. }
  split; [done|]. split; [by apply Hpending|].
  intros Hlaunch Hclose Hrows. split; [by apply Hsuccess|]. by apply Hall.
Qed.

(** X20. A crawl does not touch the other tenants: their documents are
    in the table as before and their rows in [websites] are unchanged;
    the crawled tenant is left [completed] when the crawl succeeded and
    [failed] otherwise, never [crawling]. *)
Theorem crawl_leaves_other_tenants d :
  connect_error d = None →
  ∃ res d',
    crawl (S (s_maxDepth opts)) d = Some (Returns (res, d'))
    ∧ filter (λ doc, website_id doc ≠ id website) (documents d')
      = filter (λ doc, website_id doc ≠ id website) (documents d)
    ∧ length (websites d') = length (websites d)
    ∧ ∀ i w, websites d !! i = Some w →
        ∃ w', websites d' !! i = Some w'
              ∧ (id w ≠ id website → w' = w)
              ∧ (id w = id website →
                 crawl_status w' = if success res then completed else failed).
Proof.
  intros Hc.
  destruct (crawl_spec d Hc)
    as (res & d' & created & Hrun & Hdocs & Hws & _ & _ & _ & _ & _ & _ & Hcreated
        & _).
  exists res, d'. split; [done|]. split.
  - rewrite Hdocs, filter_app, list_filter_filter_l by done.
    rewrite (filter_none _ created), app_nil_r; [done|].
    apply Forall_forall. intros c Hin Hne. by destruct (Hcreated c Hin).
  - split; [by rewrite Hws, length_fmap|].
    intros i w Hi. rewrite Hws, list_lookup_fmap, Hi. simpl.
    eexists. split; [done|].
    destruct (decide (id w = id website)); simpl; split; done.
Qed.

(** X21. When the browser cannot be started the crawl reports
    [success: false] with the one error and no page or document, marks
    the tenant [failed] -- and has already emptied the tenant's index. *)
Theorem crawl_launch_failure_wipes_index d msg :
  connect_error d = None →
  launch = Throws msg →
  ∃ d',
    crawl (S (s_maxDepth opts)) d =
      Some (Returns ({| success := false; pagesProcessed := 0;
                        documentsCreated := 0;
                        result_errors := ["General crawl error: " +:+ msg] |}, d'))
    ∧ filter (λ doc, website_id doc = id website) (documents d') = []
    ∧ ∀ w, w ∈ websites d' → id w = id website → crawl_status w = failed.
Proof.
  intros Hc Hl.
  destruct (crawl_spec d Hc)
    as (res & d' & created & Hrun & Hdocs & Hws & _ & Hcount & _ & _ & Hres & _ & _
        & _).
  specialize (Hres msg Hl). subst res. simpl in *.
  exists d'. split; [done|].
  destruct created; [|done]. rewrite app_nil_r in Hdocs. split.
  - rewrite Hdocs. apply filter_none, Forall_forall. intros doc Hin.
    apply list_elem_of_filter in Hin as [Hne _]. by intros ?.
  - intros w Hw Hid. rewrite Hws in Hw.
    apply list_elem_of_fmap in Hw as (w0 & -> & _).
    destruct (decide (id w0 = id website)) as [|Hne]; [done|].
    by destruct Hne.
Qed.

(** X22. When the database cannot be reached, [crawl] rejects: the
    status update in its [catch] block throws in turn. *)
Theorem crawl_rejects_when_database_down fuel d msg :
  connect_error d = Some msg →
  crawl fuel d = Some (Throws msg).
Proof.
  intros Hc. unfold CrawlRun.crawl.
  rewrite (updateCrawlStatus_down _ _ _ _ Hc).
  unfold CrawlRun.crawl_failed.
  by rewrite (updateCrawlStatus_down _ _ _ _ Hc).
Qed.

End run.

End CrawlRunFacts.

(** ** The HTTP endpoints *)

Module RouteFacts.

Import Database Crawler ChatRoute CrawlRoute JsFacts CrawlerFacts.

(** X23. The crawl endpoint reports every outcome of [startCrawl] with
    status 200: a request that names a tenant gets 200 and the result
    object as body, also when the crawl is refused -- for a tenant that
    is already crawling the answer is 200 with [success: false], and
    nothing changes.  Only a missing id (400) or an unreadable body (500)
    change the status, and neither changes any state. *)
Theorem crawl_POST_statuses w now (request_json : outcome (option CrawlBody)) :
  (rejects request_json ∨ request_json = Returns None →
   POST w now request_json =
   ({| status := 500; headers := [];
       body := JObj [("error", JStr "Internal server error")] |}, w))
  ∧ (∀ b, request_json = Returns (Some b) → truthy (body_websiteId b) = false →
     POST w now request_json =
     ({| status := 400; headers := [];
         body := JObj [("error", JStr "Website ID is required")] |}, w))
  ∧ (∀ b websiteId, request_json = Returns (Some b) →
     body_websiteId b = Some websiteId → websiteId ≠ EmptyString →
     let (result, w') := startCrawl w now websiteId (body_options b) in
     POST w now request_json =
       ({| status := 200; headers := []; body := start_result_json result |}, w')
     ∧ field "success" (start_result_json result) = Some (JBool (start_success result))
     ∧ field "message" (start_result_json result) = Some (JStr (start_message result))
     ∧ (∀ website, findByApiKey (db w) websiteId = Returns (Some website) →
          crawl_status website = crawling →
          start_success result = false ∧ w' = w)).
Proof.
  split_and!.
  - intros [[msg ->]| ->]; done.
  - intros b -> Hfalsy. unfold POST. simpl. by rewrite Hfalsy.
  - intros b websiteId -> Hid Hne.
    destruct (startCrawl w now websiteId (body_options b)) as [result w'] eqn:Hstart.
    unfold POST. simpl. rewrite Hid. simpl.
    rewrite bool_decide_eq_false_2 by done. simpl. rewrite Hstart.
    split_and!; [done..|].
    intros website Hfind Hstatus.
    rewrite (startCrawl_resolved_crawling _ _ _ _ _ Hfind Hstatus) in Hstart.
    by injection Hstart as <- <-.
Qed.

(** X24. The crawl-status endpoint never answers 200.  It answers 400
    without a tenant id and 404 when no active tenant has that key; for
    a tenant that exists it reaches the call [db.query], which the [db]
    object does not have, and answers 500 like for any other failure. *)
Theorem crawl_status_GET_never_succeeds d websiteId :
  status (GET d websiteId) ≠ 200
  ∧ (status (GET d websiteId) = 400 ↔ truthy websiteId = false)
  ∧ (status (GET d websiteId) = 404 ↔
     truthy websiteId = true
     ∧ findByApiKey d (default EmptyString websiteId) = Returns None)
  ∧ (∀ website, truthy websiteId = true →
     findByApiKey d (default EmptyString websiteId) = Returns (Some website) →
     GET d websiteId =
     {| status := 500; headers := [];
        body := JObj [("error", JStr "Internal server error")] |}).
Proof.
  unfold GET. destruct (truthy websiteId) eqn:Ht; simpl.
  - destruct (findByApiKey d (default EmptyString websiteId)) as [[website|]|msg];
      simpl; split_and!; try done.
    + split; [done|]. by intros [_ [=]].
    + split; [done|]. by intros [_ [=]].
  - split_and!; try done. split; [done|]. by intros [[=] _].
Qed.

Section chat.

Variable apiKey : option string.
Variable gemini : string → string → outcome GeminiData.
Variable Date_now : nat → N.

#[local] Abbreviation generateGeminiResponse :=
  (generateGeminiResponse apiKey gemini).
#[local] Abbreviation chat_POST := (ChatRoute.POST apiKey gemini Date_now).

(** X25. [generateGeminiResponse] never rejects.  When the key is
    configured and the provider's answer has a first candidate with
    content and a first part, the result is the text of that part
    ([undefined] when the part has no text).  In every other case -- no
    key, the call throws, no candidate, a candidate without content,
    content without parts -- it is the fixed apology. *)
Theorem generateGeminiResponse_text_or_apology message :
  resolves (generateGeminiResponse message)
  ∧ (∀ key data candidate rest content p ps,
       apiKey = Some key → key ≠ EmptyString →
       gemini key (gemini_prompt message) = Returns data →
       candidates data = Some (candidate :: rest) →
       candidate_content candidate = Some content →
       parts content = Some (p :: ps) →
       generateGeminiResponse message = Returns (part_text p))
  ∧ (truthy apiKey = false
     ∨ (∃ key, apiKey = Some key ∧ key ≠ EmptyString
               ∧ (rejects (gemini key (gemini_prompt message))
                  ∨ ∃ data, gemini key (gemini_prompt message) = Returns data
                            ∧ malformed data)) →
     generateGeminiResponse message = Returns (Some gemini_fallback))
  ∧ (∀ key data, apiKey = Some key → key ≠ EmptyString →
       gemini key (gemini_prompt message) = Returns data →
       malformed data
       ∨ ∃ candidate rest content p ps,
           candidates data = Some (candidate :: rest)
           ∧ candidate_content candidate = Some content
           ∧ parts content = Some (p :: ps)).
Proof.
  split_and!.
  - apply ChatRouteFacts.generateGeminiResponse_resolves.
  - apply ChatRouteFacts.generateGeminiResponse_first_part.
  - apply ChatRouteFacts.generateGeminiResponse_apology.
  - intros key data _ _ _. unfold malformed.
    destruct (candidates data) as [[|candidate rest]|]; [by left; right; left| |by left; left].
    destruct (candidate_content candidate) as [content|] eqn:Hcontent.
    + destruct (parts content) as [[|p ps]|] eqn:Hparts.
      * left. right. right. exists candidate, rest. split; [done|].
        right. exists content. split; [done|]. by right.
      * right. by exists candidate, rest, content, p, ps.
      * left. right. right. exists candidate, rest. split; [done|].
        right. exists content. split; [done|]. by left.
    + left. right. right. exists candidate, rest. split; [done|]. by left.
Qed.

(** X26. The chat endpoint always resolves, with status 200, 400 or 500.
    It answers 500 exactly when the body cannot be read (invalid JSON, or
    [null]), and then the body is the fixed apology with type [error]:
    nothing of the error itself is sent. *)
Theorem chat_POST_statuses (request_json : outcome (option Body)) :
  ∃ resp, chat_POST request_json = Returns resp
    ∧ (status resp = 200 ∨ status resp = 400 ∨ status resp = 500)
    ∧ (status resp = 500 ↔ rejects request_json ∨ request_json = Returns None)
    ∧ (status resp = 500 →
       resp = {| status := 500; headers := corsHeaders;
                 body := JObj
                   [("content", JStr "Maaf, terjadi kesalahan sistem. Silakan coba lagi dalam beberapa saat.");
                    ("type", JStr "error");
                    ("timestamp", JNum (Date_now 0))] |}).
Proof.
  unfold ChatRoute.POST.
  destruct request_json as [[b|]|msg]; simpl.
  - destruct (truthy (message b)) eqn:Ht; simpl.
    + destruct (ChatRouteFacts.generateGeminiResponse_resolves apiKey gemini
                  (default EmptyString (message b))) as [c ->].
      simpl. eexists. split; [done|]. simpl. split_and!; [by left| |done].
      split; [done|]. intros [[? [=]]|[=]].
    + eexists. split; [done|]. simpl. split_and!; [by right; left| |done].
      split; [done|]. intros [[? [=]]|[=]].
  - eexists. split; [done|]. simpl. split_and!; [by right; right| |done].
    split; [|done]. intros _. by right.
  - eexists. split; [done|]. simpl. split_and!; [by right; right| |done].
    split; [|done]. intros _. left. by exists msg.
Qed.

End chat.

End RouteFacts.

(** ** Messages on a socket *)

Module ChatSocketFacts.

Import Database Rag ChatRoute ChatSocket JsFacts RagFacts.

Lemma drop_last_snoc {A} (l : list A) x : drop_last (l ++ [x]) = l.
Proof.
  unfold drop_last. rewrite length_app. simpl.
  replace (length l + 1 - 1) with (length l) by lia. apply take_app_length.
Qed.

(** The history that the handler builds from the ten newest rows, the
    newest being the message at hand: the nine rows before it. *)
Lemma recent_rows {A} (l : list A) x :
  drop_last (reverse (take 10 (reverse (l ++ [x])))) = slice_last 9 l.
Proof.
  rewrite reverse_snoc. cbn [take]. rewrite reverse_cons, drop_last_snoc.
  rewrite reverse_take, reverse_involutive, length_reverse. done.
Qed.

Section handler.

Variable cosine_distance : vector → vector → Qc.
Variable embedContent : string → outcome EmbedContentResponse.
Variable generateContent : string → outcome GenerateContentResult.
Variable Date_now : nat → N.

#[local] Abbreviation generateRAGResponse :=
  (generateRAGResponse cosine_distance embedContent generateContent).
#[local] Abbreviation handle_text :=
  (handle_text cosine_distance embedContent generateContent Date_now).
#[local] Abbreviation handleMessage :=
  (handleMessage cosine_distance embedContent generateContent Date_now).
#[local] Abbreviation on_message :=
  (on_message cosine_distance embedContent generateContent Date_now).

Lemma generateRAGResponse_resolves d query websiteId history options :
  resolves (generateRAGResponse d query websiteId history options).
Proof. apply try_catch_resolves. intros; by eexists. Qed.


(** X28. Messages that are not handled leave no trace: on a socket
    without session or tenant, for a text message without content, and
    for a message of an unknown type, the handler stores nothing and
    sends nothing. *)
Theorem handleMessage_ignored ws message c :
  truthy (ws_sessionId ws) = false
  ∨ truthy (ws_websiteId ws) = false
  ∨ (in_type message = "message" ∧ truthy (in_content message) = false)
  ∨ (in_type message ≠ "message" ∧ in_type message ≠ "voice_start"
     ∧ in_type message ≠ "voice_end") →
  handleMessage ws message c = (Returns (), c).
Proof.
  unfold ChatSocket.handleMessage.
  intros [H|[H|[[Ht H]|(H1 & H2 & H3)]]].
  - by rewrite H.
  - rewrite H. by rewrite orb_true_r.
  - destruct (_ || _); [done|]. rewrite decide_True by done. by rewrite H.
  - destruct (_ || _); [done|]. by rewrite !decide_False.
Qed.

(** X29. A failure never escapes the listener.  When the payload is not
    valid JSON, or when the database cannot be reached for a text
    message, the listener stores nothing and sends exactly one frame:
    the [error] frame with the fixed text. *)
Theorem on_message_failure ws parsed c :
  rejects parsed
  ∨ (∃ message sessionId websiteId content msg,
       parsed = Returns message
       ∧ ws_sessionId ws = Some sessionId ∧ sessionId ≠ EmptyString
       ∧ ws_websiteId ws = Some websiteId ∧ websiteId ≠ EmptyString
       ∧ in_type message = "message"
       ∧ in_content message = Some content ∧ content ≠ EmptyString
       ∧ connect_error (chat_db c) = Some msg) →
  on_message ws parsed c =
  {| chat_db := chat_db c;
     chat_history := chat_history c;
     outbox := outbox c ++
       [{| frame_type := "error";
           frame_content := Some "Failed to process message";
           frame_sessionId := None;
           frame_timestamp := Date_now 0;
           frame_metadata := None |}] |}.
Proof.
  unfold ChatSocket.on_message.
  intros [[msg ->]|(message & sessionId & websiteId & content & msg & -> & Hs & Hsne
                    & Hw & Hwne & Htype & Hcontent & Hcne & Hc)].
  - unfold send. simpl. by rewrite Nat.sub_diag.
  - unfold ChatSocket.handleMessage. rewrite Hs, Hw, Htype, Hcontent. simpl.
    rewrite !bool_decide_eq_false_2 by done. simpl.
    unfold ChatSocket.handle_text, history_create, query. rewrite Hc.
    unfold send. simpl. by rewrite Nat.sub_diag.
Qed.

End handler.

End ChatSocketFacts.

(** ** The further properties on concrete data *)

Module Instances.

Import Database DatabaseOps Crawler CrawlRun ChatRoute ChatSocket.

Lemma deleteByWebsiteId_only_that_tenant_witness :
  ∃ d', deleteByWebsiteId Fixtures.example_db "T1" = Returns d'
    ∧ (∀ doc, doc ∈ documents d' → website_id doc ≠ "T1")
    ∧ filter (λ doc, website_id doc ≠ "T1") (documents d')
      = filter (λ doc, website_id doc ≠ "T1") (documents Fixtures.example_db)
    ∧ documents d' `sublist_of` documents Fixtures.example_db
    ∧ websites d' = websites Fixtures.example_db.
Proof.
  eexists. split; [reflexivity|].
  apply (CrawlRunFacts.deleteByWebsiteId_only_that_tenant Fixtures.example_db "T1").
  reflexivity.
Defined.

Lemma updateCrawlStatus_only_that_tenant_witness :
  ∃ d', updateCrawlStatus Fixtures.example_db "w1" crawling = Returns d'
    ∧ documents d' = documents Fixtures.example_db
    ∧ length (websites d') = length (websites Fixtures.example_db)
    ∧ ∀ i w, websites Fixtures.example_db !! i = Some w →
        ∃ w', websites d' !! i = Some w'
              ∧ id w' = id w ∧ domain w' = domain w ∧ api_key w' = api_key w
              ∧ is_active w' = is_active w
              ∧ (id w = "w1" → crawl_status w' = crawling)
              ∧ (id w ≠ "w1" → w' = w).
Proof.
  eexists. split; [reflexivity|].
  apply (CrawlRunFacts.updateCrawlStatus_only_that_tenant Fixtures.example_db
           "w1" crawling).
  reflexivity.
Defined.

(** A crawl of the article site against a store in which the tenant is
    indexed already: browser and database work, every row is accepted. *)
Lemma crawl_replaces_tenant_documents_witness :
  ∃ res d' st created,
    crawl Fixtures.example_site (settings default_options) Fixtures.article_site
      splitText_identity Fixtures.example_hostname "2024-01-01T00:00:00.000Z"
      Fixtures.unit_embedder (λ _ _, None) (Returns ()) (Returns ())
      (S (s_maxDepth (settings default_options))) Fixtures.indexed_db
    = Some (Returns (res, d'))
    ∧ crawl_pages Fixtures.example_site (settings default_options)
        Fixtures.article_site splitText_identity Fixtures.example_hostname
        "2024-01-01T00:00:00.000Z" (S (s_maxDepth (settings default_options)))
      = Some st
    ∧ pagesProcessed res ≤ s_maxPages (settings default_options)
    ∧ documents d'
        = filter (λ doc, website_id doc ≠ id Fixtures.example_site)
            (documents Fixtures.indexed_db) ++ created
    ∧ filter (λ doc, website_id doc = id Fixtures.example_site) (documents d')
        = created
    ∧ length created = documentsCreated res
    ∧ (∀ c, c ∈ created →
         ∃ doc v, doc ∈ documentsToCreate st
                  ∧ Rag.createEmbedding Fixtures.unit_embedder (content doc)
                    = Returns v
                  ∧ c = with_embedding (Some v) doc)
    ∧ (resolves (Returns ()) → resolves (Returns ()) →
       (∀ (d0 : Db) (doc : Document), (λ _ _, None) d0 doc = @None string) →
       success res = true
       ∧ Forall2 (λ c doc,
                    ∃ v, Rag.createEmbedding Fixtures.unit_embedder (content doc)
                         = Returns v
                         ∧ c = with_embedding (Some v) doc)
                 created (documentsToCreate st)).
Proof.
  apply (CrawlRunFacts.crawl_replaces_tenant_documents Fixtures.example_site
           (settings default_options) Fixtures.article_site splitText_identity
           Fixtures.example_hostname "2024-01-01T00:00:00.000Z"
           Fixtures.unit_embedder (λ _ _, None) (Returns ()) (Returns ())
           Fixtures.indexed_db).
  reflexivity.
Defined.

(** That crawl, run: three pages visited, one of them unreachable; the
    old chunk of the tenant is gone, the chunk of the other tenant is
    kept, and the two articles are stored with their embedding. *)
Example crawl_of_article_site :
  (λ o, match o with
        | Some (Returns (res, d')) =>
            Some (res,
                  (λ doc, (website_id doc, url doc, content doc, embedding doc))
                  <$> documents d',
                  crawl_status <$> websites d')
        | _ => None
        end)
    (crawl Fixtures.example_site (settings default_options) Fixtures.article_site
       splitText_identity Fixtures.example_hostname "2024-01-01T00:00:00.000Z"
       Fixtures.unit_embedder (λ _ _, None) (Returns ()) (Returns ())
       4 Fixtures.indexed_db)
  = Some ({| success := true; pagesProcessed := 3; documentsCreated := 2;
             result_errors :=
               ["Error crawling https://example.com/broken: net::ERR_CONNECTION_REFUSED"] |},
          [("T2", "https://other.example/services", "Unrelated tenant.",
            Some [frac 1 20]);
           ("w1", "https://example.com", Fixtures.article_text, Some [1%Qc]);
           ("w1", "https://example.com/contact", Fixtures.article_text,
            Some [1%Qc])],
          [completed]).
Proof. vm_compute. reflexivity. Qed.

Lemma crawl_leaves_other_tenants_witness :
  ∃ res d',
    crawl Fixtures.example_site (settings default_options) Fixtures.hub_site
      splitText_identity Fixtures.example_hostname "2024-01-01T00:00:00.000Z"
      Fixtures.unit_embedder (λ _ _, None) (Returns ()) (Returns ())
      (S (s_maxDepth (settings default_options))) Fixtures.example_db
    = Some (Returns (res, d'))
    ∧ filter (λ doc, website_id doc ≠ id Fixtures.example_site) (documents d')
      = filter (λ doc, website_id doc ≠ id Fixtures.example_site)
          (documents Fixtures.example_db)
    ∧ length (websites d') = length (websites Fixtures.example_db)
    ∧ ∀ i w, websites Fixtures.example_db !! i = Some w →
        ∃ w', websites d' !! i = Some w'
              ∧ (id w ≠ id Fixtures.example_site → w' = w)
              ∧ (id w = id Fixtures.example_site →
                 crawl_status w' = if success res then completed else failed).
Proof.
  apply (CrawlRunFacts.crawl_leaves_other_tenants Fixtures.example_site
           (settings default_options) Fixtures.hub_site splitText_identity
           Fixtures.example_hostname "2024-01-01T00:00:00.000Z"
           Fixtures.unit_embedder (λ _ _, None) (Returns ()) (Returns ())
           Fixtures.example_db).
  reflexivity.
Defined.

Lemma crawl_launch_failure_wipes_index_witness :
  ∃ d',
    crawl Fixtures.example_site (settings default_options) Fixtures.hub_site
      splitText_identity Fixtures.example_hostname "2024-01-01T00:00:00.000Z"
      Fixtures.unit_embedder (λ _ _, None) (Throws "no browser") (Returns ())
      (S (s_maxDepth (settings default_options))) Fixtures.example_db
    = Some (Returns ({| success := false; pagesProcessed := 0;
                        documentsCreated := 0;
                        result_errors := ["General crawl error: " +:+ "no browser"] |},
                     d'))
    ∧ filter (λ doc, website_id doc = id Fixtures.example_site) (documents d') = []
    ∧ ∀ w, w ∈ websites d' → id w = id Fixtures.example_site →
        crawl_status w = failed.
Proof.
  apply (CrawlRunFacts.crawl_launch_failure_wipes_index Fixtures.example_site
           (settings default_options) Fixtures.hub_site splitText_identity
           Fixtures.example_hostname "2024-01-01T00:00:00.000Z"
           Fixtures.unit_embedder (λ _ _, None) (Throws "no browser") (Returns ())
           Fixtures.example_db "no browser"); reflexivity.
Defined.

Lemma crawl_rejects_when_database_down_witness :
  crawl Fixtures.example_site (settings default_options) Fixtures.hub_site
    splitText_identity Fixtures.example_hostname "2024-01-01T00:00:00.000Z"
    Fixtures.unit_embedder (λ _ _, None) (Returns ()) (Returns ()) 4
    {| websites := [Fixtures.example_site]; documents := [];
       connect_error := Some "ECONNREFUSED" |}
  = Some (Throws "ECONNREFUSED").
Proof.
  apply (CrawlRunFacts.crawl_rejects_when_database_down Fixtures.example_site
           (settings default_options) Fixtures.hub_site splitText_identity
           Fixtures.example_hostname "2024-01-01T00:00:00.000Z"
           Fixtures.unit_embedder (λ _ _, None) (Returns ()) (Returns ()) 4
           {| websites := [Fixtures.example_site]; documents := [];
              connect_error := Some "ECONNREFUSED" |} "ECONNREFUSED").
  reflexivity.
Defined.


Lemma handleMessage_ignored_witness :
  let ws := {| ws_sessionId := None; ws_websiteId := Some "T1" |} in
  let message := {| in_type := "message"; in_content := Some "services";
                    in_metadata := None |} in
  let c := {| chat_db := Fixtures.example_db; chat_history := []; outbox := [] |} in
  handleMessage Fixtures.coordinate_distance Fixtures.unit_embedder
    Fixtures.hello_model Fixtures.example_clock ws message c = (Returns (), c).
Proof.
  intros ws message c.
  apply (ChatSocketFacts.handleMessage_ignored Fixtures.coordinate_distance
           Fixtures.unit_embedder Fixtures.hello_model Fixtures.example_clock
           ws message c).
  left. reflexivity.
Defined.

Lemma on_message_failure_witness :
  let ws := {| ws_sessionId := Some "s1"; ws_websiteId := Some "T1" |} in
  let c := {| chat_db := Fixtures.example_db; chat_history := []; outbox := [] |} in
  on_message Fixtures.coordinate_distance Fixtures.unit_embedder
    Fixtures.hello_model Fixtures.example_clock ws
    (Throws "Unexpected token") c =
  {| chat_db := chat_db c;
     chat_history := chat_history c;
     outbox := outbox c ++
       [{| frame_type := "error";
           frame_content := Some "Failed to process message";
           frame_sessionId := None;
           frame_timestamp := Fixtures.example_clock 0;
           frame_metadata := None |}] |}.
Proof.
  intros ws c.
  apply (ChatSocketFacts.on_message_failure Fixtures.coordinate_distance
           Fixtures.unit_embedder Fixtures.hello_model Fixtures.example_clock
           ws (Throws "Unexpected token") c).
  left. by exists "Unexpected token".
Defined.

(** The crawl of the hub site, run: eleven pages, no document (the hub
    pages have no text), status [completed]. *)
Example crawl_of_hub_site :
  (λ o, match o with
        | Some (Returns (res, d')) =>
            Some (success res, pagesProcessed res, documentsCreated res,
                  crawl_status <$> websites d')
        | _ => None
        end)
    (crawl Fixtures.example_site (settings default_options) Fixtures.hub_site
       splitText_identity Fixtures.example_hostname "2024-01-01T00:00:00.000Z"
       Fixtures.unit_embedder (λ _ _, None) (Returns ()) (Returns ())
       4 Fixtures.example_db)
  = Some (true, 11, 0, [completed]).
Proof. vm_compute. reflexivity. Qed.

(** The chat endpoint on three answers of the provider: a first part
    with text, a first part without text (the reply has no [content])
    and no candidate at all (the apology). *)
Example chat_reply_contents :
  (λ g, (λ r, (status r, field "content" (body r)))
        <$> ChatRoute.POST (Some "key") g Fixtures.example_clock
              (Returns (Some Fixtures.example_body)))
  <$> [Fixtures.halo_gemini; Fixtures.textless_gemini; Fixtures.empty_gemini]
  = [Returns (200, Some (JStr "Halo"));
     Returns (200, None);
     Returns (200, Some (JStr gemini_fallback))].
Proof. reflexivity. Qed.

(** The clock of the chat endpoint: read twice for a request without
    session, once for a request that names its session. *)
Example chat_reply_clock :
  (λ b, (λ r, (field "sessionId" (body r), field "timestamp" (body r)))
        <$> ChatRoute.POST (Some "key") Fixtures.halo_gemini Fixtures.example_clock
              (Returns (Some b)))
  <$> [Fixtures.example_body; Fixtures.session_body]
  = [Returns (Some (JStr "prod-session-1700000000000"),
              Some (JNum 1700000000001%N));
     Returns (Some (JStr "abc"), Some (JNum 1700000000000%N))].
Proof. vm_compute. reflexivity. Qed.

(** [message.metadata || {}] on missing, falsy and truthy metadata. *)
Example falsy_metadata_is_replaced :
  metadata_or_empty
  <$> [None; Some (JBool false); Some (JNum 0%N); Some (JStr EmptyString);
       Some (JObj [("page", JStr "/pricing")])]
  = [JObj []; JObj []; JObj []; JObj []; JObj [("page", JStr "/pricing")]].
Proof. reflexivity. Qed.

Example crawl_status_of_existing_tenant :
  status (CrawlRoute.GET Fixtures.example_db (Some "key-1")) = 500
  ∧ status (CrawlRoute.GET Fixtures.example_db (Some "unknown")) = 404
  ∧ status (CrawlRoute.GET Fixtures.example_db None) = 400.
Proof. split_and!; reflexivity. Qed.

End Instances.
